(** * Retirement calculator: projection engine

    A shallow embedding of the calculation modules of the retirement
    calculator (housing, living expenses, investments, taxes, healthcare)
    and the properties of them that the specification states.

    Numbers.  A JavaScript number is modelled as an exact rational [Q]:
    [+], [-], [*] and [Math.pow] with a natural exponent are total on finite
    numbers and are taken without rounding.  The places of the source where
    a value that is not a finite number can arise from finite inputs are
    modelled explicitly: the division of the mortgage payment formula
    ([jsdiv], which fails on a zero divisor, where JavaScript yields [NaN] or
    an infinity), an [undefined] array entry used as an operand, and the
    [Infinity] bound of the last tax bracket ([bound]).  Ages and year counts
    are integers; loop indices are naturals.

    [House.calculateData] is given twice.  [Housing] follows a run as long
    as its numbers are finite and ends with [Err NotFinite] where the
    monthly payment is not; [NumericHousing] keeps [NaN] and the infinities
    in the cost columns and the remaining principal, as the source does, and
    agrees with [Housing] on every run that [Housing] completes. *)

From Stdlib Require Import String QArith Qpower Qminmax Lqa Lia ZArith Bool List.
Import ListNotations.

Open Scope Q_scope.

(** ** JavaScript number operations *)

(** [a < b] and [a <= b] on numbers. *)
Definition ltb (a b : Q) : bool := negb (Qle_bool b a).
Definition leb (a b : Q) : bool := Qle_bool a b.

(** [Math.pow(b, n)] for a loop index or a count of payments [n]. *)
Definition Math_pow (b : Q) (n : nat) : Q := b ^ Z.of_nat n.

(** [a / b]: [None] stands for the non-finite result ([NaN], [Infinity] or
    [-Infinity]) that JavaScript produces when the divisor is zero. *)
Definition jsdiv (a b : Q) : option Q :=
  if Qeq_bool b 0 then None else Some (a / b).

(** How a call ends: with a value, by throwing a [TypeError] (a property
    read on [undefined]), or with a value that is not a finite number. *)
Inductive error : Type :=
| TypeError
| NotFinite.

Inductive result (A : Type) : Type :=
| Ok (a : A)
| Err (e : error).
Arguments Ok {A} a.
Arguments Err {A} e.

Definition bind {A B : Type} (r : result A) (k : A -> result B) : result B :=
  match r with
  | Ok a => k a
  | Err e => Err e
  end.

Notation "x <- r ;; k" := (bind r (fun x => k))
  (at level 61, r at next level, right associativity).

(** [arr[i]] followed by a property read: reading a property of
    [undefined] throws. *)
Definition index {A : Type} (arr : list A) (i : nat) : result A :=
  match nth_error arr i with
  | Some a => Ok a
  | None => Err TypeError
  end.

(** The profile shared by all models ([GeneralInformation]). *)
Record GeneralInformation : Type := mkGeneralInformation {
  startAge : Z;
  retirementAge : Z;
  lifeExpectancy : Z;
  inflation : Q;
  socialSecurity : Q;
  otherRetirementIncome : Q;
  monthlySpending : Q;
  retirementMonthlySpending : Q
}.

(** Number of iterations of [for (let i = 0; i < years; i++)] with
    [years = lifeExpectancy - startAge]. *)
Definition years (g : GeneralInformation) : nat :=
  Z.to_nat (lifeExpectancy g - startAge g).

(** [i < retirementAge - startAge] for a loop index [i]. *)
Definition preRetirement (g : GeneralInformation) (i : nat) : bool :=
  (Z.of_nat i <? retirementAge g - startAge g)%Z.

(** ** Tax module *)

Module Tax.

(** Upper bound of a bracket: a number or [Infinity]. *)
Inductive bound : Type :=
| Finite (q : Q)
| Infinity.

Record Bracket : Type := mkBracket { max : bound; rate : Q }.

Definition FEDERAL_TAX_BRACKETS_SINGLE : list Bracket :=
  [ mkBracket (Finite 11600) 0.10;
    mkBracket (Finite 47150) 0.12;
    mkBracket (Finite 100525) 0.22;
    mkBracket (Finite 191950) 0.24;
    mkBracket (Finite 243725) 0.32;
    mkBracket (Finite 609350) 0.35;
    mkBracket Infinity 0.37 ].

Definition FEDERAL_TAX_BRACKETS_JOINT : list Bracket :=
  [ mkBracket (Finite 23200) 0.10;
    mkBracket (Finite 94300) 0.12;
    mkBracket (Finite 201050) 0.22;
    mkBracket (Finite 383900) 0.24;
    mkBracket (Finite 487450) 0.32;
    mkBracket (Finite 731200) 0.35;
    mkBracket Infinity 0.37 ].

Definition STANDARD_DEDUCTION_single : Q := 14600.
Definition STANDARD_DEDUCTION_joint : Q := 29200.

Record TaxConfig : Type := mkTaxConfig {
  filingStatus : string;
  stateIncomeTaxRate : Q;
  itemizeDeductions : bool;
  mortgageInterestDeduction : Q;
  propertyTaxDeduction : Q;
  otherDeductions : Q
}.

(** [Math.min(x, b)] where [b] may be [Infinity]. *)
Definition min_bound (x : Q) (b : bound) : Q :=
  match b with
  | Finite m => Qmin x m
  | Infinity => x
  end.

(** The [for (const bracket of brackets)] loop of [calculateFederalTax],
    with its two [break]s.  [previousMax] is read only after a bracket whose
    bound did not end the loop, so it is always a finite number. *)
Fixpoint bracketLoop (taxableIncome : Q) (brackets : list Bracket)
    (tax previousMax : Q) : Q :=
  match brackets with
  | [] => tax
  | bracket :: rest =>
      if leb taxableIncome previousMax then tax
      else
        let incomeInBracket := min_bound taxableIncome (max bracket) - previousMax in
        let tax := tax + incomeInBracket * rate bracket in
        match max bracket with
        | Infinity => tax
        | Finite m =>
            if leb taxableIncome m then tax
            else bracketLoop taxableIncome rest tax m
        end
  end.

Definition bracketsFor (config : TaxConfig) : list Bracket :=
  if String.eqb (filingStatus config) "joint"
  then FEDERAL_TAX_BRACKETS_JOINT
  else FEDERAL_TAX_BRACKETS_SINGLE.

Definition calculateFederalTax (config : TaxConfig) (taxableIncome : Q) : Q :=
  if leb taxableIncome 0 then 0
  else bracketLoop taxableIncome (bracketsFor config) 0 0.

Definition calculateStateTax (config : TaxConfig) (taxableIncome : Q) : Q :=
  if leb taxableIncome 0 then 0
  else taxableIncome * stateIncomeTaxRate config.

Definition calculateDeductions (config : TaxConfig)
    (mortgageInterest propertyTax : Q) : Q :=
  let standardDeduction :=
    if String.eqb (filingStatus config) "joint"
    then STANDARD_DEDUCTION_joint
    else STANDARD_DEDUCTION_single in
  if negb (itemizeDeductions config) then standardDeduction
  else
    let itemizedTotal :=
      mortgageInterest + Qmin propertyTax 10000 + otherDeductions config in
    Qmax standardDeduction itemizedTotal.

(** The marginal progressive schedule in the words of the specification:
    every bracket taxes, at its rate, the income that falls within its band
    [previousMax, max]. *)
Definition incomeInBand (taxableIncome previousMax : Q) (b : bound) : Q :=
  Qmax 0 (min_bound taxableIncome b - previousMax).

Fixpoint marginalSchedule (taxableIncome previousMax : Q)
    (brackets : list Bracket) : Q :=
  match brackets with
  | [] => 0
  | bracket :: rest =>
      incomeInBand taxableIncome previousMax (max bracket) * rate bracket +
      match max bracket with
      | Finite m => marginalSchedule taxableIncome m rest
      | Infinity => 0
      end
  end.

(** Tax of the brackets that lie wholly below a boundary: each full band
    [max - previousMax] at its rate, for the first [k] brackets. *)
Fixpoint cumulativeTax (previousMax : Q) (brackets : list Bracket) (k : nat) : Q :=
  match k, brackets with
  | S k', bracket :: rest =>
      match max bracket with
      | Finite m => (m - previousMax) * rate bracket + cumulativeTax m rest k'
      | Infinity => 0
      end
  | _, _ => 0
  end.

(** The [k]-th published boundary of a table. *)
Definition boundary (brackets : list Bracket) (k : nat) : option Q :=
  match nth_error brackets k with
  | Some (mkBracket (Finite m) _) => Some m
  | _ => None
  end.

(** A table whose bounds increase from [previousMax] on, with [Infinity]
    only as the last bound. *)
Fixpoint ascending (previousMax : Q) (brackets : list Bracket) : Prop :=
  match brackets with
  | [] => True
  | bracket :: rest =>
      match max bracket with
      | Finite m => previousMax <= m /\ ascending m rest
      | Infinity => rest = []
      end
  end.

(** Hinge form of a marginal schedule: the first rate on all income above
    [previousMax], and at every bound the increase of the rate on the income
    above that bound. *)
Fixpoint hingeSchedule (taxableIncome previousMax previousRate : Q)
    (brackets : list Bracket) : Q :=
  match brackets with
  | [] => 0
  | bracket :: rest =>
      (rate bracket - previousRate) * Qmax 0 (taxableIncome - previousMax) +
      match max bracket with
      | Finite m => hingeSchedule taxableIncome m (rate bracket) rest
      | Infinity => 0
      end
  end.

(** A table that ends with an [Infinity] bound. *)
Fixpoint openEnded (brackets : list Bracket) : Prop :=
  match brackets with
  | [] => False
  | bracket :: rest =>
      match max bracket with
      | Finite _ => openEnded rest
      | Infinity => True
      end
  end.

(** [calculateTaxableSocialSecurity(socialSecurityIncome, otherIncome)]. *)
Definition calculateTaxableSocialSecurity (config : TaxConfig)
    (socialSecurityIncome otherIncome : Q) : Q :=
  let combinedIncome := otherIncome + socialSecurityIncome * 0.5 in
  let '(lower, upper) :=
    if String.eqb (filingStatus config) "joint"
    then (32000, 44000)
    else (25000, 34000) in
  if ltb combinedIncome lower then 0
  else if ltb combinedIncome upper
  then Qmin (socialSecurityIncome * 0.5) ((combinedIncome - lower) * 0.5)
  else Qmin (socialSecurityIncome * 0.85)
         ((upper - lower) * 0.5 + (combinedIncome - upper) * 0.85).

(** The object returned by [calculateAnnualTax]. *)
Record AnnualTax : Type := mkAnnualTax {
  grossIncome : Q;
  taxableSocialSecurity : Q;
  deductions : Q;
  taxableIncome : Q;
  federalTax : Q;
  stateTax : Q;
  totalTax : Q
}.

(** [calculateAnnualTax(socialSecurityIncome, otherRetirementIncome,
     investmentWithdrawals, mortgageInterest = 0, propertyTax = 0)]; the two
    defaulted arguments are explicit. *)
Definition calculateAnnualTax (config : TaxConfig)
    (socialSecurityIncome otherRetirementIncome investmentWithdrawals
     mortgageInterest propertyTax : Q) : AnnualTax :=
  let taxableSS :=
    calculateTaxableSocialSecurity config socialSecurityIncome
      (otherRetirementIncome + investmentWithdrawals) in
  let grossIncome := taxableSS + otherRetirementIncome + investmentWithdrawals in
  let deductions := calculateDeductions config mortgageInterest propertyTax in
  let taxableIncome := Qmax 0 (grossIncome - deductions) in
  let federalTax := calculateFederalTax config taxableIncome in
  let stateTax := calculateStateTax config taxableIncome in
  let totalTax := federalTax + stateTax in
  mkAnnualTax grossIncome taxableSS deductions taxableIncome
    federalTax stateTax totalTax.

End Tax.

(** ** Healthcare module *)

Module Healthcare.

Record HealthcareConfig : Type := mkHealthcareConfig {
  preMedicareMonthlyPremium : Q;
  preMedicareAnnualDeductible : Q;
  preMedicareAnnualOutOfPocket : Q;
  medicarePartBPremium : Q;
  medicarePartDPremium : Q;
  medigapPremium : Q;
  medicareAnnualOutOfPocket : Q;
  includeLongTermCare : bool;
  longTermCarePremium : Q;
  longTermCareStartAge : Z
}.

(** The constructor's default arguments. *)
Definition defaultConfig : HealthcareConfig :=
  mkHealthcareConfig 800 5000 3000 174.70 55 200 2000 false 250 60.

Record HealthcareYear : Type := mkHealthcareYear {
  age : Z;
  annualCost : Q;
  monthlyPremiums : Q;
  outOfPocket : Q
}.

(** The object: [generalInformation], [config], the series
    [healthcareData] and [medicareEligibleAge]. *)
Record HealthcareCosts : Type := mkHealthcareCosts {
  generalInformation : GeneralInformation;
  config : HealthcareConfig;
  healthcareData : list HealthcareYear;
  medicareEligibleAge : Z
}.

Definition new (g : GeneralInformation) (c : HealthcareConfig) : HealthcareCosts :=
  mkHealthcareCosts g c [] 65.

(** [const inflationRate = this.generalInformation.inflation / 100]. *)
Definition inflationRate (g : GeneralInformation) : Q := inflation g / 100.

(** [Math.pow(1 + inflationRate, yearsSinceStart)] with
    [yearsSinceStart = i]. *)
Definition inflationMultiplier (g : GeneralInformation) (i : nat) : Q :=
  Math_pow (1 + inflationRate g) i.

(** Body of the year loop: the record pushed for year [i]. *)
Definition yearRecord (this : HealthcareCosts) (i : nat) : HealthcareYear :=
  let g := generalInformation this in
  let c := config this in
  let age := (startAge g + Z.of_nat i)%Z in
  let inflationMultiplier := inflationMultiplier g i in
  let '(monthlyPremiums, outOfPocket) :=
    if (age <? medicareEligibleAge this)%Z
    then (preMedicareMonthlyPremium c * inflationMultiplier,
          (preMedicareAnnualDeductible c + preMedicareAnnualOutOfPocket c)
            * inflationMultiplier)
    else ((medicarePartBPremium c + medicarePartDPremium c + medigapPremium c)
            * inflationMultiplier,
          medicareAnnualOutOfPocket c * inflationMultiplier) in
  let monthlyPremiums :=
    if includeLongTermCare c && (longTermCareStartAge c <=? age)%Z
    then monthlyPremiums + longTermCarePremium c * inflationMultiplier
    else monthlyPremiums in
  let annualCost := monthlyPremiums * 12 + outOfPocket in
  mkHealthcareYear age annualCost monthlyPremiums outOfPocket.

(** [for (let i = 0; i < years; i++)]: [n] iterations remain, the next
    index is [i]. *)
Fixpoint yearLoop (n i : nat) (this : HealthcareCosts) : HealthcareCosts :=
  match n with
  | O => this
  | S n' =>
      let y := yearRecord this i in
      yearLoop n' (S i)
        (mkHealthcareCosts (generalInformation this) (config this)
           (healthcareData this ++ [y]) (medicareEligibleAge this))
  end.

Definition calculateData (this : HealthcareCosts) : HealthcareCosts :=
  yearLoop (years (generalInformation this)) 0 this.

(** [getCostAtAge(age)]: the annual cost of the first record with that
    age, or 0 when there is none. *)
Definition getCostAtAge (this : HealthcareCosts) (a : Z) : Q :=
  match find (fun y => (age y =? a)%Z) (healthcareData this) with
  | Some yearData => annualCost yearData
  | None => 0
  end.

(** [getTotalCosts()]: [reduce((sum, year) => sum + year.annualCost, 0)]. *)
Definition getTotalCosts (this : HealthcareCosts) : Q :=
  fold_left (fun sum year => sum + annualCost year) (healthcareData this) 0.

End Healthcare.

(** ** Housing module *)

Module Housing.

Record HousingYear : Type := mkHousingYear {
  age : Z;
  value : Q;
  yearlyCosts : Q;
  totalCosts : Q
}.

(** Fields of the base class [GenericHousing]. *)
Record GenericHousing : Type := mkGenericHousing {
  generalInformation : GeneralInformation;
  monthlyInsurance : Q;
  monthlyHOA : Q;
  housingData : list HousingYear
}.

(** [class House extends GenericHousing]. *)
Record House : Type := mkHouse {
  House_super : GenericHousing;
  mortgage : Q;
  downPayment : Q;
  mortgageRate : Q;
  mortgageTermYears : nat;
  propertyTaxAssessment : Q;
  homeAppreciationRate : Q;
  oneTimeImprovements : Q;
  annualMaintenanceCost : Q
}.

(** The constructor: [housingData] starts empty. *)
Definition new_House (g : GeneralInformation) (monthlyInsurance monthlyHOA
    mortgage downPayment mortgageRate : Q) (mortgageTermYears : nat)
    (propertyTaxAssessment homeAppreciationRate oneTimeImprovements
     annualMaintenanceCost : Q) : House :=
  mkHouse (mkGenericHousing g monthlyInsurance monthlyHOA [])
    mortgage downPayment mortgageRate mortgageTermYears
    propertyTaxAssessment homeAppreciationRate oneTimeImprovements
    annualMaintenanceCost.

Definition monthlyRate (this : House) : Q := mortgageRate this / 12.

Definition totalPayments (this : House) : nat := (mortgageTermYears this * 12)%nat.

(** [this.mortgage > 0 ? this.mortgage * (r * pow(1+r, n)) / (pow(1+r, n) - 1) : 0];
    [None] when the quotient is not a finite number. *)
Definition monthlyMortgagePayment (this : House) : option Q :=
  let monthlyRate := monthlyRate this in
  let totalPayments := totalPayments this in
  if ltb 0 (mortgage this)
  then jsdiv (mortgage this * (monthlyRate * Math_pow (1 + monthlyRate) totalPayments))
             (Math_pow (1 + monthlyRate) totalPayments - 1)
  else Some 0.

(** Variables of the month loop.  [principalPortions] is a log of the
    [monthlyPrincipal] of every month executed so far, oldest first; the
    source computes these amounts and keeps only their running sum
    [yearlyPrincipalPaid]. *)
Record Amortization : Type := mkAmortization {
  remainingPrincipal : Q;
  yearlyInterestPaid : Q;
  yearlyPrincipalPaid : Q;
  principalPortions : list Q
}.

(** Body of [for (let month = 0; month < 12; month++)]. *)
Definition monthStep (monthlyRate monthlyMortgagePayment : Q)
    (a : Amortization) : Amortization :=
  let monthlyInterest := remainingPrincipal a * monthlyRate in
  let monthlyPrincipal := monthlyMortgagePayment - monthlyInterest in
  let remaining := remainingPrincipal a - monthlyPrincipal in
  mkAmortization
    (if ltb remaining 0 then 0 else remaining)
    (yearlyInterestPaid a + monthlyInterest)
    (yearlyPrincipalPaid a + monthlyPrincipal)
    (principalPortions a ++ [monthlyPrincipal]).

Fixpoint monthLoop (months : nat) (monthlyRate monthlyMortgagePayment : Q)
    (a : Amortization) : Amortization :=
  match months with
  | O => a
  | S months' =>
      monthLoop months' monthlyRate monthlyMortgagePayment
        (monthStep monthlyRate monthlyMortgagePayment a)
  end.

Arguments monthLoop : simpl never.

(** Variables that live across the iterations of the year loop: the object
    (whose cost fields and series the loop updates), [currentValue],
    [remainingPrincipal], and the log of monthly principal portions. *)
Record HouseLoop : Type := mkHouseLoop {
  this_ : House;
  currentValue : Q;
  remaining : Q;
  portions : list Q
}.

(** [i == 0 ? yearlyCosts : data[i - 1].totalCosts + yearlyCosts]. *)
Definition cumulate (data : list HousingYear) (i : nat) (yearlyCosts : Q) : result Q :=
  if (i =? 0)%nat then Ok yearlyCosts
  else prev <- index data (i - 1) ;; Ok (totalCosts prev + yearlyCosts).

(** Body of [for (let i = 0; i < years; i++)] of [House.calculateData].
    The monthly payment is used only in a year that still amortizes; a
    payment that is not a finite number makes that year's costs not finite.
    [Err NotFinite] marks that year: the source does not throw there, it
    records the year with costs that are not finite and goes on, which
    [NumericHousing.House_year] below follows. *)
Definition House_year (monthlyRate : Q) (monthlyMortgagePayment : option Q)
    (i : nat) (s : HouseLoop) : result HouseLoop :=
  let this := this_ s in
  let super := House_super this in
  let g := generalInformation super in
  let yearlyCosts :=
    monthlyInsurance super * 12 + monthlyHOA super * 12 + propertyTaxAssessment this in
  paid <-
    (if (i <? mortgageTermYears this)%nat && ltb 0 (remaining s)
     then
       match monthlyMortgagePayment with
       | None => Err NotFinite
       | Some payment =>
           let a := monthLoop 12 monthlyRate payment
                      (mkAmortization (remaining s) 0 0 (portions s)) in
           Ok (yearlyCosts + payment * 12, remainingPrincipal a, principalPortions a)
       end
     else Ok (yearlyCosts, remaining s, portions s)) ;;
  let '(yearlyCosts, remaining, portions) := paid in
  let yearlyCosts :=
    if (i =? 0)%nat then yearlyCosts + oneTimeImprovements this
    else yearlyCosts + annualMaintenanceCost this in
  let currentValue := currentValue s * (1 + homeAppreciationRate this) in
  total <- cumulate (housingData super) i yearlyCosts ;;
  let record :=
    mkHousingYear (startAge g + Z.of_nat i) currentValue yearlyCosts total in
  Ok (mkHouseLoop
        (mkHouse
           (mkGenericHousing g
              (monthlyInsurance super * (1 + inflation g))
              (monthlyHOA super * (1 + inflation g))
              (housingData super ++ [record]))
           (mortgage this) (downPayment this) (mortgageRate this)
           (mortgageTermYears this)
           (propertyTaxAssessment this * (1 + inflation g))
           (homeAppreciationRate this) (oneTimeImprovements this)
           (annualMaintenanceCost this * (1 + inflation g)))
        currentValue remaining portions).

(** [n] iterations remain, the next index is [i]. *)
Fixpoint House_loop (monthlyRate : Q) (monthlyMortgagePayment : option Q)
    (n i : nat) (s : HouseLoop) : result HouseLoop :=
  match n with
  | O => Ok s
  | S n' =>
      s' <- House_year monthlyRate monthlyMortgagePayment i s ;;
      House_loop monthlyRate monthlyMortgagePayment n' (S i) s'
  end.

(** [House.calculateData], with the final loop variables. *)
Definition House_run (this : House) : result HouseLoop :=
  House_loop (monthlyRate this) (monthlyMortgagePayment this)
    (years (generalInformation (House_super this))) 0
    (mkHouseLoop this (downPayment this + mortgage this) (mortgage this) []).

(** [House.calculateData]: the object after the call. *)
Definition House_calculateData (this : House) : result House :=
  s <- House_run this ;; Ok (this_ s).

(** [class Apartment extends GenericHousing]. *)
Record Apartment : Type := mkApartment {
  Apartment_super : GenericHousing;
  monthlyRent : Q;
  annualRentIncrease : Q
}.

Definition new_Apartment (g : GeneralInformation) (monthlyInsurance monthlyHOA
    monthlyRent annualRentIncrease : Q) : Apartment :=
  mkApartment (mkGenericHousing g monthlyInsurance monthlyHOA [])
    monthlyRent annualRentIncrease.

(** Body of the year loop of [Apartment.calculateData]; the loop variables
    are the object and [currentRent]. *)
Definition Apartment_year (i : nat) (s : Apartment * Q) : result (Apartment * Q) :=
  let '(this, currentRent) := s in
  let super := Apartment_super this in
  let g := generalInformation super in
  let yearlyCosts :=
    currentRent * 12 + monthlyInsurance super * 12 + monthlyHOA super * 12 in
  total <- cumulate (housingData super) i yearlyCosts ;;
  let record := mkHousingYear (startAge g + Z.of_nat i) 0 yearlyCosts total in
  Ok (mkApartment
        (mkGenericHousing g
           (monthlyInsurance super * (1 + inflation g))
           (monthlyHOA super * (1 + inflation g))
           (housingData super ++ [record]))
        (monthlyRent this) (annualRentIncrease this),
      currentRent * (1 + annualRentIncrease this)).

Fixpoint Apartment_loop (n i : nat) (s : Apartment * Q) : result (Apartment * Q) :=
  match n with
  | O => Ok s
  | S n' => s' <- Apartment_year i s ;; Apartment_loop n' (S i) s'
  end.

Definition Apartment_calculateData (this : Apartment) : result Apartment :=
  s <- Apartment_loop (years (generalInformation (Apartment_super this))) 0
         (this, monthlyRent this) ;;
  Ok (fst s).

End Housing.

(** ** House.calculateData with the numbers that are not finite

    [Housing.House_calculateData] above follows a run as long as every
    number is finite and ends with [Err NotFinite] in the year in which the
    monthly payment is not: JavaScript itself does not stop there.  It goes
    on with [NaN] or an infinity in the cost columns and in the remaining
    principal, and records every year.  This second model of the same
    method keeps those values: the quantities that the payment enters are
    numbers of the type [Number.number]. *)

Module Number.

(** A JavaScript number: a finite number, an infinity or [NaN]. *)
Inductive number : Type :=
| Num (q : Q)
| PlusInfinity
| MinusInfinity
| NaN.

(** [- x]. *)
Definition opp (x : number) : number :=
  match x with
  | Num a => Num (- a)
  | PlusInfinity => MinusInfinity
  | MinusInfinity => PlusInfinity
  | NaN => NaN
  end.

(** [x + y]: opposite infinities add up to [NaN]. *)
Definition add (x y : number) : number :=
  match x, y with
  | Num a, Num b => Num (a + b)
  | NaN, _ | _, NaN => NaN
  | PlusInfinity, MinusInfinity | MinusInfinity, PlusInfinity => NaN
  | PlusInfinity, _ | _, PlusInfinity => PlusInfinity
  | MinusInfinity, _ | _, MinusInfinity => MinusInfinity
  end.

(** [x - y]. *)
Definition sub (x y : number) : number :=
  match x, y with
  | Num a, Num b => Num (a - b)
  | _, _ => add x (opp y)
  end.

(** The sign of a finite factor of an infinity. *)
Definition scale (infinity : number) (a : Q) : number :=
  if ltb 0 a then infinity
  else if ltb a 0 then opp infinity
  else NaN.

(** [x * y]: an infinity times zero is [NaN]. *)
Definition mul (x y : number) : number :=
  match x, y with
  | Num a, Num b => Num (a * b)
  | NaN, _ | _, NaN => NaN
  | Num a, infinity => scale infinity a
  | infinity, Num b => scale infinity b
  | PlusInfinity, PlusInfinity | MinusInfinity, MinusInfinity => PlusInfinity
  | PlusInfinity, MinusInfinity | MinusInfinity, PlusInfinity => MinusInfinity
  end.

(** [a / b] for finite [a] and [b], where a zero [b] is the positive zero
    of a difference: [0 / 0] is [NaN], every other quotient by zero is the
    infinity of the sign of [a]. *)
Definition div (a b : Q) : number :=
  if Qeq_bool b 0 then scale PlusInfinity a else Num (a / b).

(** [x < y]: false when either side is [NaN]. *)
Definition lt (x y : number) : bool :=
  match x, y with
  | Num a, Num b => ltb a b
  | NaN, _ | _, NaN => false
  | _, MinusInfinity => false
  | MinusInfinity, _ => true
  | PlusInfinity, _ => false
  | _, PlusInfinity => true
  end.

End Number.

Module NumericHousing.

Import Number.

Record HousingYear : Type := mkHousingYear {
  age : Z;
  value : Q;
  yearlyCosts : number;
  totalCosts : number
}.

Record GenericHousing : Type := mkGenericHousing {
  generalInformation : GeneralInformation;
  monthlyInsurance : Q;
  monthlyHOA : Q;
  housingData : list HousingYear
}.

Record House : Type := mkHouse {
  House_super : GenericHousing;
  mortgage : Q;
  downPayment : Q;
  mortgageRate : Q;
  mortgageTermYears : nat;
  propertyTaxAssessment : Q;
  homeAppreciationRate : Q;
  oneTimeImprovements : Q;
  annualMaintenanceCost : Q
}.

(** The constructor: [housingData] starts empty. *)
Definition new_House (g : GeneralInformation) (monthlyInsurance monthlyHOA
    mortgage downPayment mortgageRate : Q) (mortgageTermYears : nat)
    (propertyTaxAssessment homeAppreciationRate oneTimeImprovements
     annualMaintenanceCost : Q) : House :=
  mkHouse (mkGenericHousing g monthlyInsurance monthlyHOA [])
    mortgage downPayment mortgageRate mortgageTermYears
    propertyTaxAssessment homeAppreciationRate oneTimeImprovements
    annualMaintenanceCost.

Definition monthlyRate (this : House) : Q := mortgageRate this / 12.

Definition totalPayments (this : House) : nat := (mortgageTermYears this * 12)%nat.

(** [this.mortgage > 0 ? this.mortgage * (r * pow(1+r, n)) / (pow(1+r, n) - 1) : 0]. *)
Definition monthlyMortgagePayment (this : House) : number :=
  let monthlyRate := monthlyRate this in
  let totalPayments := totalPayments this in
  if ltb 0 (mortgage this)
  then div (mortgage this * (monthlyRate * Math_pow (1 + monthlyRate) totalPayments))
           (Math_pow (1 + monthlyRate) totalPayments - 1)
  else Num 0.

(** Variables of the month loop. *)
Record Amortization : Type := mkAmortization {
  remainingPrincipal : number;
  yearlyInterestPaid : number;
  yearlyPrincipalPaid : number
}.

(** Body of [for (let month = 0; month < 12; month++)]. *)
Definition monthStep (monthlyRate : Q) (monthlyMortgagePayment : number)
    (a : Amortization) : Amortization :=
  let monthlyInterest := mul (remainingPrincipal a) (Num monthlyRate) in
  let monthlyPrincipal := sub monthlyMortgagePayment monthlyInterest in
  let remaining := sub (remainingPrincipal a) monthlyPrincipal in
  mkAmortization
    (if lt remaining (Num 0) then Num 0 else remaining)
    (add (yearlyInterestPaid a) monthlyInterest)
    (add (yearlyPrincipalPaid a) monthlyPrincipal).

Fixpoint monthLoop (months : nat) (monthlyRate : Q)
    (monthlyMortgagePayment : number) (a : Amortization) : Amortization :=
  match months with
  | O => a
  | S months' =>
      monthLoop months' monthlyRate monthlyMortgagePayment
        (monthStep monthlyRate monthlyMortgagePayment a)
  end.

Arguments monthLoop : simpl never.

(** Variables that live across the iterations of the year loop: the
    object, [currentValue] and [remainingPrincipal]. *)
Record HouseLoop : Type := mkHouseLoop {
  this_ : House;
  currentValue : Q;
  remaining : number
}.

(** [i == 0 ? yearlyCosts : data[i - 1].totalCosts + yearlyCosts]. *)
Definition cumulate (data : list HousingYear) (i : nat) (yearlyCosts : number)
    : result number :=
  if (i =? 0)%nat then Ok yearlyCosts
  else prev <- index data (i - 1) ;; Ok (add (totalCosts prev) yearlyCosts).

(** Body of [for (let i = 0; i < years; i++)] of [House.calculateData]. *)
Definition House_year (monthlyRate : Q) (monthlyMortgagePayment : number)
    (i : nat) (s : HouseLoop) : result HouseLoop :=
  let this := this_ s in
  let super := House_super this in
  let g := generalInformation super in
  let yearlyCosts :=
    Num (monthlyInsurance super * 12 + monthlyHOA super * 12
         + propertyTaxAssessment this) in
  let '(yearlyCosts, remaining) :=
    if (i <? mortgageTermYears this)%nat && lt (Num 0) (remaining s)
    then
      let a := monthLoop 12 monthlyRate monthlyMortgagePayment
                 (mkAmortization (remaining s) (Num 0) (Num 0)) in
      (add yearlyCosts (mul monthlyMortgagePayment (Num 12)),
       remainingPrincipal a)
    else (yearlyCosts, remaining s) in
  let yearlyCosts :=
    if (i =? 0)%nat then add yearlyCosts (Num (oneTimeImprovements this))
    else add yearlyCosts (Num (annualMaintenanceCost this)) in
  let currentValue := currentValue s * (1 + homeAppreciationRate this) in
  total <- cumulate (housingData super) i yearlyCosts ;;
  let record :=
    mkHousingYear (startAge g + Z.of_nat i) currentValue yearlyCosts total in
  Ok (mkHouseLoop
        (mkHouse
           (mkGenericHousing g
              (monthlyInsurance super * (1 + inflation g))
              (monthlyHOA super * (1 + inflation g))
              (housingData super ++ [record]))
           (mortgage this) (downPayment this) (mortgageRate this)
           (mortgageTermYears this)
           (propertyTaxAssessment this * (1 + inflation g))
           (homeAppreciationRate this) (oneTimeImprovements this)
           (annualMaintenanceCost this * (1 + inflation g)))
        currentValue remaining).

(** [n] iterations remain, the next index is [i]. *)
Fixpoint House_loop (monthlyRate : Q) (monthlyMortgagePayment : number)
    (n i : nat) (s : HouseLoop) : result HouseLoop :=
  match n with
  | O => Ok s
  | S n' =>
      s' <- House_year monthlyRate monthlyMortgagePayment i s ;;
      House_loop monthlyRate monthlyMortgagePayment n' (S i) s'
  end.

(** [House.calculateData], with the final loop variables. *)
Definition House_run (this : House) : result HouseLoop :=
  House_loop (monthlyRate this) (monthlyMortgagePayment this)
    (years (generalInformation (House_super this))) 0
    (mkHouseLoop this (downPayment this + mortgage this) (Num (mortgage this))).

(** [House.calculateData]: the object after the call. *)
Definition House_calculateData (this : House) : result House :=
  s <- House_run this ;; Ok (this_ s).

(** A record, an object and the loop variables of [Housing] read here:
    their numbers are finite. *)
Definition ofYear (y : Housing.HousingYear) : HousingYear :=
  mkHousingYear (Housing.age y) (Housing.value y)
    (Num (Housing.yearlyCosts y)) (Num (Housing.totalCosts y)).

Definition ofHouse (h : Housing.House) : House :=
  mkHouse
    (mkGenericHousing
       (Housing.generalInformation (Housing.House_super h))
       (Housing.monthlyInsurance (Housing.House_super h))
       (Housing.monthlyHOA (Housing.House_super h))
       (map ofYear (Housing.housingData (Housing.House_super h))))
    (Housing.mortgage h) (Housing.downPayment h) (Housing.mortgageRate h)
    (Housing.mortgageTermYears h) (Housing.propertyTaxAssessment h)
    (Housing.homeAppreciationRate h) (Housing.oneTimeImprovements h)
    (Housing.annualMaintenanceCost h).

Definition ofLoop (s : Housing.HouseLoop) : HouseLoop :=
  mkHouseLoop (ofHouse (Housing.this_ s)) (Housing.currentValue s)
    (Num (Housing.remaining s)).

End NumericHousing.

(** ** Living expenses *)

Module Living.

Record ExpensesYear : Type := mkExpensesYear {
  age : Z;
  yearlySpending : Q;
  totalCosts : Q
}.

Record LivingExpenses : Type := mkLivingExpenses {
  generalInformation : GeneralInformation;
  expensesData : list ExpensesYear
}.

Definition new (g : GeneralInformation) : LivingExpenses := mkLivingExpenses g [].

(** Body of the year loop; the loop variables are the object,
    [yearlySpending] and [yearlyRetirementSpending]. *)
Definition year (i : nat) (s : LivingExpenses * Q * Q) : result (LivingExpenses * Q * Q) :=
  let '(this, yearlySpending, yearlyRetirementSpending) := s in
  let g := generalInformation this in
  let currentYearSpending :=
    if preRetirement g i then yearlySpending else yearlyRetirementSpending in
  total <-
    (if (i =? 0)%nat then Ok currentYearSpending
     else prev <- index (expensesData this) (i - 1) ;;
          Ok (totalCosts prev + currentYearSpending)) ;;
  Ok (mkLivingExpenses g
        (expensesData this ++
           [mkExpensesYear (startAge g + Z.of_nat i) currentYearSpending total]),
      yearlySpending * (1 + inflation g),
      yearlyRetirementSpending * (1 + inflation g)).

Fixpoint loop (n i : nat) (s : LivingExpenses * Q * Q) : result (LivingExpenses * Q * Q) :=
  match n with
  | O => Ok s
  | S n' => s' <- year i s ;; loop n' (S i) s'
  end.

Definition calculateData (this : LivingExpenses) : result LivingExpenses :=
  let g := generalInformation this in
  s <- loop (years g) 0
         (this, monthlySpending g * 12, retirementMonthlySpending g * 12) ;;
  Ok (fst (fst s)).

End Living.

(** ** Investments *)

Module Investment.

Record InvestmentYear : Type := mkInvestmentYear {
  age : Z;
  value : list Q
}.

(** Fields of the base class [GenericInvestment]; [NonTaxableInvestment]
    adds none. *)
Record GenericInvestment : Type := mkGenericInvestment {
  generalInformation : GeneralInformation;
  amount : Q;
  annualRate : Q;
  monthlyContribution : Q;
  investmentData : list InvestmentYear
}.

Definition NonTaxableInvestment : Type := GenericInvestment.

(** [class TaxableInvestment extends GenericInvestment]. *)
Record TaxableInvestment : Type := mkTaxableInvestment {
  super : GenericInvestment;
  taxRate : Q
}.

Definition new_NonTaxableInvestment (g : GeneralInformation)
    (amount annualRate monthlyContribution : Q) : NonTaxableInvestment :=
  mkGenericInvestment g amount annualRate monthlyContribution [].

Definition new_TaxableInvestment (g : GeneralInformation)
    (amount annualRate monthlyContribution taxRate : Q) : TaxableInvestment :=
  mkTaxableInvestment
    (mkGenericInvestment g amount annualRate monthlyContribution []) taxRate.

(** How a call of [calculateData] ends.  A thrown [TypeError] leaves the
    records pushed before it in the object.  [Stopped NotFinite]: a balance
    that is not a number was computed (an [undefined] operand); the model
    stops there. *)
Inductive completion : Type :=
| Completed
| Stopped (e : error).

(** [i == 0 ? this.amount : this.investmentData[i - 1].value[j]], as an
    operand of [+]: an [undefined] entry makes the sum [NaN]. *)
Definition previousValue (this : GenericInvestment) (i j : nat) : result Q :=
  if (i =? 0)%nat then Ok (amount this)
  else
    prev <- index (investmentData this) (i - 1) ;;
    match nth_error (value prev) j with
    | Some v => Ok v
    | None => Err NotFinite
    end.

(** [housingCosts[j].housingData[i].yearlyCosts +
     livingExpenses.expensesData[i].yearlySpending + healthcareCost -
     socialSecurity * 12 - otherRetirementIncome * 12]; the taxable variant
    has no healthcare term. *)
Definition uncoveredLivingCosts (g : GeneralInformation)
    (housing : Housing.GenericHousing) (livingExpenses : Living.LivingExpenses)
    (healthcareCost : option Q) (i : nat) : result Q :=
  h <- index (Housing.housingData housing) i ;;
  l <- index (Living.expensesData livingExpenses) i ;;
  Ok (match healthcareCost with
      | Some c =>
          Housing.yearlyCosts h + Living.yearlySpending l + c
          - socialSecurity g * 12 - otherRetirementIncome g * 12
      | None =>
          Housing.yearlyCosts h + Living.yearlySpending l
          - socialSecurity g * 12 - otherRetirementIncome g * 12
      end).

(** [uncoveredLivingCosts > 0 ? -uncoveredLivingCosts * (1 + this.taxRate) : 0]. *)
Definition Taxable_withdrawals (taxRate uncoveredLivingCosts : Q) : Q :=
  if ltb 0 uncoveredLivingCosts
  then - uncoveredLivingCosts * (1 + taxRate)
  else 0.

(** [uncoveredLivingCosts > 0 ? -uncoveredLivingCosts : 0]. *)
Definition NonTaxable_withdrawals (uncoveredLivingCosts : Q) : Q :=
  if ltb 0 uncoveredLivingCosts then - uncoveredLivingCosts else 0.

(** Body of the scenario loop: [currentValue] for year [i], scenario [j].
    [withdrawals] is the variant's rule and [healthcareCost] its healthcare
    term ([None] for the taxable variant, which has none). *)
Definition currentValue (withdrawals : Q -> Q) (healthcareCost : option Q)
    (this : GenericInvestment) (housing : Housing.GenericHousing)
    (livingExpenses : Living.LivingExpenses) (i j : nat) : result Q :=
  let g := generalInformation this in
  if preRetirement g i
  then
    prev <- previousValue this i j ;;
    Ok ((prev + monthlyContribution this * 12) * (1 + annualRate this))
  else
    uncovered <- uncoveredLivingCosts g housing livingExpenses healthcareCost i ;;
    prev <- previousValue this i j ;;
    Ok ((prev + withdrawals uncovered) * (1 + annualRate this)).

(** [for (let j = 0; j < housingCosts.length; j++)]: the scenarios still to
    visit are [housingCosts], the next index is [j]; returns the values
    pushed. *)
Fixpoint scenarioLoop (withdrawals : Q -> Q) (healthcareCost : option Q)
    (this : GenericInvestment) (housingCosts : list Housing.GenericHousing)
    (livingExpenses : Living.LivingExpenses) (i j : nat) : result (list Q) :=
  match housingCosts with
  | [] => Ok []
  | housing :: rest =>
      v <- currentValue withdrawals healthcareCost this housing livingExpenses i j ;;
      vs <- scenarioLoop withdrawals healthcareCost this rest livingExpenses i (S j) ;;
      Ok (v :: vs)
  end.

Definition push (this : GenericInvestment) (y : InvestmentYear) : GenericInvestment :=
  mkGenericInvestment (generalInformation this) (amount this) (annualRate this)
    (monthlyContribution this) (investmentData this ++ [y]).

(** [for (let i = 0; i < years; i++)]: [n] iterations remain, the next
    index is [i].  [healthcareCost i] is the healthcare term of year [i]. *)
Fixpoint yearLoop (withdrawals : Q -> Q) (healthcareCost : nat -> result (option Q))
    (housingCosts : list Housing.GenericHousing)
    (livingExpenses : Living.LivingExpenses) (n i : nat)
    (this : GenericInvestment) : GenericInvestment * completion :=
  match n with
  | O => (this, Completed)
  | S n' =>
      match
        (c <- healthcareCost i ;;
         scenarioLoop withdrawals c this housingCosts livingExpenses i 0)
      with
      | Ok values =>
          yearLoop withdrawals healthcareCost housingCosts livingExpenses n' (S i)
            (push this
               (mkInvestmentYear
                  (startAge (generalInformation this) + Z.of_nat i) values))
      | Err e => (this, Stopped e)
      end
  end.

(** [TaxableInvestment.calculateData(housingCosts, livingExpenses)]. *)
Definition Taxable_calculateData (this : TaxableInvestment)
    (housingCosts : list Housing.GenericHousing)
    (livingExpenses : Living.LivingExpenses) : TaxableInvestment * completion :=
  let '(s, c) :=
    yearLoop (Taxable_withdrawals (taxRate this)) (fun _ => Ok None)
      housingCosts livingExpenses
      (years (generalInformation (super this))) 0 (super this) in
  (mkTaxableInvestment s (taxRate this), c).

(** [const healthcareCost = healthcare ? healthcare.healthcareData[i].annualCost : 0]. *)
Definition healthcareCostOf (healthcare : option Healthcare.HealthcareCosts)
    (i : nat) : result (option Q) :=
  match healthcare with
  | Some hc =>
      y <- index (Healthcare.healthcareData hc) i ;;
      Ok (Some (Healthcare.annualCost y))
  | None => Ok (Some 0)
  end.

(** [NonTaxableInvestment.calculateData(housingCosts, livingExpenses, healthcare = null)]. *)
Definition NonTaxable_calculateData (this : NonTaxableInvestment)
    (housingCosts : list Housing.GenericHousing)
    (livingExpenses : Living.LivingExpenses)
    (healthcare : option Healthcare.HealthcareCosts)
    : NonTaxableInvestment * completion :=
  yearLoop NonTaxable_withdrawals (healthcareCostOf healthcare)
    housingCosts livingExpenses (years (generalInformation this)) 0 this.

End Investment.

(** ** Aggregation (utilities module) *)

Module Utilities.

Record RentingInformation : Type := mkRentingInformation {
  monthlyRent : Q;
  rentIncrease : Q;
  monthlyRentInsurance : Q
}.

Record BuyingInformation : Type := mkBuyingInformation {
  mortgage : Q;
  mortgageDownPayment : Q;
  homeValue : Q;
  mortgageRate : Q;
  oneTimeRepairs : Q;
  annualTaxAssessment : Q;
  monthlyHomeInsurance : Q;
  annualHomeMaintenance : Q;
  annualHomeValueAppreciation : Q
}.

Record InvestingInformation : Type := mkInvestingInformation {
  totalCurrentInvestments : Q;
  includeDownPayment : bool;
  monthlyInvestmentContribution : Q;
  annualInvestmentAppreciation : Q
}.

Record FormInformation : Type := mkFormInformation {
  generalInformation : GeneralInformation;
  rentingInformation : RentingInformation;
  buyingInformation : BuyingInformation;
  investingInformation : InvestingInformation
}.

(** A row [[age, values]] of a comparison table. *)
Definition Row : Type := (Z * list Q)%type.

(** [for (let k = i; k < i + n; k++) { rows.push(body(k)) }]: the rows
    pushed, or the first exception. *)
Fixpoint pushLoop {A : Type} (n i : nat) (body : nat -> result A)
    : result (list A) :=
  match n with
  | O => Ok []
  | S n' =>
      a <- body i ;;
      rest <- pushLoop n' (S i) body ;;
      Ok (a :: rest)
  end.

(** [calculateTotalCosts(housing, livingExpenses)]. *)
Definition calculateTotalCosts (housing : list Housing.GenericHousing)
    (livingExpenses : Living.LivingExpenses) : result (list Row) :=
  first <- index housing 0 ;;
  let years := length (Housing.housingData first) in
  pushLoop years 0 (fun i =>
    values <- pushLoop (length housing) 0 (fun j =>
      h <- index housing j ;;
      hy <- index (Housing.housingData h) i ;;
      ly <- index (Living.expensesData livingExpenses) i ;;
      Ok (Housing.totalCosts hy + Living.totalCosts ly)) ;;
    fy <- index (Housing.housingData first) i ;;
    Ok (Housing.age fy, values)).

(** [let sum = 0; for (x ...) sum += investments[x].investmentData[i].value[j]]:
    a missing record throws, a missing balance makes the sum [NaN]. *)
Fixpoint sumLoop (investments : list Investment.GenericInvestment)
    (i j : nat) (sum : Q) : result Q :=
  match investments with
  | [] => Ok sum
  | investment :: rest =>
      y <- index (Investment.investmentData investment) i ;;
      match nth_error (Investment.value y) j with
      | Some v => sumLoop rest i j (sum + v)
      | None => Err NotFinite
      end
  end.

(** [calculateCumulativeAssets(investments, housing)]. *)
Definition calculateCumulativeAssets
    (investments : list Investment.GenericInvestment)
    (housing : list Housing.GenericHousing) : result (list Row) :=
  first <- index investments 0 ;;
  let years := length (Investment.investmentData first) in
  pushLoop years 0 (fun i =>
    fy <- index (Investment.investmentData first) i ;;
    values <- pushLoop (length (Investment.value fy)) 0 (fun j =>
      sum <- sumLoop investments i j 0 ;;
      h <- index housing j ;;
      hy <- index (Housing.housingData h) i ;;
      Ok (sum + Housing.value hy)) ;;
    Ok (Investment.age fy, values)).

(** [calculateNetPositions(cumulativeAssets, housing, livingExpenses)]. *)
Definition calculateNetPositions (cumulativeAssets : list Row)
    (housing : list Housing.GenericHousing)
    (livingExpenses : Living.LivingExpenses) : result (list Row) :=
  pushLoop (length cumulativeAssets) 0 (fun i =>
    row <- index cumulativeAssets i ;;
    values <- pushLoop (length (snd row)) 0 (fun j =>
      asset <- index (snd row) j ;;
      h <- index housing j ;;
      hy <- index (Housing.housingData h) i ;;
      ly <- index (Living.expensesData livingExpenses) i ;;
      Ok (asset - Housing.totalCosts hy - Living.totalCosts ly)) ;;
    Ok (fst row, values)).

End Utilities.

(** ** The calculation (main module) *)

Module Main.

(** What [calc] stores in [window.calculationResults]. *)
Record CalculationResults : Type := mkCalculationResults {
  totalCosts : list Utilities.Row;
  assetValues : list Utilities.Row;
  netValues : list Utilities.Row;
  investments : Investment.NonTaxableInvestment;
  rental : Housing.Apartment;
  house15 : Housing.House;
  house30 : Housing.House;
  livingExpenses : Living.LivingExpenses
}.

(** [calc()] on the form that [readForm()] returns; the tables and graphs
    it draws are not part of the model.  An exception of a step ends the
    calculation. *)
Definition calc (form : Utilities.FormInformation) : result CalculationResults :=
  let g := Utilities.generalInformation form in
  let renting := Utilities.rentingInformation form in
  let buying := Utilities.buyingInformation form in
  let investing := Utilities.investingInformation form in
  rental <-
    Housing.Apartment_calculateData
      (Housing.new_Apartment g (Utilities.monthlyRentInsurance renting) 0
         (Utilities.monthlyRent renting) (Utilities.rentIncrease renting)) ;;
  let initialInvestment :=
    if Utilities.includeDownPayment investing
    then Utilities.totalCurrentInvestments investing
         + Utilities.mortgageDownPayment buying
    else Utilities.totalCurrentInvestments investing in
  house15 <-
    Housing.House_calculateData
      (Housing.new_House g (Utilities.monthlyHomeInsurance buying) 0
         (Utilities.mortgage buying) (Utilities.mortgageDownPayment buying)
         (Utilities.mortgageRate buying) 15
         (Utilities.annualTaxAssessment buying)
         (Utilities.annualHomeValueAppreciation buying)
         (Utilities.oneTimeRepairs buying)
         (Utilities.annualHomeMaintenance buying)) ;;
  house30 <-
    Housing.House_calculateData
      (Housing.new_House g (Utilities.monthlyHomeInsurance buying) 0
         (Utilities.mortgage buying) (Utilities.mortgageDownPayment buying)
         (Utilities.mortgageRate buying) 30
         (Utilities.annualTaxAssessment buying)
         (Utilities.annualHomeValueAppreciation buying)
         (Utilities.oneTimeRepairs buying)
         (Utilities.annualHomeMaintenance buying)) ;;
  livingExpenses <- Living.calculateData (Living.new g) ;;
  let housing :=
    [Housing.Apartment_super rental; Housing.House_super house15;
     Housing.House_super house30] in
  match
    Investment.NonTaxable_calculateData
      (Investment.new_NonTaxableInvestment g initialInvestment
         (Utilities.annualInvestmentAppreciation investing)
         (Utilities.monthlyInvestmentContribution investing))
      housing livingExpenses None
  with
  | (investments, Investment.Completed) =>
      totalCosts <- Utilities.calculateTotalCosts housing livingExpenses ;;
      assetValues <- Utilities.calculateCumulativeAssets [investments] housing ;;
      netValues <-
        Utilities.calculateNetPositions assetValues housing livingExpenses ;;
      Ok (mkCalculationResults totalCosts assetValues netValues investments
            rental house15 house30 livingExpenses)
  | (_, Investment.Stopped e) => Err e
  end.

End Main.

(** ** Saved scenarios (scenario module) *)

Module Scenarios.

Section ScenarioManager.

(** The form values kept with a scenario; the module never looks inside. *)
Context {FormData : Type}.

(** [String.prototype.trim]. *)
Variable trim : string -> string.

(** A saved scenario.  Dates are their time values: the text written by
    [JSON.stringify] and [new Date(text)] keep them. *)
Record Scenario : Type := mkScenario {
  id : string;
  name : string;
  notes : string;
  formData : FormData;
  createdAt : Z;
  updatedAt : Z
}.

(** The entry of [localStorage] under [SCENARIOS_STORAGE_KEY]: [None] when
    the key is absent, else the array whose JSON text the module stored. *)
Definition Storage : Type := option (list Scenario).

(** What [new Date()] returns at the first and the second call of an
    operation, and what [generateId()] returns. *)
Record Environment : Type := mkEnvironment {
  firstDate : Z;
  secondDate : Z;
  generatedId : string
}.

Inductive exception : Type :=
| Error (message : string).

(** [getAllScenarios()]. *)
Definition getAllScenarios (storage : Storage) : list Scenario :=
  match storage with
  | None => []
  | Some scenarios => scenarios
  end.

(** [scenarios.findIndex(s => s.id === existingId)], [None] for [-1]. *)
Fixpoint findIndex (existingId : string) (scenarios : list Scenario) : option nat :=
  match scenarios with
  | [] => None
  | s :: rest =>
      if (id s =? existingId)%string then Some O
      else match findIndex existingId rest with
           | Some index => Some (S index)
           | None => None
           end
  end.

(** The array after the four assignments to [scenarios[index]]. *)
Fixpoint assign (scenarios : list Scenario) (index : nat)
    (name notes : string) (formData : FormData) (updatedAt : Z) : list Scenario :=
  match scenarios, index with
  | [], _ => []
  | s :: rest, O =>
      mkScenario (id s) name notes formData (createdAt s) updatedAt :: rest
  | s :: rest, S index' =>
      s :: assign rest index' name notes formData updatedAt
  end.

(** [if (existingId)]: neither [null] nor the empty string. *)
Definition given (existingId : option string) : option string :=
  match existingId with
  | Some i => if (i =? "")%string then None else Some i
  | None => None
  end.

(** [saveScenario(name, notes, formData, existingId = null)]: the scenario
    returned or the exception thrown, and the storage afterwards. *)
Definition saveScenario (storage : Storage) (env : Environment)
    (name notes : string) (formData : FormData) (existingId : option string)
    : (exception + Scenario) * Storage :=
  if ((name =? "") || (trim name =? ""))%string
  then (inl (Error "Scenario name is required"), storage)
  else
    let scenarios := getAllScenarios storage in
    let create :=
      let scenario :=
        mkScenario (generatedId env) name notes formData
          (firstDate env) (secondDate env) in
      (inr scenario, Some (scenarios ++ [scenario])) in
    match given existingId with
    | Some existing =>
        match findIndex existing scenarios with
        | Some index =>
            let scenarios :=
              assign scenarios index name notes formData (firstDate env) in
            match nth_error scenarios index with
            | Some updated => (inr updated, Some scenarios)
            | None => create
            end
        | None => create
        end
    | None => create
    end.

(** [getScenarioById(id)], [None] for [null]. *)
Definition getScenarioById (storage : Storage) (id0 : string) : option Scenario :=
  find (fun s => (id s =? id0)%string) (getAllScenarios storage).

(** [deleteScenario(id)]: the value returned and the storage afterwards. *)
Definition deleteScenario (storage : Storage) (id0 : string) : bool * Storage :=
  let scenarios := getAllScenarios storage in
  let filteredScenarios :=
    filter (fun s => negb (id s =? id0)%string) scenarios in
  if (length filteredScenarios =? length scenarios)%nat
  then (false, storage)
  else (true, Some filteredScenarios).

(** [deleteAllScenarios()]. *)
Definition deleteAllScenarios (storage : Storage) : Storage := None.

(** The callback of [importedScenarios.forEach]. *)
Definition importOne (scenarios : list Scenario) (imported : Scenario)
    : list Scenario :=
  if existsb (fun s => (id s =? id imported)%string) scenarios
  then scenarios
  else scenarios ++ [imported].

(** [importScenarios(jsonString, merge = true)] on a text that is the JSON
    of an array of scenarios, given as that array: the number returned and
    the storage afterwards. *)
Definition importScenarios (storage : Storage) (importedScenarios : list Scenario)
    (merge : bool) : nat * Storage :=
  let scenarios := if merge then getAllScenarios storage else [] in
  (length importedScenarios,
   Some (fold_left importOne importedScenarios scenarios)).

End ScenarioManager.

Arguments Scenario : clear implicits.
Arguments Storage : clear implicits.

End Scenarios.

(** ** Auxiliary definitions *)

(** Sum of a list of amounts. *)
Definition sumQ (l : list Q) : Q := fold_right Qplus 0 l.

(** A filer whose status is not ['joint']. *)
Definition singleFiler : Tax.TaxConfig := Tax.mkTaxConfig "single" 0 false 0 0 0.

(** The profile of the specification's end-to-end scenario: ages 40, 65
    and 90, inflation 3%. *)
Definition sampleProfile : GeneralInformation :=
  mkGeneralInformation 40 65 90 0.03 2000 0 4000 5000.

(** A profile that starts at 60 with no inflation, and a healthcare
    configuration that includes long-term care from 60 on. *)
Definition profileFrom60 : GeneralInformation :=
  mkGeneralInformation 60 65 90 0 2000 0 4000 5000.

Definition longTermCareConfig : Healthcare.HealthcareConfig :=
  Healthcare.mkHealthcareConfig 800 5000 3000 174.70 55 200 2000 true 250 60.

(** Whether year [i] of [House.calculateData] still amortizes:
    [i < this.mortgageTermYears && remainingPrincipal > 0]. *)
Definition amortizing (i : nat) (s : Housing.HouseLoop) : bool :=
  (i <? Housing.mortgageTermYears (Housing.this_ s))%nat
  && ltb 0 (Housing.remaining s).

(** The fields of a house that [calculateData] never assigns. *)
Definition sameLoan (h h' : Housing.House) : Prop :=
  Housing.generalInformation (Housing.House_super h')
  = Housing.generalInformation (Housing.House_super h) /\
  Housing.mortgage h' = Housing.mortgage h /\
  Housing.downPayment h' = Housing.downPayment h /\
  Housing.mortgageRate h' = Housing.mortgageRate h /\
  Housing.mortgageTermYears h' = Housing.mortgageTermYears h /\
  Housing.homeAppreciationRate h' = Housing.homeAppreciationRate h /\
  Housing.oneTimeImprovements h' = Housing.oneTimeImprovements h.

(** The series of a house object and its equity column. *)
Definition House_data (h : Housing.House) : list Housing.HousingYear :=
  Housing.housingData (Housing.House_super h).

Definition Apartment_data (a : Housing.Apartment) : list Housing.HousingYear :=
  Housing.housingData (Housing.Apartment_super a).

(** A two-year horizon without inflation. *)
Definition twoYears : GeneralInformation :=
  mkGeneralInformation 40 41 42 0 0 0 0 0.

(** A house bought for nothing (no mortgage, no down payment) that
    appreciates by 3% a year. *)
Definition worthlessHouse : Housing.House :=
  Housing.new_House twoYears 0 0 0 0 0.06 30 0 0.03 0 0.

(** The 30-year mortgage of the specification's end-to-end scenario, paid
    in full at purchase: no mortgage, 400000 down. *)
Definition paidHouse : Housing.House :=
  Housing.new_House sampleProfile 100 0 0 400000 0.06 30 4000 0.03 5000 2000.

(** A 300000 mortgage over 30 years at a rate of zero. *)
Definition zeroRateHouse : Housing.House :=
  Housing.new_House sampleProfile 100 0 300000 0 0 30 4000 0.03 5000 2000.

(** State of an amortization after [k] monthly payments on a loan of
    principal [P] at monthly rate [r] over [n] months: the remaining
    principal is [P * ((1+r)^n - (1+r)^k) / ((1+r)^n - 1)] (stated without
    the division), and the [k] principal portions paid so far add up to what
    is no longer owed. *)
Definition amortized (P r : Q) (n k : nat) (rem : Q) (paid : list Q) : Prop :=
  rem * (Math_pow (1 + r) n - 1) == P * (Math_pow (1 + r) n - Math_pow (1 + r) k) /\
  sumQ paid == P - rem /\
  length paid = k.

(** A 300000 mortgage over 30 years at 6%, in the 50-year horizon of the
    sample profile. *)
Definition loan300k : Housing.House :=
  Housing.new_House sampleProfile 100 0 300000 0 0.06 30 4000 0.03 5000 2000.

(** A house without a mortgage in the two-year horizon. *)
Definition smallHouse : Housing.House :=
  Housing.new_House twoYears 100 0 0 100000 0.06 30 4000 0.03 5000 2000.

(** [this] with further records pushed onto its series. *)
Definition extend (this : Investment.GenericInvestment)
    (records : list Investment.InvestmentYear) : Investment.GenericInvestment :=
  Investment.mkGenericInvestment
    (Investment.generalInformation this) (Investment.amount this)
    (Investment.annualRate this) (Investment.monthlyContribution this)
    (Investment.investmentData this ++ records).

(** The balance after year [i] of the accumulation phase:
    [(prevBalance + monthlyContribution * 12) * (1 + annualRate)], starting
    from [amount]. *)
Fixpoint accumulation (this : Investment.GenericInvestment) (i : nat) : Q :=
  (match i with
   | O => Investment.amount this
   | S i' => accumulation this i'
   end + Investment.monthlyContribution this * 12)
  * (1 + Investment.annualRate this).

(** The shortfall of a drawdown year in the words of the specification:
    housing, living and healthcare costs minus the annual social-security
    and other income. *)
Definition shortfall (g : GeneralInformation) (housingCost livingCost
    healthcareCost : Q) : Q :=
  housingCost + livingCost + healthcareCost
  - socialSecurity g * 12 - otherRetirementIncome g * 12.

(** The healthcare cost that enters the shortfall of year [i]: the annual
    cost of the healthcare series, or 0 without one. *)
Definition healthcareTerm (healthcare : option Healthcare.HealthcareCosts)
    (i : nat) : option Q :=
  match healthcare with
  | Some hc => option_map Healthcare.annualCost
                 (nth_error (Healthcare.healthcareData hc) i)
  | None => Some 0
  end.

(** Two lists of housing scenarios, scenario by scenario with the same
    yearly housing costs in every year before year [k] (a year without a
    record counts as a cost of its own). *)
Definition sameCostsBefore (k : nat)
    (hs1 hs2 : list Housing.GenericHousing) : Prop :=
  Forall2
    (fun h1 h2 =>
       forall i, (i < k)%nat ->
         option_map Housing.yearlyCosts (nth_error (Housing.housingData h1) i)
         = option_map Housing.yearlyCosts (nth_error (Housing.housingData h2) i))
    hs1 hs2.

(** Rent and a house as two scenarios with explicit two-year series, the
    living expenses of those years, and the accounts drawn on. *)
Definition rentScenario : Housing.GenericHousing :=
  Housing.mkGenericHousing twoYears 0 0
    [Housing.mkHousingYear 40 0 12000 12000;
     Housing.mkHousingYear 41 0 12360 24360].

Definition houseScenario : Housing.GenericHousing :=
  Housing.mkGenericHousing twoYears 0 0
    [Housing.mkHousingYear 40 412000 30000 30000;
     Housing.mkHousingYear 41 424360 26000 56000].

Definition dearHouseScenario : Housing.GenericHousing :=
  Housing.mkGenericHousing twoYears 0 0
    [Housing.mkHousingYear 40 412000 30000 30000;
     Housing.mkHousingYear 41 424360 36000 66000].

Definition twoYearsLiving : Living.LivingExpenses :=
  Living.mkLivingExpenses twoYears
    [Living.mkExpensesYear 40 48000 48000;
     Living.mkExpensesYear 41 60000 108000].

Definition rothAccount : Investment.NonTaxableInvestment :=
  Investment.new_NonTaxableInvestment twoYears 50000 0.07 500.

Definition brokerageAccount : Investment.TaxableInvestment :=
  Investment.new_TaxableInvestment twoYears 50000 0.07 500 0.20.

(** The series of a house object in the model that keeps the numbers that
    are not finite. *)
Definition Numeric_data (h : NumericHousing.House)
    : list NumericHousing.HousingYear :=
  NumericHousing.housingData (NumericHousing.House_super h).

(** A 300000 mortgage over 30 years at a rate of zero in the two-year
    horizon, bought with 100000 down: its monthly payment is [NaN]. *)
Definition zeroRateLoan : NumericHousing.House :=
  NumericHousing.new_House twoYears 100 0 300000 100000 0 30 4000 0.03 5000 2000.

(** The variables of the month loop of [Housing] read in the model that
    keeps the numbers that are not finite. *)
Definition ofAmortization (a : Housing.Amortization)
    : NumericHousing.Amortization :=
  NumericHousing.mkAmortization
    (Number.Num (Housing.remainingPrincipal a))
    (Number.Num (Housing.yearlyInterestPaid a))
    (Number.Num (Housing.yearlyPrincipalPaid a)).

(** A filer whose status is ['joint']. *)
Definition jointFiler : Tax.TaxConfig := Tax.mkTaxConfig "joint" 0.05 false 0 0 0.

(** The filing-status thresholds of [calculateTaxableSocialSecurity]. *)
Definition lowerThreshold (config : Tax.TaxConfig) : Q :=
  if String.eqb (Tax.filingStatus config) "joint" then 32000 else 25000.

(** What [House.calculateData] adds to the yearly costs for the mortgage in
    a year that still amortizes. *)
Definition paymentPart (flag : bool) (payment : Q) : Q :=
  if flag then payment * 12 else 0.

(** A series whose cumulative column is kept the way the year loops keep
    it: the first total is the first yearly amount, every later total is the
    total before plus the yearly amount. *)
Definition runningTotals (data : list Housing.HousingYear) : Prop :=
  forall i record,
    nth_error data i = Some record ->
    Housing.cumulate data i (Housing.yearlyCosts record)
    = Ok (Housing.totalCosts record).

(** The monthly payment as a number, 0 standing for a payment that is not
    finite. *)
Definition paymentOf (h : Housing.House) : Q :=
  match Housing.monthlyMortgagePayment h with
  | Some payment => payment
  | None => 0
  end.

(** State of the loan at the start of year [i] for a positive principal
    and rate: amortized over the months of the years so far (at most the
    term), every principal portion paid so far being positive. *)
Definition loanState (P r : Q) (term i : nat) (rem : Q) (paid : list Q) : Prop :=
  amortized P r (12 * term) (12 * Nat.min i term) rem paid /\
  Forall (fun portion => 0 < portion) paid.

(** State of a house without a mortgage: nothing is owed, nothing is paid. *)
Definition noLoan (i : nat) (rem : Q) (paid : list Q) : Prop :=
  rem <= 0 /\ paid = [].

(** A 15-year mortgage of 320000 at 6% in the two-year horizon: the term
    exceeds the horizon. *)
Definition shortHorizonHouse : Housing.House :=
  Housing.new_House twoYears 100 0 320000 80000 0.06 15 4000 0.03 5000 2000.

(** A three-year horizon with 3% inflation, and a one-year mortgage in it. *)
Definition threeYears : GeneralInformation :=
  mkGeneralInformation 40 41 43 0.03 2000 0 4000 5000.

Definition oneYearLoan : Housing.House :=
  Housing.new_House threeYears 100 50 12000 3000 0.06 1 4000 0.03 5000 2000.


(** A year of living expenses read as a housing year without equity, to
    speak of its running total. *)
Definition asHousingYear (y : Living.ExpensesYear) : Housing.HousingYear :=
  Housing.mkHousingYear (Living.age y) 0 (Living.yearlySpending y)
    (Living.totalCosts y).

(** An apartment and living expenses in the three-year horizon. *)
Definition flat : Housing.Apartment :=
  Housing.new_Apartment threeYears 20 0 1500 0.05.

(** The index of the first drawdown year: [retirementAge - startAge]. *)
Definition retirementYear (g : GeneralInformation) : nat :=
  Z.to_nat (retirementAge g - startAge g).

(** The records of an account hold one balance per scenario. *)
Definition fullWidth (this : Investment.GenericInvestment) (width : nat) : Prop :=
  forall record, In record (Investment.investmentData this) ->
                 length (Investment.value record) = width.

(** [b + b^2 + ... + b^n]. *)
Definition geometricSum (b : Q) (n : nat) : Q :=
  sumQ (map (fun k => Math_pow b (S k)) (seq 0 n)).

(** The objects that [calc] constructs from a form: the apartment, the
    house with a mortgage of [term] years, and the account. *)
Definition formApartment (form : Utilities.FormInformation) : Housing.Apartment :=
  let renting := Utilities.rentingInformation form in
  Housing.new_Apartment (Utilities.generalInformation form)
    (Utilities.monthlyRentInsurance renting) 0
    (Utilities.monthlyRent renting) (Utilities.rentIncrease renting).

Definition formHouse (form : Utilities.FormInformation) (term : nat)
    : Housing.House :=
  let buying := Utilities.buyingInformation form in
  Housing.new_House (Utilities.generalInformation form)
    (Utilities.monthlyHomeInsurance buying) 0
    (Utilities.mortgage buying) (Utilities.mortgageDownPayment buying)
    (Utilities.mortgageRate buying) term
    (Utilities.annualTaxAssessment buying)
    (Utilities.annualHomeValueAppreciation buying)
    (Utilities.oneTimeRepairs buying)
    (Utilities.annualHomeMaintenance buying).

Definition formAccount (form : Utilities.FormInformation)
    : Investment.NonTaxableInvestment :=
  let investing := Utilities.investingInformation form in
  Investment.new_NonTaxableInvestment (Utilities.generalInformation form)
    (if Utilities.includeDownPayment investing
     then Utilities.totalCurrentInvestments investing
          + Utilities.mortgageDownPayment (Utilities.buyingInformation form)
     else Utilities.totalCurrentInvestments investing)
    (Utilities.annualInvestmentAppreciation investing)
    (Utilities.monthlyInvestmentContribution investing).

(** The three scenarios of [calc], in the order of its arrays. *)
Definition scenarios (res : Main.CalculationResults)
    : list Housing.GenericHousing :=
  [Housing.Apartment_super (Main.rental res);
   Housing.House_super (Main.house15 res);
   Housing.House_super (Main.house30 res)].

(** A form without a mortgage in the three-year horizon. *)
Definition cashBuyerForm : Utilities.FormInformation :=
  Utilities.mkFormInformation threeYears
    (Utilities.mkRentingInformation 1500 0.05 20)
    (Utilities.mkBuyingInformation 0 15000 15000 0.06 5000 4000 100 2000 0.03)
    (Utilities.mkInvestingInformation 50000 true 500 0.07).

(** The scenario that [saveScenario] is asked to update: the first stored
    scenario with the given id, if an id is given. *)
Definition toUpdate {FormData : Type} (storage : Scenarios.Storage FormData)
    (existingId : option string) : option (Scenarios.Scenario FormData) :=
  match Scenarios.given existingId with
  | Some existing => Scenarios.getScenarioById storage existing
  | None => None
  end.

(** Two stored scenarios whose form data is a label, and the readings of a
    later save. *)
Definition twoSaved : Scenarios.Storage string :=
  Some [Scenarios.mkScenario "scenario_1_a" "Rent" "" "rent form"%string 100 100;
        Scenarios.mkScenario "scenario_2_b" "Buy" "15 years" "buy form"%string
          200 250].

Definition laterSave : Scenarios.Environment :=
  Scenarios.mkEnvironment 300 301 "scenario_3_c".

(** * Properties *)

(** ** Comparisons *)

Lemma leb_true (a b : Q) : leb a b = true <-> a <= b.
Proof. apply Qle_bool_iff. Qed.

Lemma leb_false (a b : Q) : leb a b = false <-> b < a.
Proof.
  unfold leb. split; intro H.
  - apply Qnot_le_lt. intro Hle. apply Qle_bool_iff in Hle. congruence.
  - destruct (Qle_bool a b) eqn:E; auto.
    apply Qle_bool_iff in E. apply Qlt_not_le in H. contradiction.
Qed.

Lemma ltb_true (a b : Q) : ltb a b = true <-> a < b.
Proof.
  unfold ltb. rewrite negb_true_iff. apply (leb_false b a).
Qed.

Lemma ltb_false (a b : Q) : ltb a b = false <-> b <= a.
Proof.
  unfold ltb. rewrite negb_false_iff. apply (leb_true b a).
Qed.

(** ** Tax module *)

Import Tax.

Lemma min_bound_le (T : Q) (b : bound) : min_bound T b <= T.
Proof.
  destruct b as [m|]; simpl; [apply Q.le_min_l | apply Qle_refl].
Qed.

Lemma marginalSchedule_exhausted (bs : list Bracket) :
  forall T prev, ascending prev bs -> T <= prev ->
  marginalSchedule T prev bs == 0.
Proof.
  induction bs as [|b rest IH]; intros T prev Hasc HT; simpl.
  - reflexivity.
  - assert (Hband : incomeInBand T prev (max b) == 0).
    { unfold incomeInBand. apply Q.max_l.
      pose proof (min_bound_le T (max b)). lra. }
    rewrite Hband. simpl in Hasc.
    destruct (max b) as [m|].
    + destruct Hasc as [Hm Hrest]. rewrite (IH T m Hrest); lra.
    + lra.
Qed.

Lemma bracketLoop_marginal (bs : list Bracket) :
  forall T tax prev, ascending prev bs ->
  bracketLoop T bs tax prev == tax + marginalSchedule T prev bs.
Proof.
  induction bs as [|b rest IH]; intros T tax prev Hasc.
  - simpl. lra.
  - cbn [bracketLoop]. destruct (leb T prev) eqn:E.
    + apply leb_true in E.
      rewrite (marginalSchedule_exhausted (b :: rest) T prev Hasc E). lra.
    + apply leb_false in E. cbn [marginalSchedule]. simpl in Hasc.
      unfold incomeInBand. destruct (max b) as [m|]; simpl min_bound.
      * destruct Hasc as [Hm Hrest].
        assert (Hband : Qmax 0 (Qmin T m - prev) == Qmin T m - prev).
        { apply Q.max_r. destruct (Q.min_spec T m) as [[_ Hmin]|[_ Hmin]];
            rewrite Hmin; lra. }
        rewrite Hband.
        destruct (leb T m) eqn:E'.
        -- apply leb_true in E'.
           rewrite (marginalSchedule_exhausted rest T m Hrest E'). lra.
        -- rewrite (IH T _ m Hrest). lra.
      * assert (Hband : Qmax 0 (T - prev) == T - prev) by (apply Q.max_r; lra).
        rewrite Hband. lra.
Qed.

Lemma ascending_tables :
  ascending 0 FEDERAL_TAX_BRACKETS_SINGLE /\ ascending 0 FEDERAL_TAX_BRACKETS_JOINT.
Proof.
  split; simpl; repeat split; try reflexivity; unfold Qle; simpl; lia.
Qed.

Lemma calculateFederalTax_marginal (config : TaxConfig) (T : Q) :
  calculateFederalTax config T == marginalSchedule T 0 (bracketsFor config).
Proof.
  assert (Hasc : ascending 0 (bracketsFor config)).
  { unfold bracketsFor. destruct (String.eqb _ _); apply ascending_tables. }
  unfold calculateFederalTax. destruct (leb T 0) eqn:E.
  - apply leb_true in E. symmetry. now apply marginalSchedule_exhausted.
  - rewrite (bracketLoop_marginal _ T 0 0 Hasc). lra.
Qed.

Lemma calculateFederalTax_boundaries_single (k : nat) (m : Q) :
  boundary FEDERAL_TAX_BRACKETS_SINGLE k = Some m ->
  bracketLoop m FEDERAL_TAX_BRACKETS_SINGLE 0 0
  == cumulativeTax 0 FEDERAL_TAX_BRACKETS_SINGLE (S k).
Proof.
  intro Hb.
  do 7 (destruct k as [|k];
        [cbn in Hb; first [discriminate Hb | injection Hb as <-; vm_compute; reflexivity]|]).
  destruct k; discriminate Hb.
Qed.

(** C6.  [calculateFederalTax] is the marginal progressive schedule of the
    bracket table of the filing status, [FEDERAL_TAX_BRACKETS_JOINT] for
    ['joint'] and [FEDERAL_TAX_BRACKETS_SINGLE] for every other status: the
    tax is the sum over the brackets of that table of the bracket's rate
    times the income within its band (nothing once the income is
    exhausted).  For a filing status other than ['joint'] (the Single
    table), the tax at each published bracket boundary is the cumulative tax
    of the full brackets up to it; at 11600 it is 1160. *)
Theorem calculateFederalTax_marginal_schedule :
  (forall (config : TaxConfig) (taxableIncome : Q),
      calculateFederalTax config taxableIncome
      == marginalSchedule taxableIncome 0
           (if String.eqb (filingStatus config) "joint"
            then FEDERAL_TAX_BRACKETS_JOINT
            else FEDERAL_TAX_BRACKETS_SINGLE)) /\
  (forall (config : TaxConfig) (k : nat) (m : Q),
      String.eqb (filingStatus config) "joint" = false ->
      boundary FEDERAL_TAX_BRACKETS_SINGLE k = Some m ->
      calculateFederalTax config m
      == cumulativeTax 0 FEDERAL_TAX_BRACKETS_SINGLE (S k)) /\
  (forall config : TaxConfig,
      String.eqb (filingStatus config) "joint" = false ->
      calculateFederalTax config 11600 == 1160).
Proof.
  split.
  { intros config taxableIncome.
    rewrite calculateFederalTax_marginal. unfold bracketsFor. reflexivity. }
  assert (Hb : forall config k m,
             String.eqb (filingStatus config) "joint" = false ->
             boundary FEDERAL_TAX_BRACKETS_SINGLE k = Some m ->
             calculateFederalTax config m
             == cumulativeTax 0 FEDERAL_TAX_BRACKETS_SINGLE (S k)).
  { intros config k m Hs Hk.
    unfold calculateFederalTax, bracketsFor. rewrite Hs.
    rewrite <- (calculateFederalTax_boundaries_single k m Hk).
    assert (Hpos : leb m 0 = false).
    { do 7 (destruct k as [|k];
            [cbn in Hk; first [discriminate Hk | injection Hk as <-; reflexivity]|]).
      destruct k; discriminate Hk. }
    rewrite Hpos. reflexivity. }
  split; [exact Hb|].
  intros config Hs. rewrite (Hb config 0%nat 11600 Hs eq_refl).
  vm_compute. reflexivity.
Qed.

Lemma calculateFederalTax_marginal_schedule_witness :
  calculateFederalTax singleFiler 47150 == 5426 /\
  calculateFederalTax singleFiler 11600 == 1160 /\
  calculateFederalTax jointFiler 23200 == 2320 /\
  calculateFederalTax jointFiler 47150 == 5194.
Proof.
  destruct calculateFederalTax_marginal_schedule as (Hm & Hb & H1).
  split; [|split; [|split]].
  - apply (Qeq_trans _ _ _ (Hb singleFiler 1%nat 47150 eq_refl eq_refl)).
    vm_compute. reflexivity.
  - exact (H1 singleFiler eq_refl).
  - apply (Qeq_trans _ _ _ (Hm jointFiler 23200)). vm_compute. reflexivity.
  - apply (Qeq_trans _ _ _ (Hm jointFiler 47150)). vm_compute. reflexivity.
Defined.

(** C7.  [calculateDeductions] returns the standard deduction of the filing
    status when not itemizing, and otherwise the larger of the standard
    deduction and [mortgageInterest + min(propertyTax, 10000) +
    otherDeductions]; its result is never below the standard deduction. *)
Theorem calculateDeductions_floor (config : TaxConfig) (mortgageInterest propertyTax : Q) :
  let standardDeduction :=
    if String.eqb (filingStatus config) "joint"
    then STANDARD_DEDUCTION_joint else STANDARD_DEDUCTION_single in
  calculateDeductions config mortgageInterest propertyTax
  = (if itemizeDeductions config
     then Qmax standardDeduction
            (mortgageInterest + Qmin propertyTax 10000 + otherDeductions config)
     else standardDeduction)
  /\ standardDeduction <= calculateDeductions config mortgageInterest propertyTax.
Proof.
  intro standardDeduction. unfold calculateDeductions.
  fold standardDeduction. destruct (itemizeDeductions config); simpl.
  - split; [reflexivity | apply Q.le_max_l].
  - split; [reflexivity | apply Qle_refl].
Qed.

(** ** Healthcare module *)

Lemma Healthcare_yearLoop_data (n : nat) :
  forall i this,
    Healthcare.healthcareData (Healthcare.yearLoop n i this)
    = Healthcare.healthcareData this
      ++ map (Healthcare.yearRecord this) (seq i n).
Proof.
  induction n as [|n IH]; intros i this; simpl.
  - now rewrite app_nil_r.
  - rewrite IH. simpl. rewrite <- app_assoc. reflexivity.
Qed.

Lemma Healthcare_calculateData_nth (g : GeneralInformation)
    (c : Healthcare.HealthcareConfig) (i : nat) :
  (i < years g)%nat ->
  nth_error
    (Healthcare.healthcareData (Healthcare.calculateData (Healthcare.new g c))) i
  = Some (Healthcare.yearRecord (Healthcare.new g c) i).
Proof.
  intro Hi. unfold Healthcare.calculateData.
  rewrite Healthcare_yearLoop_data. simpl.
  rewrite nth_error_map, nth_error_seq.
  apply Nat.ltb_lt in Hi. rewrite Hi. reflexivity.
Qed.

(** C1, as stated, fails: with long-term care included from age 60, the
    record of a 60-year-old (year 0, no inflation) has a monthly premium of
    1050, not the pre-Medicare premium 800. *)
Lemma Healthcare_premium_not_preMedicare_only :
  ~ (forall (g : GeneralInformation) (c : Healthcare.HealthcareConfig)
       (i : nat) (y : Healthcare.HealthcareYear),
       nth_error
         (Healthcare.healthcareData
            (Healthcare.calculateData (Healthcare.new g c))) i = Some y ->
       (Healthcare.age y < 65)%Z ->
       Healthcare.monthlyPremiums y
       == Healthcare.preMedicareMonthlyPremium c * Math_pow (1 + inflation g) i).
Proof.
  intro H.
  specialize (H profileFrom60 longTermCareConfig 0%nat _
                (Healthcare_calculateData_nth profileFrom60 longTermCareConfig 0%nat
                   ltac:(vm_compute; lia))).
  specialize (H ltac:(vm_compute; reflexivity)).
  vm_compute in H. discriminate H.
Qed.

(** The inflation rate of the profile is already a decimal fraction
    ([readForm] divides the percentage by 100); [calculateData] divides it by
    100 once more: at 3% the premium of year 1 is 800 * 1.0003, not
    800 * 1.03. *)
Lemma Healthcare_inflation_divided_twice :
  exists y,
    nth_error
      (Healthcare.healthcareData
         (Healthcare.calculateData
            (Healthcare.new sampleProfile Healthcare.defaultConfig))) 1
    = Some y /\
    Healthcare.monthlyPremiums y == 800 * (1 + 0.0003) /\
    ~ Healthcare.monthlyPremiums y == 800 * (1 + 0.03).
Proof.
  eexists. split.
  - apply Healthcare_calculateData_nth. vm_compute. lia.
  - split.
    + vm_compute. reflexivity.
    + vm_compute. discriminate.
Qed.

(** C1 (amended).  For every year [i] of the horizon with age
    [startAge + i < 65], the record of year [i] carries that age; its
    [monthlyPremiums] is the pre-Medicare premium times the year's inflation
    multiplier, plus the long-term-care premium times the same multiplier
    when long-term care is included and the age has reached its start age;
    its [outOfPocket] is (deductible + out-of-pocket) times the multiplier;
    and [annualCost = monthlyPremiums * 12 + outOfPocket].  The multiplier is
    the one [calculateData] compounds over [i], the years since the start of
    the simulation. *)
Theorem Healthcare_preMedicare_year (g : GeneralInformation)
    (c : Healthcare.HealthcareConfig) (i : nat) :
  (i < years g)%nat ->
  (startAge g + Z.of_nat i < 65)%Z ->
  exists y,
    nth_error
      (Healthcare.healthcareData
         (Healthcare.calculateData (Healthcare.new g c))) i = Some y /\
    Healthcare.age y = (startAge g + Z.of_nat i)%Z /\
    Healthcare.monthlyPremiums y
    = (if Healthcare.includeLongTermCare c
          && (Healthcare.longTermCareStartAge c <=? startAge g + Z.of_nat i)%Z
       then Healthcare.preMedicareMonthlyPremium c
              * Healthcare.inflationMultiplier g i
            + Healthcare.longTermCarePremium c
              * Healthcare.inflationMultiplier g i
       else Healthcare.preMedicareMonthlyPremium c
              * Healthcare.inflationMultiplier g i) /\
    Healthcare.outOfPocket y
    = (Healthcare.preMedicareAnnualDeductible c
       + Healthcare.preMedicareAnnualOutOfPocket c)
      * Healthcare.inflationMultiplier g i /\
    Healthcare.annualCost y
    = Healthcare.monthlyPremiums y * 12 + Healthcare.outOfPocket y.
Proof.
  intros Hi Hage. eexists. split.
  - apply Healthcare_calculateData_nth, Hi.
  - unfold Healthcare.yearRecord. simpl.
    apply Z.ltb_lt in Hage. rewrite Hage.
    destruct (Healthcare.includeLongTermCare c
              && (Healthcare.longTermCareStartAge c <=? startAge g + Z.of_nat i)%Z);
      simpl; repeat split; reflexivity.
Qed.

Lemma Healthcare_preMedicare_year_witness :
  exists y,
    nth_error
      (Healthcare.healthcareData
         (Healthcare.calculateData
            (Healthcare.new profileFrom60 longTermCareConfig))) 2 = Some y /\
    Healthcare.age y = 62%Z /\
    Healthcare.monthlyPremiums y == 1050.
Proof.
  destruct (Healthcare_preMedicare_year profileFrom60 longTermCareConfig 2)
    as (y & Hy & Hage & Hprem & _).
  - vm_compute. lia.
  - reflexivity.
  - exists y. split; [exact Hy|]. split; [exact Hage|].
    rewrite Hprem. vm_compute. reflexivity.
Defined.

(** ** Housing module *)

Import Housing.

Lemma Ok_inj {A : Type} (a b : A) : Ok a = Ok b -> a = b.
Proof. intro H. now injection H. Qed.

Lemma index_Ok {A : Type} (arr : list A) (i : nat) (a : A) :
  index arr i = Ok a <-> nth_error arr i = Some a.
Proof.
  unfold index. destruct (nth_error arr i); split; intro H;
    inversion H; reflexivity.
Qed.

Lemma index_lt {A : Type} (arr : list A) (i : nat) :
  (i < length arr)%nat -> exists a, index arr i = Ok a.
Proof.
  intro H. unfold index. destruct (nth_error arr i) as [a|] eqn:E.
  - now exists a.
  - apply nth_error_None in E. lia.
Qed.

Lemma cumulate_total (data : list HousingYear) (i : nat) (c : Q) :
  (i <= length data)%nat -> exists t, cumulate data i c = Ok t.
Proof.
  intro H. unfold cumulate. destruct (i =? 0)%nat eqn:E.
  - now eexists.
  - apply Nat.eqb_neq in E.
    destruct (index_lt data (i - 1)) as [a Ha]; [lia|].
    rewrite Ha. simpl. now eexists.
Qed.

Lemma sameLoan_refl (h : House) : sameLoan h h.
Proof. repeat split. Qed.

Lemma sameLoan_trans (h1 h2 h3 : House) :
  sameLoan h1 h2 -> sameLoan h2 h3 -> sameLoan h1 h3.
Proof.
  unfold sameLoan. intros H12 H23.
  decompose [and] H12. decompose [and] H23. repeat split; congruence.
Qed.

(** What one iteration of the year loop does to the loop variables. *)
Lemma House_year_inv (r : Q) (pay : option Q) (i : nat) (s s' : HouseLoop) :
  House_year r pay i s = Ok s' ->
  sameLoan (this_ s) (this_ s') /\
  (exists record,
      housingData (House_super (this_ s'))
      = housingData (House_super (this_ s)) ++ [record] /\
      value record = currentValue s * (1 + homeAppreciationRate (this_ s)) /\
      age record = (startAge (generalInformation (House_super (this_ s)))
                    + Z.of_nat i)%Z) /\
  currentValue s' = currentValue s * (1 + homeAppreciationRate (this_ s)) /\
  (if amortizing i s
   then exists payment,
       pay = Some payment /\
       remaining s'
       = remainingPrincipal
           (monthLoop 12 r payment (mkAmortization (remaining s) 0 0 (portions s))) /\
       portions s'
       = principalPortions
           (monthLoop 12 r payment (mkAmortization (remaining s) 0 0 (portions s)))
   else remaining s' = remaining s /\ portions s' = portions s).
Proof.
  unfold House_year, amortizing. intro H.
  destruct ((i <? mortgageTermYears (this_ s))%nat && ltb 0 (remaining s)).
  - destruct pay as [payment|]; [|discriminate H]. cbn [bind] in H.
    match type of H with
    | context [cumulate ?d ?k ?c] => destruct (cumulate d k c) as [t|e]
    end; [|discriminate H].
    cbn [bind] in H. apply Ok_inj in H. subst s'.
    unfold sameLoan. cbn [this_ House_super generalInformation mortgage
      downPayment mortgageRate mortgageTermYears homeAppreciationRate
      oneTimeImprovements housingData currentValue remaining portions].
    split; [repeat split|]. split; [eexists; repeat split|].
    split; [reflexivity|]. exists payment. repeat split.
  - cbn [bind] in H.
    match type of H with
    | context [cumulate ?d ?k ?c] => destruct (cumulate d k c) as [t|e]
    end; [|discriminate H].
    cbn [bind] in H. apply Ok_inj in H. subst s'.
    unfold sameLoan. cbn [this_ House_super generalInformation mortgage
      downPayment mortgageRate mortgageTermYears homeAppreciationRate
      oneTimeImprovements housingData currentValue remaining portions].
    split; [repeat split|]. split; [eexists; repeat split|].
    repeat split.
Qed.

(** An iteration ends normally when the payment it may need is a finite
    number and the previous record exists. *)
Lemma House_year_total (r : Q) (pay : option Q) (i : nat) (s : HouseLoop) :
  pay <> None \/ mortgageTermYears (this_ s) = 0%nat ->
  (i <= length (housingData (House_super (this_ s))))%nat ->
  exists s', House_year r pay i s = Ok s'.
Proof.
  intros Hpay Hlen. unfold House_year.
  destruct ((i <? mortgageTermYears (this_ s))%nat && ltb 0 (remaining s)) eqn:E.
  - destruct pay as [payment|].
    + cbn [bind].
      match goal with
      | |- context [cumulate ?d ?k ?c] =>
          destruct (cumulate_total d k c Hlen) as [t Ht]; rewrite Ht
      end.
      cbn [bind]. now eexists.
    + destruct Hpay as [Hpay|Hterm]; [congruence|].
      rewrite Hterm in E. simpl in E. discriminate E.
  - cbn [bind].
    match goal with
    | |- context [cumulate ?d ?k ?c] =>
        destruct (cumulate_total d k c Hlen) as [t Ht]; rewrite Ht
    end.
    cbn [bind]. now eexists.
Qed.

Lemma Math_pow_0 (b : Q) : Math_pow b 0 == 1.
Proof. reflexivity. Qed.

Lemma Math_pow_S (b : Q) (n : nat) : Math_pow b (S n) == Math_pow b n * b.
Proof.
  unfold Math_pow. rewrite Nat2Z.inj_succ. unfold Z.succ.
  rewrite Qpower_plus' by lia. reflexivity.
Qed.

Lemma Math_pow_add (b : Q) (n m : nat) :
  Math_pow b (n + m) == Math_pow b n * Math_pow b m.
Proof.
  induction m as [|m IH].
  - rewrite Nat.add_0_r, Math_pow_0. ring.
  - rewrite Nat.add_succ_r, !Math_pow_S, IH. ring.
Qed.

Lemma Math_pow_pos (b : Q) (n : nat) : 0 < b -> 0 < Math_pow b n.
Proof. intro H. now apply Qpower_0_lt. Qed.

Lemma Math_pow_lt (b : Q) (n m : nat) :
  1 < b -> (n < m)%nat -> Math_pow b n < Math_pow b m.
Proof.
  intros Hb Hnm. unfold Math_pow. apply Qpower_lt_compat_l; [lia | exact Hb].
Qed.

Lemma Math_pow_le (b : Q) (n m : nat) :
  1 <= b -> (n <= m)%nat -> Math_pow b n <= Math_pow b m.
Proof.
  intros Hb Hnm. unfold Math_pow. apply Qpower_le_compat_l; [lia | exact Hb].
Qed.

(** The year loop appends one record per iteration; the equity of the
    [k]-th appended record is the value at the start of the loop compounded
    [k + 1] times. *)
Lemma House_loop_inv (r : Q) (pay : option Q) (n : nat) :
  forall i s s',
    House_loop r pay n i s = Ok s' ->
    sameLoan (this_ s) (this_ s') /\
    currentValue s'
    == currentValue s * Math_pow (1 + homeAppreciationRate (this_ s)) n /\
    exists new,
      House_data (this_ s') = House_data (this_ s) ++ new /\
      length new = n /\
      forall k record,
        nth_error new k = Some record ->
        value record
        == currentValue s * Math_pow (1 + homeAppreciationRate (this_ s)) (S k) /\
        age record
        = (startAge (generalInformation (House_super (this_ s)))
           + Z.of_nat (i + k))%Z.
Proof.
  induction n as [|n IH]; intros i s s' H; simpl in H.
  - injection H as <-. split; [apply sameLoan_refl|].
    split; [rewrite Math_pow_0; ring|].
    exists []. split; [now rewrite app_nil_r|]. split; [reflexivity|].
    intros [|k] record Hk; discriminate Hk.
  - destruct (House_year r pay i s) as [s1|e] eqn:E1; [|discriminate H].
    simpl in H. apply House_year_inv in E1.
    destruct E1 as (Hsame1 & (rec1 & Hdata1 & Hval1 & Hage1) & Hcur1 & _).
    apply IH in H. destruct H as (Hsame & Hcur & new & Hdata & Hlen & Hnew).
    assert (Ha : homeAppreciationRate (this_ s1) = homeAppreciationRate (this_ s))
      by apply Hsame1.
    assert (Hg : generalInformation (House_super (this_ s1))
                 = generalInformation (House_super (this_ s)))
      by apply Hsame1.
    rewrite Ha in *. rewrite Hg in *.
    split; [eapply sameLoan_trans; eassumption|].
    split.
    { rewrite Hcur, Hcur1, Math_pow_S. ring. }
    exists (rec1 :: new). unfold House_data in *.
    split; [rewrite Hdata, Hdata1, <- app_assoc; reflexivity|].
    split; [simpl; now rewrite Hlen|].
    intros [|k] record Hk; simpl in Hk.
    + injection Hk as <-. rewrite Hval1, Hage1, Nat.add_0_r.
      split; [|reflexivity].
      rewrite Math_pow_S, Math_pow_0. ring.
    + destruct (Hnew k record Hk) as [Hv Hag]. split.
      * rewrite Hv, Hcur1, (Math_pow_S _ (S k)). ring.
      * rewrite Hag. f_equal. lia.
Qed.

(** The loop ends normally when the payment it may need is a finite number. *)
Lemma House_loop_total (r : Q) (pay : option Q) (n : nat) :
  forall i s,
    pay <> None \/ mortgageTermYears (this_ s) = 0%nat ->
    (i <= length (House_data (this_ s)))%nat ->
    exists s', House_loop r pay n i s = Ok s'.
Proof.
  induction n as [|n IH]; intros i s Hpay Hlen; simpl.
  - now eexists.
  - destruct (House_year_total r pay i s Hpay Hlen) as [s1 E1].
    rewrite E1. simpl. apply IH.
    + apply House_year_inv in E1. destruct E1 as (Hsame & _).
      destruct Hpay as [Hpay|Hterm]; [now left|right].
      replace (mortgageTermYears (this_ s1)) with (mortgageTermYears (this_ s));
        [exact Hterm | symmetry; apply Hsame].
    + apply House_year_inv in E1.
      destruct E1 as (_ & (rec1 & Hdata1 & _) & _).
      unfold House_data in *. rewrite Hdata1, length_app. simpl. lia.
Qed.

Lemma House_run_inv (h : House) (s : HouseLoop) :
  House_run h = Ok s ->
  sameLoan h (this_ s) /\
  exists new,
    House_data (this_ s) = House_data h ++ new /\
    length new = years (generalInformation (House_super h)) /\
    forall k record,
      nth_error new k = Some record ->
      value record
      == (downPayment h + mortgage h)
         * Math_pow (1 + homeAppreciationRate h) (S k) /\
      age record
      = (startAge (generalInformation (House_super h)) + Z.of_nat k)%Z.
Proof.
  unfold House_run. intro H. apply House_loop_inv in H. simpl in H.
  destruct H as (Hsame & _ & new & Hdata & Hlen & Hnew).
  split; [exact Hsame|]. exists new. repeat split; try assumption; apply Hnew; assumption.
Qed.

Lemma House_calculateData_total (h : House) :
  monthlyMortgagePayment h <> None \/ mortgageTermYears h = 0%nat ->
  exists s, House_run h = Ok s /\ House_calculateData h = Ok (this_ s).
Proof.
  intro Hpay.
  destruct (House_loop_total (monthlyRate h) (monthlyMortgagePayment h)
              (years (generalInformation (House_super h))) 0
              (mkHouseLoop h (downPayment h + mortgage h) (mortgage h) []))
    as [s Hs]; [exact Hpay | simpl; lia |].
  exists s. unfold House_calculateData, House_run. rewrite Hs. now split.
Qed.

(** C8, as stated, fails: a house bought for nothing keeps the equity 0 in
    every year, whatever its appreciation rate. *)
Lemma House_equity_not_increasing_from_zero :
  ~ (forall (h h' : House) (i : nat) (a b : HousingYear),
       House_data h = [] ->
       0 < homeAppreciationRate h ->
       House_calculateData h = Ok h' ->
       nth_error (House_data h') i = Some a ->
       nth_error (House_data h') (S i) = Some b ->
       value a < value b).
Proof.
  intro H.
  destruct (House_calculateData worthlessHouse) as [h'|e] eqn:E;
    [|vm_compute in E; discriminate E].
  pose proof E as E'. vm_compute in E'. injection E' as <-.
  specialize (H worthlessHouse _ 0%nat _ _ eq_refl eq_refl E eq_refl eq_refl).
  vm_compute in H. discriminate H.
Qed.


(** ** House.calculateData with the numbers that are not finite *)

Lemma Numeric_cumulate_total (data : list NumericHousing.HousingYear)
    (i : nat) (c : Number.number) :
  (i <= length data)%nat -> exists t, NumericHousing.cumulate data i c = Ok t.
Proof.
  intro H. unfold NumericHousing.cumulate. destruct (i =? 0)%nat eqn:E.
  - now eexists.
  - apply Nat.eqb_neq in E.
    destruct (index_lt data (i - 1)) as [a Ha]; [lia|].
    rewrite Ha. cbn [bind]. now eexists.
Qed.

(** One iteration of the year loop never throws, whatever the payment and
    the remaining principal are: it pushes a record whose equity is the
    appreciated value. *)
Lemma Numeric_House_year_spec (r : Q) (pay : Number.number) (i : nat)
    (s : NumericHousing.HouseLoop) :
  (i <= length (Numeric_data (NumericHousing.this_ s)))%nat ->
  exists s' record,
    NumericHousing.House_year r pay i s = Ok s' /\
    Numeric_data (NumericHousing.this_ s')
    = Numeric_data (NumericHousing.this_ s) ++ [record] /\
    NumericHousing.value record
    = NumericHousing.currentValue s
      * (1 + NumericHousing.homeAppreciationRate (NumericHousing.this_ s)) /\
    NumericHousing.age record
    = (startAge (NumericHousing.generalInformation
                   (NumericHousing.House_super (NumericHousing.this_ s)))
       + Z.of_nat i)%Z /\
    NumericHousing.currentValue s'
    = NumericHousing.currentValue s
      * (1 + NumericHousing.homeAppreciationRate (NumericHousing.this_ s)) /\
    NumericHousing.homeAppreciationRate (NumericHousing.this_ s')
    = NumericHousing.homeAppreciationRate (NumericHousing.this_ s) /\
    NumericHousing.generalInformation
      (NumericHousing.House_super (NumericHousing.this_ s'))
    = NumericHousing.generalInformation
        (NumericHousing.House_super (NumericHousing.this_ s)).
Proof.
  intro Hlen. unfold NumericHousing.House_year, Numeric_data in *.
  destruct ((i <? NumericHousing.mortgageTermYears (NumericHousing.this_ s))%nat
            && Number.lt (Number.Num 0) (NumericHousing.remaining s));
    cbv beta iota zeta;
    match goal with
    | |- context [NumericHousing.cumulate ?d ?k ?c] =>
        destruct (Numeric_cumulate_total d k c Hlen) as [t Ht]; rewrite Ht
    end;
    cbn [bind]; eexists; eexists; (split; [reflexivity|]);
    cbn [NumericHousing.this_ NumericHousing.House_super
         NumericHousing.housingData NumericHousing.value NumericHousing.age
         NumericHousing.currentValue NumericHousing.homeAppreciationRate
         NumericHousing.generalInformation];
    repeat split.
Qed.

(** The year loop always runs to its end and appends one record per
    iteration; the equity of the [k]-th appended record is the value at the
    start of the loop compounded [k + 1] times. *)
Lemma Numeric_House_loop_spec (r : Q) (pay : Number.number) (n : nat) :
  forall i s,
    (i <= length (Numeric_data (NumericHousing.this_ s)))%nat ->
    exists s' new,
      NumericHousing.House_loop r pay n i s = Ok s' /\
      Numeric_data (NumericHousing.this_ s')
      = Numeric_data (NumericHousing.this_ s) ++ new /\
      length new = n /\
      forall k record,
        nth_error new k = Some record ->
        NumericHousing.value record
        == NumericHousing.currentValue s
           * Math_pow
               (1 + NumericHousing.homeAppreciationRate (NumericHousing.this_ s))
               (S k) /\
        NumericHousing.age record
        = (startAge (NumericHousing.generalInformation
                       (NumericHousing.House_super (NumericHousing.this_ s)))
           + Z.of_nat (i + k))%Z.
Proof.
  induction n as [|n IH]; intros i s Hlen; cbn [NumericHousing.House_loop].
  - exists s, []. split; [reflexivity|]. split; [now rewrite app_nil_r|].
    split; [reflexivity|]. intros [|k] record Hk; discriminate Hk.
  - destruct (Numeric_House_year_spec r pay i s Hlen)
      as (s1 & rec1 & E1 & Hdata1 & Hval1 & Hage1 & Hcur1 & Ha & Hg).
    rewrite E1. cbn [bind].
    destruct (IH (S i) s1) as (s' & new & E & Hdata & Hnew & Hrec).
    { rewrite Hdata1, length_app. cbn [length]. lia. }
    exists s', (rec1 :: new). split; [exact E|].
    split; [rewrite Hdata, Hdata1, <- app_assoc; reflexivity|].
    split; [cbn [length]; now rewrite Hnew|].
    intros [|k] record Hk; cbn [nth_error] in Hk.
    + injection Hk as <-. rewrite Hval1, Hage1, Nat.add_0_r.
      split; [|reflexivity].
      rewrite Math_pow_S, Math_pow_0. ring.
    + destruct (Hrec k record Hk) as [Hv Hag]. rewrite Ha, Hg in *. split.
      * rewrite Hv, Hcur1, (Math_pow_S _ (S k)). ring.
      * rewrite Hag. f_equal. lia.
Qed.

(** [calculateData] on a newly constructed house: it always returns, with
    one record per year of the horizon. *)
Lemma Numeric_House_calculateData_spec (h : NumericHousing.House) :
  Numeric_data h = [] ->
  exists h',
    NumericHousing.House_calculateData h = Ok h' /\
    length (Numeric_data h')
    = years (NumericHousing.generalInformation (NumericHousing.House_super h)) /\
    forall i record,
      nth_error (Numeric_data h') i = Some record ->
      NumericHousing.value record
      == (NumericHousing.downPayment h + NumericHousing.mortgage h)
         * Math_pow (1 + NumericHousing.homeAppreciationRate h) (S i) /\
      NumericHousing.age record
      = (startAge (NumericHousing.generalInformation
                     (NumericHousing.House_super h))
         + Z.of_nat i)%Z.
Proof.
  intro Hnew.
  unfold NumericHousing.House_calculateData, NumericHousing.House_run.
  destruct (Numeric_House_loop_spec
              (NumericHousing.monthlyRate h)
              (NumericHousing.monthlyMortgagePayment h)
              (years (NumericHousing.generalInformation
                        (NumericHousing.House_super h))) 0
              (NumericHousing.mkHouseLoop h
                 (NumericHousing.downPayment h + NumericHousing.mortgage h)
                 (Number.Num (NumericHousing.mortgage h))))
    as (s & new & E & Hdata & Hlen & Hrec).
  { cbn [NumericHousing.this_]. lia. }
  rewrite E. cbn [bind]. exists (NumericHousing.this_ s).
  split; [reflexivity|].
  cbn [NumericHousing.this_ NumericHousing.currentValue] in Hdata, Hrec.
  rewrite Hnew in Hdata. cbn [app] in Hdata. rewrite Hdata.
  split; [exact Hlen|]. exact Hrec.
Qed.

(** C10.  On a newly constructed house, whatever its loan, [calculateData]
    returns and records for every year [i] of the horizon the equity
    [(mortgage + downPayment) * (1 + homeAppreciationRate)^(i+1)]: the
    appreciation step comes before the record is pushed, so the record of
    year 0 already holds one year of appreciation.  This holds also when
    the monthly payment is not a finite number. *)
Theorem House_equity_compounds_from_first_year (h : NumericHousing.House)
    (i : nat) :
  Numeric_data h = [] ->
  (i < years (NumericHousing.generalInformation
                (NumericHousing.House_super h)))%nat ->
  exists h' record,
    NumericHousing.House_calculateData h = Ok h' /\
    nth_error (Numeric_data h') i = Some record /\
    NumericHousing.value record
    == (NumericHousing.mortgage h + NumericHousing.downPayment h)
       * Math_pow (1 + NumericHousing.homeAppreciationRate h) (i + 1).
Proof.
  intros Hnew Hi.
  destruct (Numeric_House_calculateData_spec h Hnew) as (h' & Hcalc & Hlen & Hrec).
  destruct (nth_error (Numeric_data h') i) as [record|] eqn:E.
  - exists h', record. split; [exact Hcalc|]. split; [exact E|].
    destruct (Hrec i record E) as [Hv _]. rewrite Hv.
    replace (i + 1)%nat with (S i) by lia. ring.
  - apply nth_error_None in E. lia.
Qed.

Lemma House_equity_compounds_from_first_year_witness :
  NumericHousing.monthlyMortgagePayment zeroRateLoan = Number.NaN /\
  exists h' record,
    NumericHousing.House_calculateData zeroRateLoan = Ok h' /\
    nth_error (Numeric_data h') 0 = Some record /\
    NumericHousing.value record == 412000.
Proof.
  split; [vm_compute; reflexivity|].
  destruct (House_equity_compounds_from_first_year zeroRateLoan 0)
    as (h' & record & Hcalc & Hnth & Hv).
  - reflexivity.
  - vm_compute. lia.
  - exists h', record. split; [exact Hcalc|]. split; [exact Hnth|].
    apply (Qeq_trans _ _ _ Hv). vm_compute. reflexivity.
Defined.

(** The house bought for nothing in this model: the equity stays 0 here
    too, so the series is not strictly increasing. *)
Lemma House_equity_flat_with_all_numbers :
  ~ (forall (h h' : NumericHousing.House) (i : nat)
            (a b : NumericHousing.HousingYear),
       Numeric_data h = [] ->
       0 < NumericHousing.homeAppreciationRate h ->
       NumericHousing.House_calculateData h = Ok h' ->
       nth_error (Numeric_data h') i = Some a ->
       nth_error (Numeric_data h') (S i) = Some b ->
       NumericHousing.value a < NumericHousing.value b).
Proof.
  intro H.
  destruct (NumericHousing.House_calculateData
              (NumericHousing.ofHouse worthlessHouse)) as [h'|e] eqn:E;
    [|vm_compute in E; discriminate E].
  pose proof E as E'. vm_compute in E'. injection E' as <-.
  specialize (H (NumericHousing.ofHouse worthlessHouse) _ 0%nat _ _
                eq_refl eq_refl E eq_refl eq_refl).
  vm_compute in H. discriminate H.
Qed.

(** C8 (amended).  On a newly constructed house that was bought for a
    positive price ([downPayment + mortgage > 0]), whatever its loan,
    [calculateData] returns with one record per year of the horizon, and
    for [homeAppreciationRate > 0] the equity of every year is strictly
    greater than that of the year before. *)
Theorem House_equity_strictly_increasing (h : NumericHousing.House) :
  Numeric_data h = [] ->
  0 < NumericHousing.homeAppreciationRate h ->
  0 < NumericHousing.downPayment h + NumericHousing.mortgage h ->
  exists h',
    NumericHousing.House_calculateData h = Ok h' /\
    length (Numeric_data h')
    = years (NumericHousing.generalInformation (NumericHousing.House_super h)) /\
    forall (i : nat) (a b : NumericHousing.HousingYear),
      nth_error (Numeric_data h') i = Some a ->
      nth_error (Numeric_data h') (S i) = Some b ->
      NumericHousing.value a < NumericHousing.value b.
Proof.
  intros Hnew Hrate Hprice.
  destruct (Numeric_House_calculateData_spec h Hnew) as (h' & Hcalc & Hlen & Hrec).
  exists h'. split; [exact Hcalc|]. split; [exact Hlen|].
  intros i a b Ha Hb.
  destruct (Hrec i a Ha) as [Hva _]. destruct (Hrec (S i) b Hb) as [Hvb _].
  rewrite Hva, Hvb, (Math_pow_S _ (S i)).
  assert (Hpow : 0 < Math_pow (1 + NumericHousing.homeAppreciationRate h) (S i))
    by (apply Math_pow_pos; lra).
  set (p := Math_pow (1 + NumericHousing.homeAppreciationRate h) (S i)) in *.
  set (v := NumericHousing.downPayment h + NumericHousing.mortgage h) in *.
  assert (Hvp : 0 < v * p) by (apply Qmult_lt_0_compat; assumption).
  assert (Hstep : 0 < v * p * NumericHousing.homeAppreciationRate h)
    by (apply Qmult_lt_0_compat; assumption).
  lra.
Qed.

Lemma House_equity_strictly_increasing_witness :
  exists h' a b,
    NumericHousing.House_calculateData zeroRateLoan = Ok h' /\
    Numeric_data h' = [a; b] /\
    NumericHousing.value a < NumericHousing.value b.
Proof.
  destruct (House_equity_strictly_increasing zeroRateLoan)
    as (h' & Hcalc & Hlen & Hinc).
  - reflexivity.
  - reflexivity.
  - reflexivity.
  - destruct (Numeric_data h') as [|a [|b [|c rest]]] eqn:Hdata;
      try discriminate Hlen.
    exists h', a, b. split; [exact Hcalc|]. split; [exact Hdata|].
    apply (Hinc 0%nat a b); reflexivity.
Defined.

(** *** The two models of House.calculateData agree on finite runs *)

Lemma monthStep_finite (r pay : Q) (a : Housing.Amortization) :
  NumericHousing.monthStep r (Number.Num pay) (ofAmortization a)
  = ofAmortization (Housing.monthStep r pay a).
Proof.
  unfold NumericHousing.monthStep, Housing.monthStep, ofAmortization.
  cbn [NumericHousing.remainingPrincipal NumericHousing.yearlyInterestPaid
       NumericHousing.yearlyPrincipalPaid Housing.remainingPrincipal
       Housing.yearlyInterestPaid Housing.yearlyPrincipalPaid
       Number.mul Number.sub Number.add Number.lt].
  destruct (ltb _ 0); reflexivity.
Qed.

Lemma monthLoop_finite (r pay : Q) (m : nat) :
  forall a,
    NumericHousing.monthLoop m r (Number.Num pay) (ofAmortization a)
    = ofAmortization (Housing.monthLoop m r pay a).
Proof.
  induction m as [|m IH]; intro a.
  - reflexivity.
  - change (NumericHousing.monthLoop (S m) r (Number.Num pay) (ofAmortization a))
      with (NumericHousing.monthLoop m r (Number.Num pay)
              (NumericHousing.monthStep r (Number.Num pay) (ofAmortization a))).
    change (Housing.monthLoop (S m) r pay a)
      with (Housing.monthLoop m r pay (Housing.monthStep r pay a)).
    rewrite monthStep_finite. apply IH.
Qed.

Lemma cumulate_finite (data : list Housing.HousingYear) (i : nat) (c t : Q) :
  Housing.cumulate data i c = Ok t ->
  NumericHousing.cumulate (map NumericHousing.ofYear data) i (Number.Num c)
  = Ok (Number.Num t).
Proof.
  unfold Housing.cumulate, NumericHousing.cumulate.
  destruct (i =? 0)%nat.
  - intro H. apply Ok_inj in H. now subst t.
  - unfold index. rewrite nth_error_map.
    destruct (nth_error data (i - 1)) as [prev|]; cbn [bind option_map];
      [|discriminate].
    intro H. apply Ok_inj in H. now subst t.
Qed.

(** A year that [Housing.House_year] completes is the year of the source:
    the model with all numbers computes the same record and the same loop
    variables, all finite. *)
Lemma House_year_finite (r : Q) (pay : option Q) (payment : Number.number)
    (i : nat) (s s' : Housing.HouseLoop) :
  (forall p, pay = Some p -> payment = Number.Num p) ->
  Housing.House_year r pay i s = Ok s' ->
  NumericHousing.House_year r payment i (NumericHousing.ofLoop s)
  = Ok (NumericHousing.ofLoop s').
Proof.
  intros Hpay H.
  unfold Housing.House_year in H. unfold NumericHousing.House_year.
  cbn [NumericHousing.ofLoop NumericHousing.ofHouse NumericHousing.this_
       NumericHousing.House_super NumericHousing.generalInformation
       NumericHousing.monthlyInsurance NumericHousing.monthlyHOA
       NumericHousing.housingData NumericHousing.mortgage
       NumericHousing.downPayment NumericHousing.mortgageRate
       NumericHousing.mortgageTermYears NumericHousing.propertyTaxAssessment
       NumericHousing.homeAppreciationRate NumericHousing.oneTimeImprovements
       NumericHousing.annualMaintenanceCost NumericHousing.currentValue
       NumericHousing.remaining Number.lt].
  destruct ((i <? Housing.mortgageTermYears (Housing.this_ s))%nat
            && ltb 0 (Housing.remaining s)).
  - destruct pay as [p|]; [|discriminate H].
    rewrite (Hpay p eq_refl). cbn [bind] in H.
    change (NumericHousing.mkAmortization (Number.Num (Housing.remaining s))
              (Number.Num 0) (Number.Num 0))
      with (ofAmortization
              (Housing.mkAmortization (Housing.remaining s) 0 0
                 (Housing.portions s))).
    rewrite monthLoop_finite. cbv beta iota zeta.
    cbn [Number.add Number.mul ofAmortization
         NumericHousing.remainingPrincipal].
    destruct (i =? 0)%nat;
      match type of H with
      | context [Housing.cumulate ?d ?k ?c] =>
          destruct (Housing.cumulate d k c) as [t|e] eqn:Ht; [|discriminate H];
          rewrite (cumulate_finite d k c t Ht)
      end;
      cbn [bind] in H |- *; apply Ok_inj in H; subst s';
      unfold NumericHousing.ofLoop, NumericHousing.ofHouse;
      cbn [Housing.this_
           Housing.House_super Housing.generalInformation
           Housing.monthlyInsurance Housing.monthlyHOA Housing.housingData
           Housing.mortgage Housing.downPayment Housing.mortgageRate
           Housing.mortgageTermYears Housing.propertyTaxAssessment
           Housing.homeAppreciationRate Housing.oneTimeImprovements
           Housing.annualMaintenanceCost Housing.currentValue
           Housing.remaining];
      rewrite map_app; reflexivity.
  - cbn [bind] in H. cbv beta iota zeta. cbn [Number.add].
    destruct (i =? 0)%nat;
      match type of H with
      | context [Housing.cumulate ?d ?k ?c] =>
          destruct (Housing.cumulate d k c) as [t|e] eqn:Ht; [|discriminate H];
          rewrite (cumulate_finite d k c t Ht)
      end;
      cbn [bind] in H |- *; apply Ok_inj in H; subst s';
      unfold NumericHousing.ofLoop, NumericHousing.ofHouse;
      cbn [Housing.this_
           Housing.House_super Housing.generalInformation
           Housing.monthlyInsurance Housing.monthlyHOA Housing.housingData
           Housing.mortgage Housing.downPayment Housing.mortgageRate
           Housing.mortgageTermYears Housing.propertyTaxAssessment
           Housing.homeAppreciationRate Housing.oneTimeImprovements
           Housing.annualMaintenanceCost Housing.currentValue
           Housing.remaining];
      rewrite map_app; reflexivity.
Qed.

Lemma House_loop_finite (r : Q) (pay : option Q) (payment : Number.number)
    (n : nat) :
  (forall p, pay = Some p -> payment = Number.Num p) ->
  forall i s s',
    Housing.House_loop r pay n i s = Ok s' ->
    NumericHousing.House_loop r payment n i (NumericHousing.ofLoop s)
    = Ok (NumericHousing.ofLoop s').
Proof.
  intro Hpay. induction n as [|n IH]; intros i s s' H;
    cbn [Housing.House_loop NumericHousing.House_loop] in H |- *.
  - apply Ok_inj in H. now subst s'.
  - destruct (Housing.House_year r pay i s) as [s1|e] eqn:E1; [|discriminate H].
    cbn [bind] in H.
    rewrite (House_year_finite r pay payment i s s1 Hpay E1). cbn [bind].
    now apply IH.
Qed.

Lemma monthlyMortgagePayment_finite (h : Housing.House) (p : Q) :
  Housing.monthlyMortgagePayment h = Some p ->
  NumericHousing.monthlyMortgagePayment (NumericHousing.ofHouse h)
  = Number.Num p.
Proof.
  unfold Housing.monthlyMortgagePayment, NumericHousing.monthlyMortgagePayment,
    NumericHousing.monthlyRate, NumericHousing.totalPayments,
    Housing.monthlyRate, Housing.totalPayments, jsdiv, Number.div.
  cbn [NumericHousing.ofHouse NumericHousing.mortgage
       NumericHousing.mortgageRate NumericHousing.mortgageTermYears].
  destruct (ltb 0 (Housing.mortgage h)).
  - destruct (Qeq_bool _ 0); [discriminate|].
    intro H. injection H as <-. reflexivity.
  - intro H. injection H as <-. reflexivity.
Qed.

(** A run that [Housing.House_run] completes is the run of the model with
    all numbers, on the same house: same records, all finite. *)
Lemma House_run_finite (h : Housing.House) (s : Housing.HouseLoop) :
  Housing.House_run h = Ok s ->
  NumericHousing.House_run (NumericHousing.ofHouse h)
  = Ok (NumericHousing.ofLoop s).
Proof.
  unfold Housing.House_run, NumericHousing.House_run. intro H.
  apply (House_loop_finite _ _
           (NumericHousing.monthlyMortgagePayment (NumericHousing.ofHouse h))
           _ (monthlyMortgagePayment_finite h)) in H.
  exact H.
Qed.

(** *** What the source records where [Housing.House_run] ends with
    [Err NotFinite] *)

Lemma zero_rate_payment_NaN (h : NumericHousing.House) :
  0 < NumericHousing.mortgage h ->
  NumericHousing.mortgageRate h == 0 ->
  NumericHousing.monthlyMortgagePayment h = Number.NaN.
Proof.
  intros HP Hr.
  unfold NumericHousing.monthlyMortgagePayment, NumericHousing.monthlyRate,
    Number.div, Number.scale.
  rewrite (proj2 (ltb_true _ _) HP).
  set (n := NumericHousing.totalPayments h).
  assert (Hpow : Math_pow (1 + NumericHousing.mortgageRate h / 12) n == 1).
  { unfold Math_pow.
    assert (Hb : 1 + NumericHousing.mortgageRate h / 12 == 1)
      by (rewrite Hr; reflexivity).
    rewrite Hb. apply Qpower_1. }
  assert (Hden : Qeq_bool (Math_pow (1 + NumericHousing.mortgageRate h / 12) n - 1) 0
                 = true).
  { apply Qeq_bool_iff. rewrite Hpow. ring. }
  rewrite Hden.
  assert (Hnum : NumericHousing.mortgage h
                 * (NumericHousing.mortgageRate h / 12
                    * Math_pow (1 + NumericHousing.mortgageRate h / 12) n) == 0).
  { rewrite Hpow, Hr. unfold Qdiv. ring. }
  assert (H1 : ltb 0 (NumericHousing.mortgage h
                      * (NumericHousing.mortgageRate h / 12
                         * Math_pow (1 + NumericHousing.mortgageRate h / 12) n))
               = false)
    by (apply ltb_false; rewrite Hnum; apply Qle_refl).
  assert (H2 : ltb (NumericHousing.mortgage h
                    * (NumericHousing.mortgageRate h / 12
                       * Math_pow (1 + NumericHousing.mortgageRate h / 12) n)) 0
               = false)
    by (apply ltb_false; rewrite Hnum; apply Qle_refl).
  rewrite H1, H2. reflexivity.
Qed.

(** The zero-rate mortgage of a newly constructed house: the source goes
    through every year; the costs of year 0 and the cumulative costs of year
    0 are [NaN], while the equity is recorded as for any other house. *)
Lemma zero_rate_costs_NaN (h : NumericHousing.House) :
  Numeric_data h = [] ->
  0 < NumericHousing.mortgage h ->
  NumericHousing.mortgageRate h == 0 ->
  (0 < NumericHousing.mortgageTermYears h)%nat ->
  (0 < years (NumericHousing.generalInformation
                (NumericHousing.House_super h)))%nat ->
  exists h' record,
    NumericHousing.House_calculateData h = Ok h' /\
    length (Numeric_data h')
    = years (NumericHousing.generalInformation (NumericHousing.House_super h)) /\
    nth_error (Numeric_data h') 0 = Some record /\
    NumericHousing.yearlyCosts record = Number.NaN /\
    NumericHousing.totalCosts record = Number.NaN /\
    NumericHousing.value record
    = (NumericHousing.downPayment h + NumericHousing.mortgage h)
      * (1 + NumericHousing.homeAppreciationRate h).
Proof.
  intros Hnew HP Hr Hterm Hyears.
  destruct (Numeric_House_calculateData_spec h Hnew) as (h' & Hcalc & Hlen & _).
  pose proof Hcalc as Hrun.
  unfold NumericHousing.House_calculateData, NumericHousing.House_run in Hrun.
  rewrite (zero_rate_payment_NaN h HP Hr) in Hrun.
  destruct (years (NumericHousing.generalInformation
                     (NumericHousing.House_super h))) as [|n] eqn:Hn; [lia|].
  cbn [NumericHousing.House_loop] in Hrun.
  destruct (NumericHousing.House_year (NumericHousing.monthlyRate h) Number.NaN 0
              (NumericHousing.mkHouseLoop h
                 (NumericHousing.downPayment h + NumericHousing.mortgage h)
                 (Number.Num (NumericHousing.mortgage h))))
    as [s1|e] eqn:Hyear; [|discriminate Hrun].
  cbn [bind] in Hrun.
  destruct (NumericHousing.House_loop (NumericHousing.monthlyRate h) Number.NaN
              n 1 s1) as [s|e] eqn:Hloop; [|discriminate Hrun].
  cbn [bind] in Hrun. apply Ok_inj in Hrun. subst h'.
  unfold NumericHousing.House_year in Hyear.
  cbn [NumericHousing.this_ NumericHousing.remaining NumericHousing.currentValue
       Number.lt] in Hyear.
  unfold Numeric_data in Hnew. rewrite Hnew in Hyear.
  rewrite (proj2 (Nat.ltb_lt _ _) Hterm), (proj2 (ltb_true _ _) HP) in Hyear.
  cbn [andb Nat.eqb] in Hyear. cbv beta iota zeta in Hyear.
  cbn [Number.mul Number.add NumericHousing.cumulate Nat.eqb bind app] in Hyear.
  apply Ok_inj in Hyear.
  destruct (Numeric_House_loop_spec
              (NumericHousing.monthlyRate h) Number.NaN n 1 s1)
    as (s' & new & Hloop' & Hdata & _).
  { subst s1. cbn [Numeric_data NumericHousing.this_ NumericHousing.House_super
                   NumericHousing.housingData length]. lia. }
  rewrite Hloop' in Hloop. apply Ok_inj in Hloop. subst s'.
  eexists. eexists. split; [exact Hcalc|]. split; [exact Hlen|].
  rewrite Hdata. subst s1.
  cbn [Numeric_data NumericHousing.this_ NumericHousing.House_super
       NumericHousing.housingData app nth_error].
  split; [reflexivity|].
  cbn [NumericHousing.yearlyCosts NumericHousing.totalCosts NumericHousing.value].
  repeat split.
Qed.

(** ** Amortization *)

Lemma sumQ_app (l : list Q) (x : Q) : sumQ (l ++ [x]) == sumQ l + x.
Proof.
  induction l as [|y l IH]; simpl.
  - ring.
  - rewrite IH. ring.
Qed.

Lemma Qmult_pos_cancel (x d : Q) : 0 < d -> 0 <= x * d -> 0 <= x.
Proof.
  intros Hd Hx. apply Qnot_lt_le. intro Hneg.
  assert (H : 0 < (- x) * d) by (apply Qmult_lt_0_compat; lra).
  lra.
Qed.

Section Amortization.

Variables (P r pay : Q) (n : nat).
Hypothesis Hr : 0 < r.
Hypothesis HP : 0 < P.
Hypothesis Hn : (0 < n)%nat.
Hypothesis Hpay :
  pay * (Math_pow (1 + r) n - 1) == P * r * Math_pow (1 + r) n.

Lemma factor_gt_1 : 1 < Math_pow (1 + r) n.
Proof.
  unfold Math_pow. apply Qpower_1_lt; [lra | lia].
Qed.

Lemma monthStep_amortized (k : nat) (a : Amortization) :
  (k < n)%nat ->
  amortized P r n k (remainingPrincipal a) (principalPortions a) ->
  amortized P r n (S k)
    (remainingPrincipal (monthStep r pay a))
    (principalPortions (monthStep r pay a)).
Proof.
  intros Hk (Hrem & Hsum & Hlen).
  pose proof factor_gt_1 as HA. pose proof Hpay as Hpay'.
  set (A := Math_pow (1 + r) n) in *.
  set (rem := remainingPrincipal a) in *.
  set (rem' := rem - (pay - rem * r)).
  assert (Hrem' : rem' * (A - 1) == P * (A - Math_pow (1 + r) (S k))).
  { rewrite Math_pow_S. unfold rem'.
    transitivity (rem * (A - 1) * (1 + r) - pay * (A - 1)); [ring|].
    rewrite Hrem, Hpay'. ring. }
  assert (Hnonneg : 0 <= rem').
  { apply (Qmult_pos_cancel rem' (A - 1)); [lra|]. rewrite Hrem'.
    apply Qmult_le_0_compat; [lra|].
    assert (Math_pow (1 + r) (S k) <= A)
      by (unfold A; apply Math_pow_le; [lra | lia]).
    lra. }
  assert (Hclamp : ltb rem' 0 = false) by (apply ltb_false; exact Hnonneg).
  unfold monthStep. fold rem. fold rem'. rewrite Hclamp. simpl.
  unfold amortized. fold A. split; [exact Hrem'|]. split.
  - rewrite sumQ_app, Hsum. unfold rem'. ring.
  - rewrite length_app, Hlen. simpl. lia.
Qed.

Lemma monthLoop_amortized (m : nat) :
  forall (k : nat) (a : Amortization),
    (k + m <= n)%nat ->
    amortized P r n k (remainingPrincipal a) (principalPortions a) ->
    amortized P r n (k + m)
      (remainingPrincipal (monthLoop m r pay a))
      (principalPortions (monthLoop m r pay a)).
Proof.
  induction m as [|m IH]; intros k a Hk Ha; simpl.
  - now rewrite Nat.add_0_r.
  - replace (k + S m)%nat with (S k + m)%nat by lia.
    apply IH; [lia|]. apply monthStep_amortized; [lia | exact Ha].
Qed.

Lemma amortized_owing (k : nat) (rem : Q) (paid : list Q) :
  (k < n)%nat -> amortized P r n k rem paid -> 0 < rem.
Proof.
  intros Hk (Hrem & _). pose proof factor_gt_1 as HA.
  assert (Hlt : Math_pow (1 + r) k < Math_pow (1 + r) n)
    by (apply Math_pow_lt; [lra | exact Hk]).
  set (A := Math_pow (1 + r) n) in *.
  apply Qnot_le_lt. intro Hle.
  assert (H1 : 0 <= (- rem) * (A - 1)) by (apply Qmult_le_0_compat; lra).
  assert (H2 : 0 < P * (A - Math_pow (1 + r) k))
    by (apply Qmult_lt_0_compat; lra).
  lra.
Qed.

Lemma amortized_paid_off (rem : Q) (paid : list Q) :
  amortized P r n n rem paid ->
  rem == 0 /\ sumQ paid == P /\ length paid = n.
Proof.
  intros (Hrem & Hsum & Hlen). pose proof factor_gt_1 as HA.
  set (A := Math_pow (1 + r) n) in *.
  assert (H0 : rem == 0).
  { assert (Hz : rem * (A - 1) == 0) by (rewrite Hrem; ring).
    apply Qmult_integral in Hz. destruct Hz as [Hz|Hz]; [exact Hz | lra]. }
  split; [exact H0|]. split; [rewrite Hsum, H0; ring | exact Hlen].
Qed.

End Amortization.

Section YearLoopAmortization.

Variables (P r pay : Q) (term : nat).
Hypothesis Hr : 0 < r.
Hypothesis HP : 0 < P.
Hypothesis Hterm : (0 < term)%nat.
Hypothesis Hpay :
  pay * (Math_pow (1 + r) (12 * term) - 1)
  == P * r * Math_pow (1 + r) (12 * term).

(** Through the year loop the amortization advances by twelve months a
    year until the term is over, and stays put afterwards. *)
Lemma House_loop_amortized (m : nat) :
  forall i s s',
    mortgageTermYears (this_ s) = term ->
    amortized P r (12 * term) (12 * Nat.min i term) (remaining s) (portions s) ->
    House_loop r (Some pay) m i s = Ok s' ->
    amortized P r (12 * term) (12 * Nat.min (i + m) term)
      (remaining s') (portions s').
Proof.
  induction m as [|m IH]; intros i s s' Ht Hinv Hloop.
  - cbn [House_loop] in Hloop. apply Ok_inj in Hloop. subst s'.
    now rewrite Nat.add_0_r.
  - cbn [House_loop] in Hloop.
    destruct (House_year r (Some pay) i s) as [s1|e] eqn:E1;
      [|discriminate Hloop].
    cbn [bind] in Hloop. apply House_year_inv in E1.
    destruct E1 as (Hsame & _ & _ & Hamort).
    assert (Ht1 : mortgageTermYears (this_ s1) = term)
      by (rewrite <- Ht; apply Hsame).
    replace (i + S m)%nat with (S i + m)%nat by lia.
    apply (IH (S i) s1 s' Ht1); [|exact Hloop].
    unfold amortizing in Hamort. rewrite Ht in Hamort.
    destruct (Nat.ltb_spec i term) as [Hlt|Hge].
    + rewrite Nat.min_l in Hinv by lia.
      assert (Hpos : 0 < remaining s).
      { apply (amortized_owing P r (12 * term) Hr HP ltac:(lia)
                 (12 * i) (remaining s) (portions s)); [lia | exact Hinv]. }
      apply ltb_true in Hpos. rewrite Hpos in Hamort. cbn [andb] in Hamort.
      destruct Hamort as (payment & Hsome & Hrem & Hport).
      apply (f_equal (fun o => match o with Some q => q | None => 0 end)) in Hsome.
      cbn beta iota in Hsome. subst payment.
      rewrite Hrem, Hport. rewrite Nat.min_l by lia.
      replace (12 * S i)%nat with (12 * i + 12)%nat by lia.
      apply (monthLoop_amortized P r pay (12 * term) Hr HP ltac:(lia) Hpay 12
               (12 * i)
               (mkAmortization (remaining s) 0 0 (portions s)));
        [lia | exact Hinv].
    + cbn [andb] in Hamort. destruct Hamort as [Hrem Hport].
      rewrite Hrem, Hport.
      rewrite Nat.min_r in Hinv by lia. rewrite Nat.min_r by lia. exact Hinv.
Qed.

End YearLoopAmortization.

(** A loan with a positive principal, rate and term that ends within the
    horizon is paid off by its last payment: [12 * mortgageTermYears]
    principal portions were paid, they add up to the principal, and nothing
    remains. *)
Lemma House_amortizes (h : House) :
  0 < mortgage h ->
  0 < mortgageRate h ->
  (0 < mortgageTermYears h)%nat ->
  (mortgageTermYears h <= years (generalInformation (House_super h)))%nat ->
  exists s,
    House_run h = Ok s /\
    length (portions s) = (12 * mortgageTermYears h)%nat /\
    sumQ (portions s) == mortgage h /\
    remaining s == 0.
Proof.
  intros HP Hrate Hterm Hyears.
  set (r := monthlyRate h).
  set (n := (12 * mortgageTermYears h)%nat).
  assert (Hr : 0 < r).
  { unfold r, monthlyRate. apply Qlt_shift_div_l; lra. }
  assert (HA : 1 < Math_pow (1 + r) n)
    by (unfold Math_pow, n; apply Qpower_1_lt; [lra | lia]).
  assert (Hn : totalPayments h = n) by (unfold totalPayments, n; lia).
  assert (Hsome : exists pay,
             monthlyMortgagePayment h = Some pay /\
             pay * (Math_pow (1 + r) n - 1) == mortgage h * r * Math_pow (1 + r) n).
  { unfold monthlyMortgagePayment. fold r. rewrite Hn.
    apply ltb_true in HP. rewrite HP. unfold jsdiv.
    destruct (Qeq_bool (Math_pow (1 + r) n - 1) 0) eqn:E.
    - apply Qeq_bool_iff in E. lra.
    - eexists. split; [reflexivity|]. field. lra. }
  destruct Hsome as (pay & Hpay & Heq).
  destruct (House_calculateData_total h) as (s & Hrun & _);
    [left; rewrite Hpay; discriminate|].
  exists s. split; [exact Hrun|].
  unfold House_run in Hrun. fold r in Hrun. rewrite Hpay in Hrun.
  apply (House_loop_amortized (mortgage h) r pay (mortgageTermYears h)
           Hr HP Hterm Heq) in Hrun.
  - cbn [remaining portions Nat.add] in Hrun. rewrite Nat.min_r in Hrun by lia.
    apply (amortized_paid_off (mortgage h) r n Hr ltac:(unfold n; lia)) in Hrun.
    destruct Hrun as (H0 & Hsum & Hlen). now repeat split.
  - reflexivity.
  - cbn [remaining portions]. unfold amortized.
    replace (12 * Nat.min 0 (mortgageTermYears h))%nat with 0%nat by lia.
    rewrite Math_pow_0. split; [ring|]. split; [cbn; ring | reflexivity].
Qed.

(** C4.  For a house with a principal of 300000, a term of 30 years and an
    annual rate of 6%, in a horizon of at least 30 years, the month loop of
    [calculateData] runs 360 times; the 360 monthly principal portions add
    up to the principal and the remaining principal after the last one is
    0. *)
Theorem House_amortization_300k_30y_6pct (h : House) :
  mortgage h == 300000 ->
  mortgageTermYears h = 30%nat ->
  mortgageRate h == 0.06 ->
  (30 <= years (generalInformation (House_super h)))%nat ->
  exists s,
    House_run h = Ok s /\
    length (portions s) = 360%nat /\
    sumQ (portions s) == 300000 /\
    remaining s == 0.
Proof.
  intros HP Hterm Hrate Hyears.
  destruct (House_amortizes h) as (s & Hrun & Hlen & Hsum & Hrem).
  - rewrite HP. reflexivity.
  - rewrite Hrate. reflexivity.
  - lia.
  - lia.
  - exists s. rewrite Hterm in Hlen. rewrite HP in Hsum. now repeat split.
Qed.

Lemma House_amortization_300k_30y_6pct_witness :
  exists s,
    House_run loan300k = Ok s /\
    length (portions s) = 360%nat /\
    sumQ (portions s) == 300000 /\
    remaining s == 0.
Proof.
  apply (House_amortization_300k_30y_6pct loan300k).
  - reflexivity.
  - reflexivity.
  - reflexivity.
  - vm_compute. lia.
Defined.

(** ** Degenerate inputs *)

(** With a positive principal and a rate of zero, the payment formula
    divides 0 by 0. *)
Lemma House_zero_rate_payment (h : House) :
  0 < mortgage h -> mortgageRate h == 0 -> monthlyMortgagePayment h = None.
Proof.
  intros HP Hrate. unfold monthlyMortgagePayment.
  apply ltb_true in HP. rewrite HP. unfold jsdiv.
  assert (Hone : Math_pow (1 + monthlyRate h) (totalPayments h) - 1 == 0).
  { unfold Math_pow, monthlyRate.
    assert (Hbase : 1 + mortgageRate h / 12 == 1) by (rewrite Hrate; reflexivity).
    rewrite Hbase, Qpower_1. ring. }
  apply Qeq_bool_iff in Hone. rewrite Hone. reflexivity.
Qed.

(** Without a principal the payment is 0. *)
Lemma House_zero_principal_payment (h : House) :
  mortgage h == 0 -> monthlyMortgagePayment h = Some 0.
Proof.
  intro HP. unfold monthlyMortgagePayment.
  assert (H : ltb 0 (mortgage h) = false) by (apply ltb_false; lra).
  rewrite H. reflexivity.
Qed.

(** C2 fails for a zero mortgage rate: for a 300000 mortgage over 30 years
    at rate 0 the monthly payment is 0 / 0, which is not a finite number, and
    the costs of year 0, which add twelve such payments, are not finite
    either. *)
Theorem House_zero_rate_not_finite :
  monthlyMortgagePayment zeroRateHouse = None /\
  House_calculateData zeroRateHouse = Err NotFinite.
Proof.
  split.
  - apply House_zero_rate_payment; reflexivity.
  - vm_compute. reflexivity.
Qed.

(** The same happens for every positive principal at rate zero, as soon as
    the first year amortizes. *)
Lemma House_zero_rate_run (h : House) :
  0 < mortgage h ->
  mortgageRate h == 0 ->
  (0 < mortgageTermYears h)%nat ->
  (0 < years (generalInformation (House_super h)))%nat ->
  House_calculateData h = Err NotFinite.
Proof.
  intros HP Hrate Hterm Hyears.
  unfold House_calculateData, House_run.
  rewrite (House_zero_rate_payment h HP Hrate).
  destruct (years (generalInformation (House_super h))) as [|n]; [lia|].
  cbn [House_loop]. unfold House_year at 1. cbn [this_ remaining].
  apply ltb_true in HP. rewrite HP.
  destruct (mortgageTermYears h) as [|t]; [lia|]. reflexivity.
Qed.

(** The accumulation formula on degenerate inputs: without contributions
    the balance only compounds, and at a return of zero it only collects the
    contributions. *)
Lemma accumulation_zero_contribution (this : Investment.GenericInvestment)
    (i : nat) :
  Investment.monthlyContribution this == 0 ->
  accumulation this i
  == Investment.amount this * Math_pow (1 + Investment.annualRate this) (S i).
Proof.
  intro Hc. induction i as [|i IH]; cbn [accumulation].
  - rewrite Hc, Math_pow_S, Math_pow_0. ring.
  - rewrite IH, Hc, (Math_pow_S _ (S i)). ring.
Qed.

Lemma accumulation_zero_rate (this : Investment.GenericInvestment) (i : nat) :
  Investment.annualRate this == 0 ->
  accumulation this i
  == Investment.amount this
     + Investment.monthlyContribution this * 12 * inject_Z (Z.of_nat (S i)).
Proof.
  intro Hr. induction i as [|i IH]; cbn [accumulation].
  - rewrite Hr. change (inject_Z (Z.of_nat 1)) with 1. ring.
  - rewrite IH, Hr. rewrite (Nat2Z.inj_succ (S i)). unfold Z.succ.
    rewrite inject_Z_plus. change (inject_Z 1) with 1. ring.
Qed.

(** ** Running [calculateData] twice *)




Lemma House_calculateData_run (h h' : House) :
  House_calculateData h = Ok h' ->
  exists s, House_run h = Ok s /\ h' = this_ s.
Proof.
  unfold House_calculateData. intro H.
  destruct (House_run h) as [s|e]; [|discriminate H].
  cbn [bind] in H. apply Ok_inj in H. now exists s.
Qed.

Lemma Apartment_loop_inv (n : nat) :
  forall i s,
    (i <= length (Apartment_data (fst s)))%nat ->
    exists s' new,
      Apartment_loop n i s = Ok s' /\
      Apartment_data (fst s') = Apartment_data (fst s) ++ new /\
      length new = n /\
      generalInformation (Apartment_super (fst s'))
      = generalInformation (Apartment_super (fst s)) /\
      monthlyRent (fst s') = monthlyRent (fst s).
Proof.
  induction n as [|n IH]; intros i [this rent] Hlen.
  - exists (this, rent), []. cbn [Apartment_loop fst].
    rewrite app_nil_r. now repeat split.
  - cbn [Apartment_loop]. unfold Apartment_year at 1.
    cbn [fst] in Hlen. unfold Apartment_data in Hlen.
    match goal with
    | |- context [cumulate ?d ?k ?c] =>
        destruct (cumulate_total d k c Hlen) as [t Ht]; rewrite Ht
    end.
    cbn [bind].
    match goal with
    | |- context [Apartment_loop n (S i) ?s1] =>
        destruct (IH (S i) s1) as (s' & new & Hloop & Hdata & Hlen' & Hg & Hrent)
    end.
    { cbn [fst]. unfold Apartment_data.
      cbn [Apartment_super housingData]. rewrite length_app. simpl. lia. }
    exists s'. eexists. split; [exact Hloop|].
    cbn [fst] in Hdata, Hg, Hrent |- *. unfold Apartment_data in Hdata |- *.
    cbn [Apartment_super housingData generalInformation monthlyRent] in Hdata, Hg, Hrent.
    split; [rewrite Hdata, <- app_assoc; reflexivity|].
    split; [cbn [length app]; now rewrite Hlen'|]. now split.
Qed.

Lemma Apartment_calculateData_appends (a : Apartment) :
  exists a' new,
    Apartment_calculateData a = Ok a' /\
    Apartment_data a' = Apartment_data a ++ new /\
    length new = years (generalInformation (Apartment_super a)) /\
    generalInformation (Apartment_super a')
    = generalInformation (Apartment_super a).
Proof.
  destruct (Apartment_loop_inv (years (generalInformation (Apartment_super a)))
              0 (a, monthlyRent a))
    as (s' & new & Hloop & Hdata & Hlen & Hg & _); [lia|].
  exists (fst s'), new. unfold Apartment_calculateData. rewrite Hloop.
  cbn [bind]. now repeat split.
Qed.




(** ** Investments *)

Import Investment.

Lemma nth_error_app_Some {A : Type} (l extra : list A) (k : nat) (a : A) :
  nth_error l k = Some a -> nth_error (l ++ extra) k = Some a.
Proof.
  intro H. rewrite nth_error_app1; [exact H|].
  apply nth_error_Some. congruence.
Qed.

Lemma index_app {A : Type} (l extra : list A) (k : nat) (a : A) :
  index l k = Ok a -> index (l ++ extra) k = Ok a.
Proof.
  rewrite !index_Ok. apply nth_error_app_Some.
Qed.

Lemma bind_Ok {A B : Type} (r : result A) (k : A -> result B) (b : B) :
  bind r k = Ok b -> exists a, r = Ok a /\ k a = Ok b.
Proof.
  destruct r as [a|e]; cbn [bind]; intro H; [now exists a | discriminate H].
Qed.

Lemma extend_extend (this : GenericInvestment) (l1 l2 : list InvestmentYear) :
  extend (extend this l1) l2 = extend this (l1 ++ l2).
Proof.
  unfold extend. cbn [generalInformation amount annualRate monthlyContribution
    investmentData]. now rewrite app_assoc.
Qed.

Lemma extend_nil (this : GenericInvestment) : extend this [] = this.
Proof.
  destruct this. unfold extend. cbn [generalInformation amount annualRate
    monthlyContribution investmentData]. now rewrite app_nil_r.
Qed.

Lemma push_extend (this : GenericInvestment) (y : InvestmentYear) :
  push this y = extend this [y].
Proof. reflexivity. Qed.

(** Records pushed later do not change what a year has read. *)
Lemma previousValue_extend (this : GenericInvestment)
    (extra : list InvestmentYear) (i j : nat) (v : Q) :
  previousValue this i j = Ok v -> previousValue (extend this extra) i j = Ok v.
Proof.
  unfold previousValue. cbn [extend amount investmentData].
  destruct (i =? 0)%nat; [trivial|].
  intro H. apply bind_Ok in H. destruct H as (prev & Hprev & Hv).
  rewrite (index_app _ extra _ _ Hprev). cbn [bind]. exact Hv.
Qed.

Lemma currentValue_extend (w : Q -> Q) (c : option Q) (this : GenericInvestment)
    (extra : list InvestmentYear) (housing : Housing.GenericHousing)
    (le : Living.LivingExpenses) (i j : nat) (v : Q) :
  currentValue w c this housing le i j = Ok v ->
  currentValue w c (extend this extra) housing le i j = Ok v.
Proof.
  unfold currentValue.
  cbn [extend generalInformation annualRate monthlyContribution].
  destruct (preRetirement (generalInformation this) i).
  - intro H. apply bind_Ok in H. destruct H as (prev & Hprev & Hv).
    rewrite (previousValue_extend this extra i j prev Hprev). exact Hv.
  - intro H. apply bind_Ok in H. destruct H as (u & Hu & H). rewrite Hu.
    cbn [bind]. apply bind_Ok in H. destruct H as (prev & Hprev & Hv).
    rewrite (previousValue_extend this extra i j prev Hprev). exact Hv.
Qed.

(** The values of a year: one per scenario, each computed by the loop
    body at its index. *)
Lemma scenarioLoop_inv (w : Q -> Q) (c : option Q) (this : GenericInvestment)
    (le : Living.LivingExpenses) (i : nat) (hs : list Housing.GenericHousing) :
  forall j0 values,
    scenarioLoop w c this hs le i j0 = Ok values ->
    length values = length hs /\
    forall k v,
      nth_error values k = Some v ->
      exists housing,
        nth_error hs k = Some housing /\
        currentValue w c this housing le i (j0 + k) = Ok v.
Proof.
  induction hs as [|housing rest IH]; intros j0 values H; cbn [scenarioLoop] in H.
  - apply Ok_inj in H. subst values. split; [reflexivity|].
    intros [|k] v Hk; discriminate Hk.
  - apply bind_Ok in H. destruct H as (v0 & Hv0 & H).
    apply bind_Ok in H. destruct H as (vs & Hvs & H).
    apply Ok_inj in H. subst values.
    destruct (IH (S j0) vs Hvs) as [Hlen Hnth].
    split; [cbn [length]; now rewrite Hlen|].
    intros [|k] v Hk; cbn [nth_error] in Hk |- *.
    + apply (f_equal (fun o => match o with Some q => q | None => v0 end)) in Hk.
      cbn beta iota in Hk. subst v.
      exists housing. rewrite Nat.add_0_r. now split.
    + destruct (Hnth k v Hk) as (housing' & Hh & Hcv).
      exists housing'. split; [exact Hh|].
      replace (j0 + S k)%nat with (S j0 + k)%nat by lia. exact Hcv.
Qed.

(** The records of a run: the object is extended by at most one record per
    year (exactly one when the run completes), and every value recorded for
    year [i + k], scenario [j], is the loop body's value there, read on the
    final object. *)
Lemma yearLoop_inv (w : Q -> Q) (hc : nat -> result (option Q))
    (hs : list Housing.GenericHousing) (le : Living.LivingExpenses) (n : nat) :
  forall i this this' c,
    yearLoop w hc hs le n i this = (this', c) ->
    exists new,
      this' = extend this new /\
      (length new <= n)%nat /\
      (c = Completed -> length new = n) /\
      forall k record,
        nth_error new k = Some record ->
        age record = (startAge (generalInformation this) + Z.of_nat (i + k))%Z /\
        length (value record) = length hs /\
        exists cost,
          hc (i + k)%nat = Ok cost /\
          forall j v,
            nth_error (value record) j = Some v ->
            exists housing,
              nth_error hs j = Some housing /\
              currentValue w cost this' housing le (i + k) j = Ok v.
Proof.
  induction n as [|n IH]; intros i this this' c H; cbn [yearLoop] in H.
  - injection H as <- <-. exists []. rewrite extend_nil.
    split; [reflexivity|]. split; [cbn; lia|]. split; [reflexivity|].
    intros [|k] record Hk; discriminate Hk.
  - destruct (bind (hc i) (fun c0 => scenarioLoop w c0 this hs le i 0))
      as [values|e] eqn:E.
    + apply IH in H. destruct H as (new & Hext & Hle & Hcompl & Hnew).
      rewrite push_extend, extend_extend in Hext. cbn [app] in Hext.
      eexists. split; [exact Hext|]. split; [cbn [length]; lia|].
      split; [intro Hc; cbn [length]; now rewrite (Hcompl Hc)|].
      intros [|k] record Hk; cbn [nth_error] in Hk.
      * apply (f_equal (fun o => match o with
                                 | Some y => y
                                 | None => mkInvestmentYear 0 []
                                 end)) in Hk.
        cbn beta iota in Hk. subst record. cbn [age value].
        rewrite Nat.add_0_r. split; [reflexivity|].
        apply bind_Ok in E. destruct E as (cost & Hcost & Hloop).
        destruct (scenarioLoop_inv w cost this le i hs 0 values Hloop)
          as [Hlen Hvals].
        split; [exact Hlen|]. exists cost. split; [exact Hcost|].
        intros j v Hj. destruct (Hvals j v Hj) as (housing & Hh & Hcv).
        exists housing. split; [exact Hh|]. rewrite Hext.
        apply currentValue_extend. exact Hcv.
      * destruct (Hnew k record Hk) as (Hage & Hlen & cost & Hcost & Hvals).
        cbn [push generalInformation] in Hage.
        replace (i + S k)%nat with (S i + k)%nat by lia.
        split; [exact Hage|]. split; [exact Hlen|].
        exists cost. split; [exact Hcost|]. exact Hvals.
    + injection H as <- <-. exists []. rewrite extend_nil.
      split; [reflexivity|]. split; [cbn; lia|]. split; [discriminate|].
      intros [|k] record Hk; discriminate Hk.
Qed.

Lemma ltb_compat (a a' b b' : Q) : a == a' -> b == b' -> ltb a b = ltb a' b'.
Proof.
  intros Ha Hb. unfold ltb. f_equal. now apply Qleb_comp.
Qed.

(** The loop body before retirement. *)
Lemma currentValue_accumulation (w : Q -> Q) (c : option Q)
    (this : GenericInvestment) (housing : Housing.GenericHousing)
    (le : Living.LivingExpenses) (i j : nat) (v : Q) :
  preRetirement (generalInformation this) i = true ->
  currentValue w c this housing le i j = Ok v ->
  exists prev,
    previousValue this i j = Ok prev /\
    v = (prev + monthlyContribution this * 12) * (1 + annualRate this).
Proof.
  unfold currentValue. intros Hpre H. rewrite Hpre in H.
  apply bind_Ok in H. destruct H as (prev & Hprev & Hv).
  apply Ok_inj in Hv. now exists prev.
Qed.

(** The loop body from retirement on. *)
Lemma currentValue_drawdown (w : Q -> Q) (c : option Q)
    (this : GenericInvestment) (housing : Housing.GenericHousing)
    (le : Living.LivingExpenses) (i j : nat) (v : Q) :
  preRetirement (generalInformation this) i = false ->
  currentValue w c this housing le i j = Ok v ->
  exists prev h l,
    previousValue this i j = Ok prev /\
    nth_error (Housing.housingData housing) i = Some h /\
    nth_error (Living.expensesData le) i = Some l /\
    v = (prev
         + w (match c with
              | Some cost =>
                  Housing.yearlyCosts h + Living.yearlySpending l + cost
                  - socialSecurity (generalInformation this) * 12
                  - otherRetirementIncome (generalInformation this) * 12
              | None =>
                  Housing.yearlyCosts h + Living.yearlySpending l
                  - socialSecurity (generalInformation this) * 12
                  - otherRetirementIncome (generalInformation this) * 12
              end))
        * (1 + annualRate this).
Proof.
  unfold currentValue, uncoveredLivingCosts. intros Hpre H. rewrite Hpre in H.
  apply bind_Ok in H. destruct H as (u & Hu & H).
  apply bind_Ok in Hu. destruct Hu as (h & Hh & Hu).
  apply bind_Ok in Hu. destruct Hu as (l & Hl & Hu).
  apply Ok_inj in Hu. subst u.
  apply bind_Ok in H. destruct H as (prev & Hprev & Hv).
  apply Ok_inj in Hv. apply index_Ok in Hh. apply index_Ok in Hl.
  now exists prev, h, l.
Qed.

(** The records of a run on a newly constructed account. *)
Lemma yearLoop_fresh (w : Q -> Q) (hc : nat -> result (option Q))
    (hs : list Housing.GenericHousing) (le : Living.LivingExpenses) (n : nat)
    (this this' : GenericInvestment) (c : completion) :
  investmentData this = [] ->
  yearLoop w hc hs le n 0 this = (this', c) ->
  generalInformation this' = generalInformation this /\
  amount this' = amount this /\
  annualRate this' = annualRate this /\
  monthlyContribution this' = monthlyContribution this /\
  (c = Completed -> length (investmentData this') = n) /\
  forall i record,
    nth_error (investmentData this') i = Some record ->
    age record = (startAge (generalInformation this) + Z.of_nat i)%Z /\
    length (value record) = length hs /\
    exists cost,
      hc i = Ok cost /\
      forall j v,
        nth_error (value record) j = Some v ->
        exists housing,
          nth_error hs j = Some housing /\
          currentValue w cost this' housing le i j = Ok v.
Proof.
  intros Hfresh H. apply yearLoop_inv in H.
  destruct H as (new & -> & _ & Hcompl & Hnew).
  unfold extend. cbn [generalInformation amount annualRate monthlyContribution
    investmentData]. rewrite Hfresh. cbn [app].
  repeat split; try assumption.
  - destruct (Hnew i record H) as (Hage & _). exact Hage.
  - destruct (Hnew i record H) as (_ & Hlen & _). exact Hlen.
  - destruct (Hnew i record H) as (_ & _ & cost & Hcost & Hvals).
    exists cost. split; [exact Hcost|]. intros j v Hj.
    destruct (Hvals j v Hj) as (housing & Hh & Hcv).
    exists housing. split; [exact Hh|].
    unfold extend in Hcv. rewrite Hfresh in Hcv. exact Hcv.
Qed.

Lemma preRetirement_earlier (g : GeneralInformation) (i : nat) :
  preRetirement g (S i) = true -> preRetirement g i = true.
Proof.
  unfold preRetirement. rewrite !Z.ltb_lt. lia.
Qed.

(** Before retirement every scenario holds the accumulated balance, which
    depends on the account alone. *)
Lemma accumulation_phase (w : Q -> Q) (hc : nat -> result (option Q))
    (hs : list Housing.GenericHousing) (le : Living.LivingExpenses) (n : nat)
    (this this' : GenericInvestment) (c : completion) :
  investmentData this = [] ->
  yearLoop w hc hs le n 0 this = (this', c) ->
  forall i record j v,
    nth_error (investmentData this') i = Some record ->
    preRetirement (generalInformation this) i = true ->
    nth_error (value record) j = Some v ->
    v = accumulation this i.
Proof.
  intros Hfresh Hrun.
  destruct (yearLoop_fresh w hc hs le n this this' c Hfresh Hrun)
    as (Hg & Ha & Hr & Hm & _ & Hrec).
  induction i as [|i IH]; intros record j v Hi Hpre Hj.
  - destruct (Hrec 0%nat record Hi) as (_ & _ & cost & _ & Hvals).
    destruct (Hvals j v Hj) as (housing & _ & Hcv).
    apply currentValue_accumulation in Hcv; [|now rewrite Hg].
    destruct Hcv as (prev & Hprev & ->).
    unfold previousValue in Hprev. cbn [Nat.eqb] in Hprev.
    apply Ok_inj in Hprev. subst prev.
    cbn [accumulation]. now rewrite Ha, Hr, Hm.
  - destruct (Hrec (S i) record Hi) as (_ & _ & cost & _ & Hvals).
    destruct (Hvals j v Hj) as (housing & _ & Hcv).
    apply currentValue_accumulation in Hcv; [|now rewrite Hg].
    destruct Hcv as (prev & Hprev & ->).
    unfold previousValue in Hprev. cbn [Nat.eqb] in Hprev.
    apply bind_Ok in Hprev. destruct Hprev as (before & Hbefore & Hprev).
    replace (S i - 1)%nat with i in Hbefore by lia.
    apply index_Ok in Hbefore.
    destruct (nth_error (value before) j) as [p|] eqn:Ep; [|discriminate Hprev].
    apply Ok_inj in Hprev. subst p.
    rewrite (IH before j prev Hbefore (preRetirement_earlier _ _ Hpre) Ep).
    cbn [accumulation]. now rewrite Hr, Hm.
Qed.

(** *** Scenarios are independent *)

Lemma uncoveredLivingCosts_agree (g : GeneralInformation)
    (h1 h2 : Housing.GenericHousing) (le : Living.LivingExpenses)
    (c : option Q) (i : nat) :
  option_map Housing.yearlyCosts (nth_error (Housing.housingData h1) i)
  = option_map Housing.yearlyCosts (nth_error (Housing.housingData h2) i) ->
  uncoveredLivingCosts g h1 le c i = uncoveredLivingCosts g h2 le c i.
Proof.
  unfold uncoveredLivingCosts, index. intro H.
  destruct (nth_error (Housing.housingData h1) i) as [y1|];
    destruct (nth_error (Housing.housingData h2) i) as [y2|];
    cbn [option_map] in H; try discriminate H; [|reflexivity].
  cbn [bind].
  apply (f_equal (fun o => match o with Some q => q | None => 0 end)) in H.
  cbn beta iota in H. now rewrite H.
Qed.

Lemma scenarioLoop_agree (w : Q -> Q) (c : option Q) (this : GenericInvestment)
    (le : Living.LivingExpenses) (i : nat)
    (hs1 hs2 : list Housing.GenericHousing) :
  Forall2
    (fun h1 h2 =>
       option_map Housing.yearlyCosts (nth_error (Housing.housingData h1) i)
       = option_map Housing.yearlyCosts (nth_error (Housing.housingData h2) i))
    hs1 hs2 ->
  forall j, scenarioLoop w c this hs1 le i j = scenarioLoop w c this hs2 le i j.
Proof.
  induction 1 as [|h1 h2 rest1 rest2 Hh _ IH]; intro j; cbn [scenarioLoop].
  - reflexivity.
  - unfold currentValue.
    rewrite (uncoveredLivingCosts_agree _ h1 h2 le c i Hh), (IH (S j)).
    reflexivity.
Qed.

Lemma yearLoop_agree (w : Q -> Q) (hc : nat -> result (option Q))
    (le : Living.LivingExpenses) (k : nat)
    (hs1 hs2 : list Housing.GenericHousing) (n : nat) :
  sameCostsBefore k hs1 hs2 ->
  forall i this,
    (i <= length (investmentData this))%nat ->
    forall m, (m < k)%nat ->
      nth_error (investmentData (fst (yearLoop w hc hs1 le n i this))) m
      = nth_error (investmentData (fst (yearLoop w hc hs2 le n i this))) m.
Proof.
  intro Hsame. induction n as [|n IH]; intros i this Hlen m Hm.
  - reflexivity.
  - destruct (Nat.lt_ge_cases i k) as [Hik|Hki].
    + cbn [yearLoop].
      assert (Hyear : forall c0,
                 scenarioLoop w c0 this hs1 le i 0
                 = scenarioLoop w c0 this hs2 le i 0).
      { intro c0. apply scenarioLoop_agree.
        unfold sameCostsBefore in Hsame.
        eapply Forall2_impl; [|exact Hsame].
        intros h1 h2 Hh. apply Hh. exact Hik. }
      destruct (hc i) as [c0|e]; cbn [bind]; [|reflexivity].
      rewrite (Hyear c0).
      destruct (scenarioLoop w c0 this hs2 le i 0) as [values|e];
        [|reflexivity].
      apply IH; [|exact Hm].
      cbn [push investmentData]. rewrite length_app. cbn [length]. lia.
    + destruct (yearLoop w hc hs1 le (S n) i this) as [t1 c1] eqn:E1.
      destruct (yearLoop w hc hs2 le (S n) i this) as [t2 c2] eqn:E2.
      apply yearLoop_inv in E1. destruct E1 as (new1 & -> & _).
      apply yearLoop_inv in E2. destruct E2 as (new2 & -> & _).
      cbn [fst extend investmentData].
      rewrite !nth_error_app1 by lia. reflexivity.
Qed.

(** C3.  In a run of [NonTaxableInvestment.calculateData] on a newly
    constructed account, the record of every year [i] before retirement
    ([startAge + i < retirementAge]) holds one balance per housing scenario
    and these balances are pairwise equal.  And two runs whose lists of
    scenarios have the same housing costs in every year before year [k]
    leave the same record for every year before [k]. *)
Theorem NonTaxable_scenarios_independent :
  (forall (this this' : NonTaxableInvestment)
          (housingCosts : list Housing.GenericHousing)
          (livingExpenses : Living.LivingExpenses)
          (healthcare : option Healthcare.HealthcareCosts)
          (c : completion) (i : nat) (record : InvestmentYear),
      investmentData this = [] ->
      NonTaxable_calculateData this housingCosts livingExpenses healthcare
      = (this', c) ->
      nth_error (investmentData this') i = Some record ->
      (startAge (generalInformation this) + Z.of_nat i
       < retirementAge (generalInformation this))%Z ->
      length (value record) = length housingCosts /\
      forall j j' v v',
        nth_error (value record) j = Some v ->
        nth_error (value record) j' = Some v' ->
        v = v') /\
  (forall (this : NonTaxableInvestment)
          (housingCosts1 housingCosts2 : list Housing.GenericHousing)
          (livingExpenses : Living.LivingExpenses)
          (healthcare : option Healthcare.HealthcareCosts)
          (k i : nat),
      sameCostsBefore k housingCosts1 housingCosts2 ->
      (i < k)%nat ->
      nth_error
        (investmentData
           (fst (NonTaxable_calculateData this housingCosts1 livingExpenses
                   healthcare))) i
      = nth_error
          (investmentData
             (fst (NonTaxable_calculateData this housingCosts2 livingExpenses
                     healthcare))) i).
Proof.
  split.
  - intros this this' hs le healthcare c i record Hfresh Hrun Hi Hage.
    unfold NonTaxable_calculateData in Hrun.
    assert (Hpre : preRetirement (generalInformation this) i = true)
      by (unfold preRetirement; apply Z.ltb_lt; lia).
    split.
    + destruct (yearLoop_fresh _ _ _ _ _ _ _ _ Hfresh Hrun)
        as (_ & _ & _ & _ & _ & Hrec).
      apply (Hrec i record Hi).
    + intros j j' v v' Hj Hj'.
      rewrite (accumulation_phase _ _ _ _ _ _ _ _ Hfresh Hrun i record j v Hi Hpre Hj).
      rewrite (accumulation_phase _ _ _ _ _ _ _ _ Hfresh Hrun i record j' v' Hi Hpre Hj').
      reflexivity.
  - intros this hs1 hs2 le healthcare k i Hsame Hi.
    unfold NonTaxable_calculateData.
    apply (yearLoop_agree _ _ le k hs1 hs2 _ Hsame 0%nat this); [lia | exact Hi].
Qed.

Lemma NonTaxable_scenarios_independent_witness :
  (exists this' record v,
      NonTaxable_calculateData rothAccount [rentScenario; houseScenario]
        twoYearsLiving None = (this', Completed) /\
      nth_error (investmentData this') 0 = Some record /\
      value record = [v; v]) /\
  nth_error
    (investmentData
       (fst (NonTaxable_calculateData rothAccount [rentScenario; houseScenario]
               twoYearsLiving None))) 0
  = nth_error
      (investmentData
         (fst (NonTaxable_calculateData rothAccount
                 [rentScenario; dearHouseScenario] twoYearsLiving None))) 0.
Proof.
  destruct NonTaxable_scenarios_independent as [Hequal Hprefix].
  split.
  - destruct (NonTaxable_calculateData rothAccount [rentScenario; houseScenario]
                twoYearsLiving None) as [this' c] eqn:Hrun.
    destruct (nth_error (investmentData this') 0) as [record|] eqn:Hrec;
      [|vm_compute in Hrun; injection Hrun as <- <-; discriminate Hrec].
    assert (Hc : c = Completed)
      by (vm_compute in Hrun; injection Hrun as _ <-; reflexivity).
    destruct (Hequal rothAccount this' [rentScenario; houseScenario]
                twoYearsLiving None c 0%nat record eq_refl Hrun Hrec)
      as [Hlen Hsame]; [vm_compute; reflexivity|].
    destruct (value record) as [|v [|v' [|v'' rest]]] eqn:Hval;
      try discriminate Hlen.
    exists this', record, v. rewrite Hc. split; [reflexivity|].
    split; [exact Hrec|]. rewrite Hval.
    now rewrite (Hsame 1%nat 0%nat v' v eq_refl eq_refl).
  - apply (Hprefix rothAccount [rentScenario; houseScenario]
             [rentScenario; dearHouseScenario] twoYearsLiving None 1%nat 0%nat).
    + constructor; [|constructor; [|constructor]];
        intros [|i] Hi; solve [reflexivity | lia].
    + lia.
Defined.

(** *** Withdrawals *)

Lemma healthcareCostOf_term (healthcare : option Healthcare.HealthcareCosts)
    (i : nat) (cost : option Q) :
  healthcareCostOf healthcare i = Ok cost ->
  exists c, cost = Some c /\ healthcareTerm healthcare i = Some c.
Proof.
  unfold healthcareCostOf, healthcareTerm, index.
  destruct healthcare as [hc|].
  - destruct (nth_error (Healthcare.healthcareData hc) i) as [y|];
      cbn [bind option_map]; intro H; [|discriminate H].
    apply Ok_inj in H. subst cost. now eexists.
  - intro H. apply Ok_inj in H. subst cost. now eexists.
Qed.

(** C5.  In a run of either variant on a newly constructed account, every
    balance recorded for year [i] and scenario [j] comes from the previous
    balance [prev] (the starting amount in year 0, else the balance of year
    [i - 1] in the same scenario).  Before retirement both variants record
    [(prev + monthlyContribution * 12) * (1 + annualRate)].  From retirement
    on, with [shortfall] the year's housing and living costs (plus
    healthcare costs, in the non-taxable variant) minus twelve times the
    monthly social-security and other income, the taxable variant records
    [(prev - shortfall * (1 + taxRate)) * (1 + annualRate)] and the
    non-taxable variant [(prev - shortfall) * (1 + annualRate)] when the
    shortfall is positive, and both record [prev * (1 + annualRate)], a
    withdrawal of 0, when it is not. *)
Theorem drawdown_withdrawals :
  (forall (this this' : TaxableInvestment)
          (housingCosts : list Housing.GenericHousing)
          (livingExpenses : Living.LivingExpenses)
          (c : completion) (i j : nat) (record : InvestmentYear) (v : Q),
      investmentData (super this) = [] ->
      Taxable_calculateData this housingCosts livingExpenses = (this', c) ->
      nth_error (investmentData (super this')) i = Some record ->
      nth_error (value record) j = Some v ->
      let g := generalInformation (super this) in
      exists prev,
        previousValue (super this') i j = Ok prev /\
        if preRetirement g i
        then v = (prev + monthlyContribution (super this) * 12)
                 * (1 + annualRate (super this))
        else
          exists housing h l,
            nth_error housingCosts j = Some housing /\
            nth_error (Housing.housingData housing) i = Some h /\
            nth_error (Living.expensesData livingExpenses) i = Some l /\
            let s := shortfall g (Housing.yearlyCosts h)
                       (Living.yearlySpending l) 0 in
            v == (prev + (if ltb 0 s then - (s * (1 + taxRate this)) else 0))
                 * (1 + annualRate (super this))) /\
  (forall (this this' : NonTaxableInvestment)
          (housingCosts : list Housing.GenericHousing)
          (livingExpenses : Living.LivingExpenses)
          (healthcare : option Healthcare.HealthcareCosts)
          (c : completion) (i j : nat) (record : InvestmentYear) (v : Q),
      investmentData this = [] ->
      NonTaxable_calculateData this housingCosts livingExpenses healthcare
      = (this', c) ->
      nth_error (investmentData this') i = Some record ->
      nth_error (value record) j = Some v ->
      let g := generalInformation this in
      exists prev,
        previousValue this' i j = Ok prev /\
        if preRetirement g i
        then v = (prev + monthlyContribution this * 12) * (1 + annualRate this)
        else
          exists housing h l healthcareCost,
            nth_error housingCosts j = Some housing /\
            nth_error (Housing.housingData housing) i = Some h /\
            nth_error (Living.expensesData livingExpenses) i = Some l /\
            healthcareTerm healthcare i = Some healthcareCost /\
            let s := shortfall g (Housing.yearlyCosts h)
                       (Living.yearlySpending l) healthcareCost in
            v == (prev + (if ltb 0 s then - s else 0)) * (1 + annualRate this)).
Proof.
  split.
  - intros this this' hs le c i j record v Hfresh Hrun Hi Hj g.
    unfold Taxable_calculateData in Hrun.
    destruct (yearLoop (Taxable_withdrawals (taxRate this)) (fun _ => Ok None)
                hs le (years (generalInformation (super this))) 0 (super this))
      as [s0 c0] eqn:Hloop.
    injection Hrun as <- <-. cbn [super] in Hi |- *.
    destruct (yearLoop_fresh _ _ _ _ _ _ _ _ Hfresh Hloop)
      as (Hg & _ & Hr & Hm & _ & Hrec).
    destruct (Hrec i record Hi) as (_ & _ & cost & Hcost & Hvals).
    apply Ok_inj in Hcost. subst cost.
    destruct (Hvals j v Hj) as (housing & Hh & Hcv).
    fold g in Hg. destruct (preRetirement g i) eqn:Hpre.
    + apply currentValue_accumulation in Hcv; [|now rewrite Hg].
      destruct Hcv as (prev & Hprev & ->). exists prev.
      split; [exact Hprev | now rewrite Hr, Hm].
    + apply currentValue_drawdown in Hcv; [|now rewrite Hg].
      destruct Hcv as (prev & h & l & Hprev & Hhd & Hl & ->).
      exists prev. split; [exact Hprev|]. exists housing, h, l.
      repeat (split; [assumption|]). rewrite Hg, Hr.
      unfold Taxable_withdrawals, shortfall.
      rewrite (ltb_compat 0 0
                 (Housing.yearlyCosts h + Living.yearlySpending l
                  - socialSecurity g * 12 - otherRetirementIncome g * 12)
                 (Housing.yearlyCosts h + Living.yearlySpending l + 0
                  - socialSecurity g * 12 - otherRetirementIncome g * 12));
        [|reflexivity | ring].
      cbv zeta. destruct (ltb 0 _); ring.
  - intros this this' hs le healthcare c i j record v Hfresh Hrun Hi Hj g.
    unfold NonTaxable_calculateData in Hrun.
    destruct (yearLoop_fresh _ _ _ _ _ _ _ _ Hfresh Hrun)
      as (Hg & _ & Hr & Hm & _ & Hrec).
    destruct (Hrec i record Hi) as (_ & _ & cost & Hcost & Hvals).
    apply healthcareCostOf_term in Hcost.
    destruct Hcost as (hcost & -> & Hterm).
    destruct (Hvals j v Hj) as (housing & Hh & Hcv).
    fold g in Hg. destruct (preRetirement g i) eqn:Hpre.
    + apply currentValue_accumulation in Hcv; [|now rewrite Hg].
      destruct Hcv as (prev & Hprev & ->). exists prev.
      split; [exact Hprev | now rewrite Hr, Hm].
    + apply currentValue_drawdown in Hcv; [|now rewrite Hg].
      destruct Hcv as (prev & h & l & Hprev & Hhd & Hl & ->).
      exists prev. split; [exact Hprev|]. exists housing, h, l, hcost.
      repeat (split; [assumption|]). rewrite Hg, Hr.
      unfold NonTaxable_withdrawals, shortfall. cbv zeta.
      destruct (ltb 0 _); ring.
Qed.

Lemma drawdown_withdrawals_witness :
  (exists this' record v,
      Taxable_calculateData brokerageAccount [rentScenario; houseScenario]
        twoYearsLiving = (this', Completed) /\
      nth_error (investmentData (super this')) 1 = Some record /\
      nth_error (value record) 1 = Some v /\
      v == (59920 - 86000 * (1 + 0.20)) * (1 + 0.07)) /\
  (exists this' record v,
      NonTaxable_calculateData rothAccount [rentScenario; houseScenario]
        twoYearsLiving None = (this', Completed) /\
      nth_error (investmentData this') 1 = Some record /\
      nth_error (value record) 1 = Some v /\
      v == (59920 - 86000) * (1 + 0.07)).
Proof.
  destruct drawdown_withdrawals as [Htaxable Hroth].
  split.
  - destruct (Taxable_calculateData brokerageAccount
                [rentScenario; houseScenario] twoYearsLiving)
      as [this' c] eqn:Hrun.
    pose proof Hrun as Heval. vm_compute in Heval.
    injection Heval as Hthis Hc.
    destruct (nth_error (investmentData (super this')) 1) as [record|] eqn:Hrec;
      [|rewrite <- Hthis in Hrec; discriminate Hrec].
    destruct (nth_error (value record) 1) as [v|] eqn:Hv;
      [|rewrite <- Hthis in Hrec; injection Hrec as <-; discriminate Hv].
    destruct (Htaxable brokerageAccount this' _ _ c 1%nat 1%nat record v
                eq_refl Hrun Hrec Hv) as (prev & Hprev & Hdraw).
    change (preRetirement
              (generalInformation (super brokerageAccount)) 1) with false in Hdraw.
    destruct Hdraw as (housing & h & l & Hh & Hhd & Hl & Heq).
    injection Hh as <-. injection Hhd as <-. injection Hl as <-.
    rewrite <- Hthis in Hprev. vm_compute in Hprev. apply Ok_inj in Hprev.
    subst prev.
    exists this', record, v. rewrite <- Hc.
    split; [reflexivity|]. split; [exact Hrec|]. split; [exact Hv|].
    cbv zeta in Heq. apply (Qeq_trans _ _ _ Heq). vm_compute. reflexivity.
  - destruct (NonTaxable_calculateData rothAccount
                [rentScenario; houseScenario] twoYearsLiving None)
      as [this' c] eqn:Hrun.
    pose proof Hrun as Heval. vm_compute in Heval.
    injection Heval as Hthis Hc.
    destruct (nth_error (investmentData this') 1) as [record|] eqn:Hrec;
      [|rewrite <- Hthis in Hrec; discriminate Hrec].
    destruct (nth_error (value record) 1) as [v|] eqn:Hv;
      [|rewrite <- Hthis in Hrec; injection Hrec as <-; discriminate Hv].
    destruct (Hroth rothAccount this' _ _ None c 1%nat 1%nat record v
                eq_refl Hrun Hrec Hv) as (prev & Hprev & Hdraw).
    change (preRetirement (generalInformation rothAccount) 1) with false in Hdraw.
    destruct Hdraw as (housing & h & l & hcost & Hh & Hhd & Hl & Hterm & Heq).
    injection Hh as <-. injection Hhd as <-. injection Hl as <-.
    injection Hterm as <-.
    rewrite <- Hthis in Hprev. vm_compute in Hprev. apply Ok_inj in Hprev.
    subst prev.
    exists this', record, v. rewrite <- Hc.
    split; [reflexivity|]. split; [exact Hrec|]. split; [exact Hv|].
    cbv zeta in Heq. apply (Qeq_trans _ _ _ Heq). vm_compute. reflexivity.
Defined.

(** *** Runs that complete *)

Lemma previousValue_total (this : GenericInvestment) (i j : nat) :
  length (investmentData this) = i ->
  (forall record, In record (investmentData this) ->
                  (j < length (value record))%nat) ->
  exists v, previousValue this i j = Ok v.
Proof.
  intros Hlen Hwide. unfold previousValue.
  destruct (i =? 0)%nat eqn:E; [now eexists|].
  apply Nat.eqb_neq in E.
  destruct (index_lt (investmentData this) (i - 1)) as [prev Hprev]; [lia|].
  rewrite Hprev. cbn [bind].
  destruct (nth_error (value prev) j) as [v|] eqn:Ev; [now eexists|].
  apply nth_error_None in Ev.
  apply index_Ok, nth_error_In, Hwide in Hprev. lia.
Qed.

Lemma scenarioLoop_total (w : Q -> Q) (c : option Q) (this : GenericInvestment)
    (le : Living.LivingExpenses) (i : nat) (hs : list Housing.GenericHousing) :
  length (investmentData this) = i ->
  (i < length (Living.expensesData le))%nat ->
  (forall housing, In housing hs ->
                   (i < length (Housing.housingData housing))%nat) ->
  forall j0,
    (forall record, In record (investmentData this) ->
                    (j0 + length hs <= length (value record))%nat) ->
    exists values, scenarioLoop w c this hs le i j0 = Ok values.
Proof.
  intros Hlen Hle. induction hs as [|housing rest IH]; intros Hhs j0 Hwide.
  - now eexists.
  - cbn [scenarioLoop].
    assert (Hcv : exists v, currentValue w c this housing le i j0 = Ok v).
    { destruct (previousValue_total this i j0 Hlen) as [prev Hprev].
      { intros record Hin. specialize (Hwide record Hin).
        cbn [length] in Hwide. lia. }
      unfold currentValue. rewrite Hprev.
      destruct (preRetirement (generalInformation this) i);
        [cbn [bind]; now eexists|].
      unfold uncoveredLivingCosts.
      destruct (index_lt (Housing.housingData housing) i) as [h Hh];
        [apply Hhs; now left|].
      destruct (index_lt (Living.expensesData le) i) as [l Hl]; [exact Hle|].
      rewrite Hh, Hl. cbn [bind]. now eexists. }
    destruct Hcv as [v Hv]. rewrite Hv. cbn [bind].
    destruct (IH (fun h Hin => Hhs h (or_intror Hin)) (S j0)) as [vs Hvs].
    { intros record Hin. specialize (Hwide record Hin).
      cbn [length] in Hwide. lia. }
    rewrite Hvs. cbn [bind]. now eexists.
Qed.

Lemma yearLoop_completes (w : Q -> Q) (hc : nat -> result (option Q))
    (hs : list Housing.GenericHousing) (le : Living.LivingExpenses) (n : nat) :
  forall i this,
    length (investmentData this) = i ->
    (forall record, In record (investmentData this) ->
                    length (value record) = length hs) ->
    (forall k, (k < i + n)%nat -> exists c, hc k = Ok c) ->
    (i + n <= length (Living.expensesData le))%nat ->
    (forall housing, In housing hs ->
                     (i + n <= length (Housing.housingData housing))%nat) ->
    snd (yearLoop w hc hs le n i this) = Completed.
Proof.
  induction n as [|n IH]; intros i this Hlen Hwide Hhc Hle Hhs.
  - reflexivity.
  - cbn [yearLoop].
    destruct (Hhc i) as [c Hc]; [lia|]. rewrite Hc. cbn [bind].
    assert (Hle' : (i < length (Living.expensesData le))%nat) by lia.
    assert (Hhs' : forall housing, In housing hs ->
                     (i < length (Housing.housingData housing))%nat)
      by (intros housing Hin; specialize (Hhs housing Hin); lia).
    assert (Hwide' : forall record, In record (investmentData this) ->
                       (0 + length hs <= length (value record))%nat)
      by (intros record Hin; rewrite (Hwide record Hin); cbn; lia).
    destruct (scenarioLoop_total w c this le i hs Hlen Hle' Hhs' 0%nat Hwide')
      as [values Hvalues].
    rewrite Hvalues.
    apply IH.
    + cbn [push investmentData]. rewrite length_app. cbn [length]. lia.
    + cbn [push investmentData]. intros record Hin.
      apply in_app_or in Hin. destruct Hin as [Hin|[<-|[]]].
      * now apply Hwide.
      * cbn [value]. now apply (scenarioLoop_inv w c this le i hs 0 values).
    + intros k Hk. apply Hhc. lia.
    + lia.
    + intros housing Hin. specialize (Hhs housing Hin). lia.
Qed.

(** On a newly constructed account, with a record for every year of the
    horizon in every housing series, in the living-expenses series and in
    the healthcare series (when there is one), the run completes and leaves
    one record per year. *)
Lemma NonTaxable_calculateData_completes (this : NonTaxableInvestment)
    (housingCosts : list Housing.GenericHousing)
    (livingExpenses : Living.LivingExpenses)
    (healthcare : option Healthcare.HealthcareCosts) :
  investmentData this = [] ->
  (forall housing, In housing housingCosts ->
     (years (generalInformation this)
      <= length (Housing.housingData housing))%nat) ->
  (years (generalInformation this)
   <= length (Living.expensesData livingExpenses))%nat ->
  (forall hc, healthcare = Some hc ->
     (years (generalInformation this)
      <= length (Healthcare.healthcareData hc))%nat) ->
  exists this',
    NonTaxable_calculateData this housingCosts livingExpenses healthcare
    = (this', Completed) /\
    length (investmentData this') = years (generalInformation this).
Proof.
  intros Hfresh Hhs Hle Hhc. unfold NonTaxable_calculateData.
  destruct (yearLoop NonTaxable_withdrawals (healthcareCostOf healthcare)
              housingCosts livingExpenses (years (generalInformation this))
              0 this) as [this' c] eqn:Hrun.
  assert (Hc : c = Completed).
  { change c with (snd (this', c)). rewrite <- Hrun.
    apply yearLoop_completes.
    - now rewrite Hfresh.
    - rewrite Hfresh. intros record [].
    - intros k Hk. unfold healthcareCostOf.
      destruct healthcare as [hc|]; [|now eexists].
      destruct (index_lt (Healthcare.healthcareData hc) k) as [y Hy].
      { specialize (Hhc hc eq_refl). lia. }
      rewrite Hy. cbn [bind]. now eexists.
    - exact Hle.
    - exact Hhs. }
  subst c. exists this'. split; [reflexivity|].
  now apply (yearLoop_fresh _ _ _ _ _ _ _ _ Hfresh Hrun).
Qed.

(** * Further properties *)

(** ** Tax module: the federal schedule *)

(** Replace every [Qmax] and [Qmin] of the goal by a variable together with
    its defining case. *)
Ltac minmax_cases :=
  repeat match goal with
  | |- context [Qmax ?a ?b] =>
      let H := fresh "Hcase" in
      let E := fresh "Eq" in
      destruct (Q.max_spec a b) as [[H E]|[H E]];
      revert H E; generalize (Qmax a b); intro
  | |- context [Qmin ?a ?b] =>
      let H := fresh "Hcase" in
      let E := fresh "Eq" in
      destruct (Q.min_spec a b) as [[H E]|[H E]];
      revert H E; generalize (Qmin a b); intro
  end;
  intros.

Lemma Qmult_le_compat_l' (x y z : Q) : x <= y -> 0 <= z -> z * x <= z * y.
Proof.
  intros Hxy Hz. rewrite (Qmult_comm z x), (Qmult_comm z y).
  now apply Qmult_le_compat_r.
Qed.

Lemma incomeInBand_hinges (T prev m : Q) :
  prev <= m ->
  Tax.incomeInBand T prev (Tax.Finite m) == Qmax 0 (T - prev) - Qmax 0 (T - m).
Proof.
  intro H. unfold Tax.incomeInBand, Tax.min_bound. minmax_cases; lra.
Qed.

Lemma incomeInBand_open (T prev : Q) :
  Tax.incomeInBand T prev Tax.Infinity == Qmax 0 (T - prev).
Proof. reflexivity. Qed.

Lemma incomeInBand_nonneg (T prev : Q) (b : Tax.bound) :
  0 <= Tax.incomeInBand T prev b.
Proof. unfold Tax.incomeInBand. apply Q.le_max_l. Qed.

Lemma incomeInBand_mono (T1 T2 prev : Q) (b : Tax.bound) :
  T1 <= T2 -> Tax.incomeInBand T1 prev b <= Tax.incomeInBand T2 prev b.
Proof.
  intro H. unfold Tax.incomeInBand, Tax.min_bound.
  destruct b as [m|]; minmax_cases; lra.
Qed.

Lemma marginalSchedule_hinges (bs : list Tax.Bracket) :
  forall T prev previousRate,
    Tax.ascending prev bs -> Tax.openEnded bs ->
    Tax.marginalSchedule T prev bs
    == Tax.hingeSchedule T prev previousRate bs
       + previousRate * Qmax 0 (T - prev).
Proof.
  induction bs as [|b rest IH]; intros T prev rho Hasc Hopen.
  - destruct Hopen.
  - cbn [Tax.marginalSchedule Tax.hingeSchedule].
    cbn [Tax.ascending Tax.openEnded] in Hasc, Hopen.
    destruct (Tax.max b) as [m|].
    + destruct Hasc as [Hm Hrest].
      rewrite (IH T m (Tax.rate b) Hrest Hopen).
      rewrite (incomeInBand_hinges T prev m Hm). ring.
    + rewrite incomeInBand_open. ring.
Qed.

Lemma marginalSchedule_mono (bs : list Tax.Bracket) :
  Forall (fun b => 0 <= Tax.rate b) bs ->
  forall T1 T2 prev,
    T1 <= T2 ->
    Tax.marginalSchedule T1 prev bs <= Tax.marginalSchedule T2 prev bs.
Proof.
  induction 1 as [|b rest Hb _ IH]; intros T1 T2 prev HT;
    cbn [Tax.marginalSchedule].
  - apply Qle_refl.
  - apply Qplus_le_compat.
    + apply Qmult_le_compat_r; [now apply incomeInBand_mono | exact Hb].
    + destruct (Tax.max b) as [m|]; [now apply IH | apply Qle_refl].
Qed.

Lemma marginalSchedule_between (lo hi : Q) (bs : list Tax.Bracket) :
  0 <= lo ->
  Forall (fun b => lo <= Tax.rate b /\ Tax.rate b <= hi) bs ->
  forall T prev,
    Tax.ascending prev bs -> Tax.openEnded bs ->
    lo * Qmax 0 (T - prev) <= Tax.marginalSchedule T prev bs /\
    Tax.marginalSchedule T prev bs <= hi * Qmax 0 (T - prev).
Proof.
  intros Hlo. induction 1 as [|b rest [Hb1 Hb2] _ IH]; intros T prev Hasc Hopen.
  - destruct Hopen.
  - cbn [Tax.marginalSchedule]. cbn [Tax.ascending Tax.openEnded] in Hasc, Hopen.
    pose proof (incomeInBand_nonneg T prev (Tax.max b)) as Hband.
    assert (H1 : lo * Tax.incomeInBand T prev (Tax.max b)
                 <= Tax.incomeInBand T prev (Tax.max b) * Tax.rate b)
      by (rewrite (Qmult_comm lo); apply Qmult_le_compat_l'; assumption).
    assert (H2 : Tax.incomeInBand T prev (Tax.max b) * Tax.rate b
                 <= hi * Tax.incomeInBand T prev (Tax.max b))
      by (rewrite (Qmult_comm hi); apply Qmult_le_compat_l'; assumption).
    destruct (Tax.max b) as [m|].
    + destruct Hasc as [Hm Hrest].
      destruct (IH T m Hrest Hopen) as [IH1 IH2].
      pose proof (incomeInBand_hinges T prev m Hm) as Hsplit.
      revert H1 H2 Hsplit IH1 IH2.
      generalize (Tax.incomeInBand T prev (Tax.Finite m)).
      generalize (Tax.marginalSchedule T m rest).
      generalize (Qmax 0 (T - prev)). generalize (Qmax 0 (T - m)).
      intros x y s band H1 H2 Hsplit IH1 IH2.
      assert (lo * band == lo * y - lo * x) by (rewrite Hsplit; ring).
      assert (hi * band == hi * y - hi * x) by (rewrite Hsplit; ring).
      split; lra.
    + rewrite incomeInBand_open in *. split; lra.
Qed.

Lemma tables_open_ended :
  Tax.openEnded Tax.FEDERAL_TAX_BRACKETS_SINGLE /\
  Tax.openEnded Tax.FEDERAL_TAX_BRACKETS_JOINT.
Proof. split; exact I. Qed.

Lemma tables_rates :
  Forall (fun b => 0.10 <= Tax.rate b /\ Tax.rate b <= 0.37)
    Tax.FEDERAL_TAX_BRACKETS_SINGLE /\
  Forall (fun b => 0.10 <= Tax.rate b /\ Tax.rate b <= 0.37)
    Tax.FEDERAL_TAX_BRACKETS_JOINT.
Proof.
  split; repeat constructor; cbn [Tax.rate]; lra.
Qed.

Lemma bracketsFor_cases (config : Tax.TaxConfig) :
  Tax.bracketsFor config = Tax.FEDERAL_TAX_BRACKETS_JOINT \/
  Tax.bracketsFor config = Tax.FEDERAL_TAX_BRACKETS_SINGLE.
Proof.
  unfold Tax.bracketsFor. destruct (String.eqb _ _); [now left | now right].
Qed.

Lemma calculateFederalTax_mono (config : Tax.TaxConfig) (income1 income2 : Q) :
  income1 <= income2 ->
  Tax.calculateFederalTax config income1 <= Tax.calculateFederalTax config income2.
Proof.
  intro H. rewrite !calculateFederalTax_marginal.
  apply marginalSchedule_mono; [|exact H].
  destruct tables_rates as [Hs Hj].
  destruct (bracketsFor_cases config) as [-> | ->];
    [eapply Forall_impl; [|exact Hj] | eapply Forall_impl; [|exact Hs]];
    intros b [Hb _]; lra.
Qed.

(** X1.  More taxable income never means less federal tax, for either
    filing status. *)
Theorem calculateFederalTax_monotone (config : Tax.TaxConfig) (income1 income2 : Q) :
  income1 <= income2 ->
  Tax.calculateFederalTax config income1 <= Tax.calculateFederalTax config income2.
Proof. apply calculateFederalTax_mono. Qed.

Lemma calculateFederalTax_monotone_witness :
  Tax.calculateFederalTax singleFiler 47150
  <= Tax.calculateFederalTax singleFiler 47151.
Proof.
  apply calculateFederalTax_monotone. lra.
Defined.

Lemma calculateFederalTax_between (config : Tax.TaxConfig) (income : Q) :
  0 <= income ->
  0.10 * income <= Tax.calculateFederalTax config income /\
  Tax.calculateFederalTax config income <= 0.37 * income.
Proof.
  intro H. rewrite !calculateFederalTax_marginal.
  destruct tables_rates as [Hs Hj].
  destruct ascending_tables as [As Aj].
  destruct tables_open_ended as [Os Oj].
  assert (Hmax : Qmax 0 (income - 0) == income)
    by (rewrite Q.max_r by lra; ring).
  destruct (bracketsFor_cases config) as [-> | ->].
  - destruct (marginalSchedule_between 0.10 0.37 _ ltac:(lra) Hj income 0 Aj Oj)
      as [H1 H2].
    rewrite Hmax in H1, H2. now split.
  - destruct (marginalSchedule_between 0.10 0.37 _ ltac:(lra) Hs income 0 As Os)
      as [H1 H2].
    rewrite Hmax in H1, H2. now split.
Qed.

(** X2.  For a taxable income that is not negative the federal tax lies
    between 10% and 37% of it, the lowest and the highest rate of the
    tables; in particular it is never negative and never exceeds the
    income. *)
Theorem calculateFederalTax_between_rates (config : Tax.TaxConfig) (income : Q) :
  0 <= income ->
  0.10 * income <= Tax.calculateFederalTax config income /\
  Tax.calculateFederalTax config income <= 0.37 * income.
Proof. apply calculateFederalTax_between. Qed.

Lemma calculateFederalTax_between_rates_witness :
  0.10 * 250000 <= Tax.calculateFederalTax jointFiler 250000 /\
  Tax.calculateFederalTax jointFiler 250000 <= 0.37 * 250000.
Proof.
  apply calculateFederalTax_between_rates. lra.
Defined.

Lemma hinge_mono (T a b : Q) : a <= b -> Qmax 0 (T - b) <= Qmax 0 (T - a).
Proof. intro H. minmax_cases; lra. Qed.

(** X3.  On the same taxable income a joint filer never owes more federal
    tax than a filer of any other status. *)
Theorem calculateFederalTax_joint_le_single
    (joint single : Tax.TaxConfig) (income : Q) :
  String.eqb (Tax.filingStatus joint) "joint" = true ->
  String.eqb (Tax.filingStatus single) "joint" = false ->
  Tax.calculateFederalTax joint income <= Tax.calculateFederalTax single income.
Proof.
  intros Hj Hs. rewrite !calculateFederalTax_marginal.
  unfold Tax.bracketsFor. rewrite Hj, Hs.
  destruct ascending_tables as [As Aj].
  destruct tables_open_ended as [Os Oj].
  rewrite (marginalSchedule_hinges _ income 0 0 Aj Oj).
  rewrite (marginalSchedule_hinges _ income 0 0 As Os).
  cbn [Tax.hingeSchedule Tax.FEDERAL_TAX_BRACKETS_JOINT
       Tax.FEDERAL_TAX_BRACKETS_SINGLE Tax.max Tax.rate].
  pose proof (hinge_mono income 11600 23200 ltac:(lra)).
  pose proof (hinge_mono income 47150 94300 ltac:(lra)).
  pose proof (hinge_mono income 100525 201050 ltac:(lra)).
  pose proof (hinge_mono income 191950 383900 ltac:(lra)).
  pose proof (hinge_mono income 243725 487450 ltac:(lra)).
  pose proof (hinge_mono income 609350 731200 ltac:(lra)).
  lra.
Qed.

Lemma calculateFederalTax_joint_le_single_witness :
  Tax.calculateFederalTax jointFiler 100000
  <= Tax.calculateFederalTax singleFiler 100000.
Proof.
  apply calculateFederalTax_joint_le_single; reflexivity.
Defined.

(** ** Tax module: Social Security and the annual tax *)

Ltac ltb_cases :=
  repeat match goal with
  | |- context [ltb ?a ?b] =>
      let E := fresh "E" in
      destruct (ltb a b) eqn:E;
      [apply ltb_true in E | apply ltb_false in E]
  | |- context [leb ?a ?b] =>
      let E := fresh "E" in
      destruct (leb a b) eqn:E;
      [apply leb_true in E | apply leb_false in E]
  end.

Lemma taxableSocialSecurity_bounds (config : Tax.TaxConfig) (ss other : Q) :
  0 <= ss ->
  0 <= Tax.calculateTaxableSocialSecurity config ss other /\
  Tax.calculateTaxableSocialSecurity config ss other <= 0.85 * ss.
Proof.
  intro Hss. unfold Tax.calculateTaxableSocialSecurity.
  destruct (String.eqb (Tax.filingStatus config) "joint");
    ltb_cases; minmax_cases; split; lra.
Qed.

Lemma taxableSocialSecurity_mono (config : Tax.TaxConfig) (ss other1 other2 : Q) :
  0 <= ss -> other1 <= other2 ->
  Tax.calculateTaxableSocialSecurity config ss other1
  <= Tax.calculateTaxableSocialSecurity config ss other2.
Proof.
  intros Hss Ho. unfold Tax.calculateTaxableSocialSecurity.
  destruct (String.eqb (Tax.filingStatus config) "joint");
    ltb_cases; minmax_cases; lra.
Qed.

(** X4.  Of a Social Security income that is not negative, the taxable
    part is never negative and never more than 85%; it is nothing while
    other income plus half the benefits stays below the lower threshold of
    the filing status (32000 joint, 25000 otherwise). *)
Theorem calculateTaxableSocialSecurity_at_most_85_percent
    (config : Tax.TaxConfig) (socialSecurityIncome otherIncome : Q) :
  0 <= socialSecurityIncome ->
  0 <= Tax.calculateTaxableSocialSecurity config socialSecurityIncome otherIncome /\
  Tax.calculateTaxableSocialSecurity config socialSecurityIncome otherIncome
  <= 0.85 * socialSecurityIncome /\
  (if ltb (otherIncome + socialSecurityIncome * 0.5) (lowerThreshold config)
   then Tax.calculateTaxableSocialSecurity config socialSecurityIncome otherIncome = 0
   else True).
Proof.
  intro Hss.
  destruct (taxableSocialSecurity_bounds config _ otherIncome Hss) as [H1 H2].
  split; [exact H1|]. split; [exact H2|].
  unfold Tax.calculateTaxableSocialSecurity, lowerThreshold.
  destruct (String.eqb (Tax.filingStatus config) "joint");
    destruct (ltb _ _); reflexivity || exact I.
Qed.

Lemma calculateTaxableSocialSecurity_at_most_85_percent_witness :
  0 <= Tax.calculateTaxableSocialSecurity singleFiler 24000 60000 /\
  Tax.calculateTaxableSocialSecurity singleFiler 24000 60000 <= 0.85 * 24000.
Proof.
  destruct (calculateTaxableSocialSecurity_at_most_85_percent
              singleFiler 24000 60000) as (H1 & H2 & _).
  - lra.
  - split; [exact H1 | exact H2].
Defined.

(** X5.  With the same Social Security income (not negative), more other
    income never lowers the taxable part of the benefits. *)
Theorem calculateTaxableSocialSecurity_monotone
    (config : Tax.TaxConfig) (socialSecurityIncome otherIncome1 otherIncome2 : Q) :
  0 <= socialSecurityIncome ->
  otherIncome1 <= otherIncome2 ->
  Tax.calculateTaxableSocialSecurity config socialSecurityIncome otherIncome1
  <= Tax.calculateTaxableSocialSecurity config socialSecurityIncome otherIncome2.
Proof. apply taxableSocialSecurity_mono. Qed.

Lemma calculateTaxableSocialSecurity_monotone_witness :
  Tax.calculateTaxableSocialSecurity jointFiler 30000 20000
  <= Tax.calculateTaxableSocialSecurity jointFiler 30000 40000.
Proof.
  apply calculateTaxableSocialSecurity_monotone; lra.
Defined.

Lemma calculateStateTax_linear (config : Tax.TaxConfig) (income : Q) :
  0 <= income ->
  Tax.calculateStateTax config income == income * Tax.stateIncomeTaxRate config.
Proof.
  intro H. unfold Tax.calculateStateTax. destruct (leb income 0) eqn:E.
  - apply leb_true in E. assert (H0 : income == 0) by lra. rewrite H0. ring.
  - reflexivity.
Qed.

(** X6.  In the breakdown of [calculateAnnualTax], for a state rate that
    is not negative: the taxable income is the gross income less the
    deductions, floored at 0; the total tax is the federal plus the state
    tax and lies between (10% + state rate) and (37% + state rate) of the
    taxable income.  So a gross income that does not exceed the deductions
    owes no tax. *)
Theorem calculateAnnualTax_breakdown (config : Tax.TaxConfig)
    (socialSecurityIncome otherRetirementIncome investmentWithdrawals
     mortgageInterest propertyTax : Q) :
  0 <= Tax.stateIncomeTaxRate config ->
  let t := Tax.calculateAnnualTax config socialSecurityIncome
             otherRetirementIncome investmentWithdrawals
             mortgageInterest propertyTax in
  Tax.taxableIncome t = Qmax 0 (Tax.grossIncome t - Tax.deductions t) /\
  Tax.totalTax t = Tax.federalTax t + Tax.stateTax t /\
  (0.10 + Tax.stateIncomeTaxRate config) * Tax.taxableIncome t <= Tax.totalTax t /\
  Tax.totalTax t <= (0.37 + Tax.stateIncomeTaxRate config) * Tax.taxableIncome t.
Proof.
  intros Hrate t. split; [reflexivity|]. split; [reflexivity|].
  unfold t, Tax.calculateAnnualTax.
  cbn [Tax.taxableIncome Tax.totalTax].
  match goal with
  | |- context [Qmax 0 ?x] =>
      pose proof (Q.le_max_l 0 x) as Hti; revert Hti;
      generalize (Qmax 0 x); intros ti Hti
  end.
  destruct (calculateFederalTax_between config ti Hti) as [F1 F2].
  pose proof (calculateStateTax_linear config ti Hti) as Hs.
  revert F1 F2 Hs.
  generalize (Tax.calculateFederalTax config ti).
  generalize (Tax.calculateStateTax config ti).
  intros st ft F1 F2 Hs. split; lra.
Qed.

Lemma calculateAnnualTax_breakdown_witness :
  Tax.totalTax (Tax.calculateAnnualTax jointFiler 24000 0 5000 0 0) == 0.
Proof.
  destruct (calculateAnnualTax_breakdown jointFiler 24000 0 5000 0 0)
    as (Hti & _ & Hlo & Hhi).
  - vm_compute. discriminate.
  - assert (H0 : Tax.taxableIncome
                   (Tax.calculateAnnualTax jointFiler 24000 0 5000 0 0) == 0)
      by (vm_compute; reflexivity).
    rewrite H0 in Hlo, Hhi. lra.
Defined.

(** X7.  With a Social Security income and a state rate that are not
    negative, withdrawing more from the investments never lowers the total
    tax of the year. *)
Theorem calculateAnnualTax_monotone_in_withdrawals (config : Tax.TaxConfig)
    (socialSecurityIncome otherRetirementIncome withdrawals1 withdrawals2
     mortgageInterest propertyTax : Q) :
  0 <= socialSecurityIncome ->
  0 <= Tax.stateIncomeTaxRate config ->
  withdrawals1 <= withdrawals2 ->
  Tax.totalTax (Tax.calculateAnnualTax config socialSecurityIncome
                  otherRetirementIncome withdrawals1 mortgageInterest propertyTax)
  <= Tax.totalTax (Tax.calculateAnnualTax config socialSecurityIncome
                     otherRetirementIncome withdrawals2 mortgageInterest propertyTax).
Proof.
  intros Hss Hrate Hw. unfold Tax.calculateAnnualTax. cbn [Tax.totalTax].
  pose proof (taxableSocialSecurity_mono config socialSecurityIncome
                (otherRetirementIncome + withdrawals1)
                (otherRetirementIncome + withdrawals2) Hss ltac:(lra)) as Hts.
  revert Hts.
  generalize (Tax.calculateTaxableSocialSecurity config socialSecurityIncome
                (otherRetirementIncome + withdrawals1)).
  generalize (Tax.calculateTaxableSocialSecurity config socialSecurityIncome
                (otherRetirementIncome + withdrawals2)).
  intros s2 s1 Hts.
  generalize (Tax.calculateDeductions config mortgageInterest propertyTax).
  intro d.
  assert (Hti : Qmax 0 (s1 + otherRetirementIncome + withdrawals1 - d)
                <= Qmax 0 (s2 + otherRetirementIncome + withdrawals2 - d))
    by (minmax_cases; lra).
  pose proof (Q.le_max_l 0 (s1 + otherRetirementIncome + withdrawals1 - d)) as H1.
  pose proof (Q.le_max_l 0 (s2 + otherRetirementIncome + withdrawals2 - d)) as H2.
  revert Hti H1 H2.
  generalize (Qmax 0 (s1 + otherRetirementIncome + withdrawals1 - d)).
  generalize (Qmax 0 (s2 + otherRetirementIncome + withdrawals2 - d)).
  intros t2 t1 Hti H1 H2.
  apply Qplus_le_compat.
  - now apply calculateFederalTax_mono.
  - rewrite !calculateStateTax_linear by assumption.
    now apply Qmult_le_compat_r.
Qed.

Lemma calculateAnnualTax_monotone_in_withdrawals_witness :
  Tax.totalTax (Tax.calculateAnnualTax singleFiler 24000 10000 20000 0 0)
  <= Tax.totalTax (Tax.calculateAnnualTax singleFiler 24000 10000 50000 0 0).
Proof.
  apply calculateAnnualTax_monotone_in_withdrawals;
    solve [lra | vm_compute; discriminate].
Defined.

(** ** Healthcare module: the accessors *)

Lemma Healthcare_yearLoop_fields (n : nat) :
  forall i this,
    Healthcare.generalInformation (Healthcare.yearLoop n i this)
    = Healthcare.generalInformation this /\
    Healthcare.config (Healthcare.yearLoop n i this) = Healthcare.config this /\
    Healthcare.medicareEligibleAge (Healthcare.yearLoop n i this)
    = Healthcare.medicareEligibleAge this.
Proof.
  induction n as [|n IH]; intros i this; cbn [Healthcare.yearLoop].
  - now repeat split.
  - destruct (IH (S i)
                (Healthcare.mkHealthcareCosts
                   (Healthcare.generalInformation this) (Healthcare.config this)
                   (Healthcare.healthcareData this ++ [Healthcare.yearRecord this i])
                   (Healthcare.medicareEligibleAge this)))
      as (H1 & H2 & H3).
    rewrite H1, H2, H3. now repeat split.
Qed.

Lemma Healthcare_yearRecord_fields (this this' : Healthcare.HealthcareCosts) (i : nat) :
  Healthcare.generalInformation this' = Healthcare.generalInformation this ->
  Healthcare.config this' = Healthcare.config this ->
  Healthcare.medicareEligibleAge this' = Healthcare.medicareEligibleAge this ->
  Healthcare.yearRecord this' i = Healthcare.yearRecord this i.
Proof.
  intros H1 H2 H3. unfold Healthcare.yearRecord. now rewrite H1, H2, H3.
Qed.

Lemma Healthcare_yearRecord_age (this : Healthcare.HealthcareCosts) (i : nat) :
  Healthcare.age (Healthcare.yearRecord this i)
  = (startAge (Healthcare.generalInformation this) + Z.of_nat i)%Z.
Proof.
  unfold Healthcare.yearRecord.
  destruct (_ <? _)%Z; destruct (_ && _); reflexivity.
Qed.

(** Looking an age up in the records of the years [i .. i + n - 1]. *)
Lemma find_year (this : Healthcare.HealthcareCosts) (a : Z) (n : nat) :
  forall i,
    find (fun y => (Healthcare.age y =? a)%Z)
         (map (Healthcare.yearRecord this) (seq i n))
    = if ((startAge (Healthcare.generalInformation this) + Z.of_nat i <=? a)
          && (a <? startAge (Healthcare.generalInformation this)
                   + Z.of_nat (i + n)))%Z
      then Some (Healthcare.yearRecord this
                   (Z.to_nat (a - startAge (Healthcare.generalInformation this))))
      else None.
Proof.
  induction n as [|n IH]; intro i; cbn [seq map find].
  - destruct (_ <=? a)%Z eqn:E1; destruct (a <? _)%Z eqn:E2; try reflexivity.
    apply Z.leb_le in E1. apply Z.ltb_lt in E2. lia.
  - rewrite Healthcare_yearRecord_age.
    destruct (_ =? a)%Z eqn:E.
    + apply Z.eqb_eq in E.
      assert (H1 : (startAge (Healthcare.generalInformation this)
                    + Z.of_nat i <=? a)%Z = true) by (apply Z.leb_le; lia).
      assert (H2 : (a <? startAge (Healthcare.generalInformation this)
                         + Z.of_nat (i + S n))%Z = true)
        by (apply Z.ltb_lt; lia).
      rewrite H1, H2. cbn [andb]. do 2 f_equal. lia.
    + apply Z.eqb_neq in E. rewrite IH.
      replace (S i + n)%nat with (i + S n)%nat by lia.
      destruct (_ + Z.of_nat (S i) <=? a)%Z eqn:E1;
        destruct (_ + Z.of_nat i <=? a)%Z eqn:E2;
        destruct (a <? _)%Z eqn:E3; cbn [andb]; try reflexivity;
        try apply Z.leb_le in E1; try apply Z.leb_gt in E1;
        try apply Z.leb_le in E2; try apply Z.leb_gt in E2;
        try apply Z.ltb_lt in E3; lia.
Qed.

Lemma Healthcare_calculateData_new (g : GeneralInformation)
    (c : Healthcare.HealthcareConfig) :
  Healthcare.healthcareData (Healthcare.calculateData (Healthcare.new g c))
  = map (Healthcare.yearRecord (Healthcare.new g c)) (seq 0 (years g)).
Proof.
  unfold Healthcare.calculateData. now rewrite Healthcare_yearLoop_data.
Qed.

Lemma getCostAtAge_new (g : GeneralInformation)
    (c : Healthcare.HealthcareConfig) (a : Z) :
  Healthcare.getCostAtAge (Healthcare.calculateData (Healthcare.new g c)) a
  = if ((startAge g <=? a) && (a <? startAge g + Z.of_nat (years g)))%Z
    then Healthcare.annualCost
           (Healthcare.yearRecord (Healthcare.new g c) (Z.to_nat (a - startAge g)))
    else 0.
Proof.
  unfold Healthcare.getCostAtAge. rewrite Healthcare_calculateData_new.
  rewrite find_year. cbn [Healthcare.new Healthcare.generalInformation].
  rewrite Z.add_0_r. cbn [Nat.add].
  destruct (_ && _); reflexivity.
Qed.

(** X8.  After [calculateData] on a newly constructed object,
    [getCostAtAge] returns for every age of the horizon
    ([startAge <= age < lifeExpectancy]) the annual cost of that year's
    record, and 0 for every other age. *)
Theorem getCostAtAge_after_calculateData (g : GeneralInformation)
    (c : Healthcare.HealthcareConfig) (a : Z) :
  Healthcare.getCostAtAge (Healthcare.calculateData (Healthcare.new g c)) a
  = if ((startAge g <=? a) && (a <? startAge g + Z.of_nat (years g)))%Z
    then Healthcare.annualCost
           (Healthcare.yearRecord (Healthcare.new g c) (Z.to_nat (a - startAge g)))
    else 0.
Proof. apply getCostAtAge_new. Qed.

Lemma sumQ_cons (x : Q) (l : list Q) : sumQ (x :: l) = x + sumQ l.
Proof. reflexivity. Qed.

Lemma fold_left_sum (l : list Healthcare.HealthcareYear) :
  forall acc,
    fold_left (fun sum year => sum + Healthcare.annualCost year) l acc
    == acc + sumQ (map Healthcare.annualCost l).
Proof.
  induction l as [|y l IH]; intro acc; cbn [fold_left map].
  - unfold sumQ. cbn [fold_right]. ring.
  - rewrite IH, sumQ_cons. ring.
Qed.

Lemma sumQ_app_list (l1 l2 : list Q) : sumQ (l1 ++ l2) == sumQ l1 + sumQ l2.
Proof.
  induction l1 as [|x l1 IH]; cbn [app].
  - unfold sumQ at 2. cbn [fold_right]. ring.
  - rewrite !sumQ_cons, IH. ring.
Qed.

(** X9.  After [calculateData] on a newly constructed object,
    [getTotalCosts] is the sum of [getCostAtAge] over the ages of the
    horizon. *)
Theorem getTotalCosts_sums_the_horizon (g : GeneralInformation)
    (c : Healthcare.HealthcareConfig) :
  let hc := Healthcare.calculateData (Healthcare.new g c) in
  Healthcare.getTotalCosts hc
  == sumQ (map (fun i => Healthcare.getCostAtAge hc (startAge g + Z.of_nat i))
             (seq 0 (years g))).
Proof.
  intro hc. unfold Healthcare.getTotalCosts. rewrite fold_left_sum.
  unfold hc at 1. rewrite Healthcare_calculateData_new, map_map.
  assert (Heq : forall i, In i (seq 0 (years g)) ->
            Healthcare.annualCost (Healthcare.yearRecord (Healthcare.new g c) i)
            = Healthcare.getCostAtAge hc (startAge g + Z.of_nat i)).
  { intros i Hin. apply in_seq in Hin. unfold hc.
    rewrite getCostAtAge_new.
    assert (H1 : (startAge g <=? startAge g + Z.of_nat i)%Z = true)
      by (apply Z.leb_le; lia).
    assert (H2 : (startAge g + Z.of_nat i <? startAge g + Z.of_nat (years g))%Z
                 = true) by (apply Z.ltb_lt; lia).
    rewrite H1, H2. cbn [andb]. do 2 f_equal. lia. }
  rewrite (map_ext_in _ _ _ Heq). ring.
Qed.

Lemma find_app_first {A : Type} (f : A -> bool) (l1 l2 : list A) :
  find f (l1 ++ l2)
  = match find f l1 with
    | Some a => Some a
    | None => find f l2
    end.
Proof.
  induction l1 as [|x l1 IH]; cbn [app find]; [reflexivity|].
  destruct (f x); [reflexivity | exact IH].
Qed.

Lemma find_app_same {A : Type} (f : A -> bool) (l : list A) :
  find f (l ++ l) = find f l.
Proof.
  rewrite find_app_first. now destruct (find f l).
Qed.

Lemma Healthcare_calculateData_twice (g : GeneralInformation)
    (c : Healthcare.HealthcareConfig) :
  let hc := Healthcare.calculateData (Healthcare.new g c) in
  Healthcare.healthcareData (Healthcare.calculateData hc)
  = Healthcare.healthcareData hc ++ Healthcare.healthcareData hc.
Proof.
  intro hc.
  assert (Hf : Healthcare.generalInformation hc = g /\
               Healthcare.config hc = c /\
               Healthcare.medicareEligibleAge hc = 65%Z)
    by (unfold hc, Healthcare.calculateData; apply Healthcare_yearLoop_fields).
  destruct Hf as (Hg & Hc & Hm).
  unfold Healthcare.calculateData at 1.
  rewrite Healthcare_yearLoop_data, Hg.
  f_equal. unfold hc at 2. rewrite Healthcare_calculateData_new.
  apply map_ext. intro i.
  now apply Healthcare_yearRecord_fields.
Qed.

(** X10.  [calculateData] does not clear the series: called a second time
    on the same object it appends the same records again.  The series is
    then twice as long and [getTotalCosts] doubles, while [getCostAtAge],
    which takes the first record of an age, returns what it returned
    before. *)
Theorem Healthcare_second_calculateData (g : GeneralInformation)
    (c : Healthcare.HealthcareConfig) :
  let once := Healthcare.calculateData (Healthcare.new g c) in
  let twice := Healthcare.calculateData once in
  length (Healthcare.healthcareData twice) = (2 * years g)%nat /\
  Healthcare.getTotalCosts twice == 2 * Healthcare.getTotalCosts once /\
  forall a, Healthcare.getCostAtAge twice a = Healthcare.getCostAtAge once a.
Proof.
  intros once twice.
  pose proof (Healthcare_calculateData_twice g c) as Hdata.
  cbv zeta in Hdata. fold once in Hdata. fold twice in Hdata.
  split; [|split].
  - rewrite Hdata, length_app. unfold once.
    rewrite Healthcare_calculateData_new, length_map, length_seq. lia.
  - unfold Healthcare.getTotalCosts. rewrite Hdata, !fold_left_sum.
    rewrite map_app, sumQ_app_list. ring.
  - intro a. unfold Healthcare.getCostAtAge. rewrite Hdata.
    now rewrite find_app_same.
Qed.

(** X27.  For every year [i] of the horizon with age [startAge + i] of 65
    or more, the record of year [i] carries that age; its
    [monthlyPremiums] is the sum of the Medicare Part B, Part D and Medigap
    premiums times the year's inflation multiplier, plus the long-term-care
    premium times the same multiplier when long-term care is included and
    the age has reached its start age; its [outOfPocket] is the Medicare
    out-of-pocket amount times the multiplier; and
    [annualCost = monthlyPremiums * 12 + outOfPocket].  No pre-Medicare
    amount enters the record. *)
Theorem Healthcare_medicare_year (g : GeneralInformation)
    (c : Healthcare.HealthcareConfig) (i : nat) :
  (i < years g)%nat ->
  (65 <= startAge g + Z.of_nat i)%Z ->
  exists y,
    nth_error
      (Healthcare.healthcareData
         (Healthcare.calculateData (Healthcare.new g c))) i = Some y /\
    Healthcare.age y = (startAge g + Z.of_nat i)%Z /\
    Healthcare.monthlyPremiums y
    = (if Healthcare.includeLongTermCare c
          && (Healthcare.longTermCareStartAge c <=? startAge g + Z.of_nat i)%Z
       then (Healthcare.medicarePartBPremium c
             + Healthcare.medicarePartDPremium c
             + Healthcare.medigapPremium c)
              * Healthcare.inflationMultiplier g i
            + Healthcare.longTermCarePremium c
              * Healthcare.inflationMultiplier g i
       else (Healthcare.medicarePartBPremium c
             + Healthcare.medicarePartDPremium c
             + Healthcare.medigapPremium c)
              * Healthcare.inflationMultiplier g i) /\
    Healthcare.outOfPocket y
    = Healthcare.medicareAnnualOutOfPocket c
      * Healthcare.inflationMultiplier g i /\
    Healthcare.annualCost y
    = Healthcare.monthlyPremiums y * 12 + Healthcare.outOfPocket y.
Proof.
  intros Hi Hage. eexists. split.
  - apply Healthcare_calculateData_nth, Hi.
  - unfold Healthcare.yearRecord.
    cbn [Healthcare.new Healthcare.generalInformation Healthcare.config
         Healthcare.medicareEligibleAge].
    assert (Hge : (startAge g + Z.of_nat i <? 65)%Z = false)
      by (apply Z.ltb_ge; exact Hage).
    rewrite Hge.
    destruct (Healthcare.includeLongTermCare c
              && (Healthcare.longTermCareStartAge c <=? startAge g + Z.of_nat i)%Z);
      cbn [Healthcare.age Healthcare.monthlyPremiums Healthcare.outOfPocket
           Healthcare.annualCost]; repeat split; reflexivity.
Qed.

Lemma Healthcare_medicare_year_witness :
  exists y,
    nth_error
      (Healthcare.healthcareData
         (Healthcare.calculateData
            (Healthcare.new profileFrom60 longTermCareConfig))) 5 = Some y /\
    Healthcare.age y = 65%Z /\
    Healthcare.monthlyPremiums y == 679.70 /\
    Healthcare.outOfPocket y == 2000.
Proof.
  destruct (Healthcare_medicare_year profileFrom60 longTermCareConfig 5)
    as (y & Hy & Hage & Hprem & Hoop & _).
  - vm_compute. lia.
  - vm_compute. discriminate.
  - exists y. split; [exact Hy|]. split; [exact Hage|].
    rewrite Hprem, Hoop. split; vm_compute; reflexivity.
Defined.

(** ** Housing: yearly costs and running totals *)

Lemma Ok_some_inj {A : Type} (a b : A) : Some a = Some b -> a = b.
Proof. intro H. now injection H. Qed.

(** One iteration of the year loop of [House.calculateData], with the costs
    it records and the fields it inflates. *)
Lemma House_year_record (r : Q) (pay : option Q) (i : nat) (s s' : HouseLoop) :
  House_year r pay i s = Ok s' ->
  let h := this_ s in
  let g := Housing.generalInformation (House_super h) in
  exists record payment,
    House_data (this_ s') = House_data h ++ [record] /\
    (amortizing i s = true -> pay = Some payment) /\
    yearlyCosts record
    == monthlyInsurance (House_super h) * 12 + monthlyHOA (House_super h) * 12
       + propertyTaxAssessment h
       + paymentPart (amortizing i s) payment
       + (if (i =? 0)%nat then oneTimeImprovements h else annualMaintenanceCost h) /\
    cumulate (House_data h) i (yearlyCosts record) = Ok (totalCosts record) /\
    monthlyInsurance (House_super (this_ s'))
    = monthlyInsurance (House_super h) * (1 + inflation g) /\
    monthlyHOA (House_super (this_ s'))
    = monthlyHOA (House_super h) * (1 + inflation g) /\
    propertyTaxAssessment (this_ s')
    = propertyTaxAssessment h * (1 + inflation g) /\
    annualMaintenanceCost (this_ s')
    = annualMaintenanceCost h * (1 + inflation g).
Proof.
  intro H. cbv zeta. unfold House_year in H. unfold amortizing, House_data.
  destruct ((i <? mortgageTermYears (this_ s))%nat && ltb 0 (remaining s)).
  - destruct pay as [payment|]; [|discriminate H]. cbn [bind] in H.
    match type of H with
    | context [cumulate ?d ?k ?c] => destruct (cumulate d k c) as [t|e] eqn:Et
    end; [|discriminate H].
    cbn [bind] in H. apply Ok_inj in H. subst s'.
    cbn [this_ House_super housingData monthlyInsurance monthlyHOA
         propertyTaxAssessment annualMaintenanceCost].
    eexists. exists payment. split; [reflexivity|].
    split; [reflexivity|]. cbn [yearlyCosts totalCosts paymentPart].
    split; [destruct (i =? 0)%nat; ring|].
    split; [exact Et|]. repeat split.
  - cbn [bind] in H.
    match type of H with
    | context [cumulate ?d ?k ?c] => destruct (cumulate d k c) as [t|e] eqn:Et
    end; [|discriminate H].
    cbn [bind] in H. apply Ok_inj in H. subst s'.
    cbn [this_ House_super housingData monthlyInsurance monthlyHOA
         propertyTaxAssessment annualMaintenanceCost].
    eexists. exists 0. split; [reflexivity|].
    split; [discriminate|]. cbn [yearlyCosts totalCosts paymentPart].
    split; [destruct (i =? 0)%nat; ring|].
    split; [exact Et|]. repeat split.
Qed.

Lemma cumulate_app (data extra : list HousingYear) (i : nat) (c t : Q) :
  (i <= length data)%nat ->
  cumulate data i c = Ok t -> cumulate (data ++ extra) i c = Ok t.
Proof.
  unfold cumulate. intros Hlen H. destruct (i =? 0)%nat eqn:E; [exact H|].
  apply bind_Ok in H. destruct H as (prev & Hprev & Ht).
  rewrite (index_app _ extra _ _ Hprev). exact Ht.
Qed.

Lemma runningTotals_push (data : list HousingYear) (record : HousingYear) :
  runningTotals data ->
  cumulate data (length data) (yearlyCosts record) = Ok (totalCosts record) ->
  runningTotals (data ++ [record]).
Proof.
  intros Hrun Hrec i y Hi.
  destruct (Nat.lt_ge_cases i (length data)) as [Hlt|Hge].
  - rewrite nth_error_app1 in Hi by exact Hlt.
    apply cumulate_app; [lia | now apply Hrun].
  - assert (Hi' : i = length data).
    { apply Nat.le_antisymm; [|exact Hge].
      assert (i < length (data ++ [record]))%nat
        by (apply nth_error_Some; congruence).
      rewrite length_app in H. cbn [length] in H. lia. }
    subst i. rewrite nth_error_app2, Nat.sub_diag in Hi by lia.
    cbn [nth_error] in Hi. apply (f_equal (fun o => match o with
                                                   | Some q => q
                                                   | None => record
                                                   end)) in Hi.
    cbn beta iota in Hi. subst y. apply cumulate_app; [lia | exact Hrec].
Qed.

(** Running totals add up: the total of year [i] is the sum of the yearly
    costs of the years [0 .. i]. *)
Lemma runningTotals_sum (data : list HousingYear) :
  runningTotals data ->
  forall i record,
    nth_error data i = Some record ->
    totalCosts record == sumQ (map yearlyCosts (firstn (S i) data)).
Proof.
  intros Hrun. induction i as [|i IH]; intros record Hi.
  - specialize (Hrun 0%nat record Hi). unfold cumulate in Hrun.
    cbn [Nat.eqb] in Hrun. apply Ok_inj in Hrun.
    destruct data as [|y rest]; [discriminate Hi|].
    cbn [nth_error] in Hi. apply (f_equal (fun o => match o with
                                                   | Some q => q
                                                   | None => record
                                                   end)) in Hi.
    cbn beta iota in Hi. subst y. cbn [firstn map]. rewrite sumQ_cons.
    rewrite <- Hrun. unfold sumQ. cbn [fold_right]. ring.
  - pose proof (Hrun (S i) record Hi) as Hrec. unfold cumulate in Hrec.
    cbn [Nat.eqb] in Hrec. apply bind_Ok in Hrec.
    destruct Hrec as (prev & Hprev & Ht). apply Ok_inj in Ht.
    replace (S i - 1)%nat with i in Hprev by lia. apply index_Ok in Hprev.
    rewrite <- Ht, (IH prev Hprev).
    assert (Hsplit : firstn (S (S i)) data = firstn (S i) data ++ [record]).
    { clear -Hi. revert i Hi. induction data as [|y rest IHd]; intros i Hi;
        [discriminate Hi|].
      destruct i as [|i].
      - destruct rest as [|z rest]; [discriminate Hi|].
        cbn [nth_error] in Hi. injection Hi as ->. reflexivity.
      - cbn [nth_error] in Hi. specialize (IHd i Hi).
        change (firstn (S (S (S i))) (y :: rest))
          with (y :: firstn (S (S i)) rest).
        rewrite IHd. reflexivity. }
    rewrite Hsplit, map_app, sumQ_app_list. cbn [map].
    rewrite sumQ_cons. unfold sumQ at 3. cbn [fold_right]. ring.
Qed.

(** The year loop keeps the running totals and inflates the four cost
    fields once per iteration. *)
Lemma House_loop_fields (r : Q) (pay : option Q) (n : nat) :
  forall i s s',
    House_loop r pay n i s = Ok s' ->
    let f := 1 + inflation (Housing.generalInformation (House_super (this_ s))) in
    monthlyInsurance (House_super (this_ s'))
    == monthlyInsurance (House_super (this_ s)) * Math_pow f n /\
    monthlyHOA (House_super (this_ s'))
    == monthlyHOA (House_super (this_ s)) * Math_pow f n /\
    propertyTaxAssessment (this_ s')
    == propertyTaxAssessment (this_ s) * Math_pow f n /\
    annualMaintenanceCost (this_ s')
    == annualMaintenanceCost (this_ s) * Math_pow f n /\
    (length (House_data (this_ s)) = i ->
     runningTotals (House_data (this_ s)) ->
     runningTotals (House_data (this_ s'))).
Proof.
  induction n as [|n IH]; intros i s s' H; cbn [House_loop] in H.
  - apply Ok_inj in H. subst s'. cbv zeta. rewrite Math_pow_0.
    repeat split; try ring. auto.
  - destruct (House_year r pay i s) as [s1|e] eqn:E1; [|discriminate H].
    cbn [bind] in H.
    pose proof (House_year_inv r pay i s s1 E1) as (Hsame & _).
    apply House_year_record in E1. cbv zeta in E1.
    destruct E1 as (rec & p & Hdata & _ & _ & Hcum & Hi1 & Hh1 & Ht1 & Hm1).
    apply IH in H. cbv zeta in H.
    destruct H as (Hi & Hh & Ht & Hm & Hrun).
    assert (Hg : Housing.generalInformation (House_super (this_ s1))
                 = Housing.generalInformation (House_super (this_ s)))
      by apply Hsame.
    rewrite Hg in *. cbv zeta.
    split; [rewrite Hi, Hi1, Math_pow_S; ring|].
    split; [rewrite Hh, Hh1, Math_pow_S; ring|].
    split; [rewrite Ht, Ht1, Math_pow_S; ring|].
    split; [rewrite Hm, Hm1, Math_pow_S; ring|].
    intros Hlen Htot. apply Hrun.
    + rewrite Hdata, length_app. cbn [length]. lia.
    + rewrite Hdata. apply runningTotals_push; [exact Htot|].
      rewrite Hlen. exact Hcum.
Qed.

Section HouseYears.

Variables (r payment : Q) (term : nat).
Variable J : nat -> Q -> list Q -> Prop.

(** [J] holds of the year index, the remaining principal and the log of
    principal portions at the start of every year; it fixes in which years
    the payment is charged. *)
Hypothesis Jyear :
  forall i rem ports,
    J i rem ports ->
    let flag := (i <? term)%nat && ltb 0 rem in
    paymentPart flag payment == paymentPart (i <? term)%nat payment /\
    J (S i)
      (if flag
       then remainingPrincipal
              (monthLoop 12 r payment (mkAmortization rem 0 0 ports))
       else rem)
      (if flag
       then principalPortions
              (monthLoop 12 r payment (mkAmortization rem 0 0 ports))
       else ports).

Lemma House_loop_years (n : nat) :
  forall i s s',
    mortgageTermYears (this_ s) = term ->
    J i (remaining s) (portions s) ->
    House_loop r (Some payment) n i s = Ok s' ->
    let h := this_ s in
    let f := 1 + inflation (Housing.generalInformation (House_super h)) in
    J (i + n) (remaining s') (portions s') /\
    exists new,
      House_data (this_ s') = House_data h ++ new /\
      forall k record,
        nth_error new k = Some record ->
        yearlyCosts record
        == (monthlyInsurance (House_super h) * 12
            + monthlyHOA (House_super h) * 12
            + propertyTaxAssessment h) * Math_pow f k
           + paymentPart (i + k <? term)%nat payment
           + (if (i + k =? 0)%nat then oneTimeImprovements h
              else annualMaintenanceCost h * Math_pow f k).
Proof.
  induction n as [|n IH]; intros i s s' Hterm HJ H; cbn [House_loop] in H.
  - apply Ok_inj in H. subst s'. cbv zeta. rewrite Nat.add_0_r.
    split; [exact HJ|]. exists []. split; [now rewrite app_nil_r|].
    intros [|k] record Hk; discriminate Hk.
  - destruct (House_year r (Some payment) i s) as [s1|e] eqn:E1;
      [|discriminate H].
    cbn [bind] in H.
    pose proof (House_year_inv r _ i s s1 E1) as (Hsame & _ & _ & Hamort).
    apply House_year_record in E1. cbv zeta in E1.
    destruct E1 as (rec & p & Hdata & Hp & Hcost & _ & Hi1 & Hh1 & Ht1 & Hm1).
    destruct (Jyear i (remaining s) (portions s) HJ) as [Hpart HJ1].
    unfold amortizing in Hamort, Hcost, Hp. rewrite Hterm in Hamort, Hcost, Hp.
    assert (HJs1 : J (S i) (remaining s1) (portions s1)).
    { destruct ((i <? term)%nat && ltb 0 (remaining s)).
      - destruct Hamort as (p' & Hp' & Hrem & Hport).
        apply Ok_some_inj in Hp'. subst p'. rewrite Hrem, Hport. exact HJ1.
      - destruct Hamort as [Hrem Hport]. rewrite Hrem, Hport. exact HJ1. }
    assert (Hcost' :
              yearlyCosts rec
              == monthlyInsurance (House_super (this_ s)) * 12
                 + monthlyHOA (House_super (this_ s)) * 12
                 + propertyTaxAssessment (this_ s)
                 + paymentPart (i <? term)%nat payment
                 + (if (i =? 0)%nat then oneTimeImprovements (this_ s)
                    else annualMaintenanceCost (this_ s))).
    { rewrite Hcost, <- Hpart.
      destruct ((i <? term)%nat && ltb 0 (remaining s)).
      - specialize (Hp eq_refl). apply Ok_some_inj in Hp. subst p. reflexivity.
      - reflexivity. }
    assert (Hterm1 : mortgageTermYears (this_ s1) = term)
      by (rewrite <- Hterm; apply Hsame).
    destruct (IH (S i) s1 s' Hterm1 HJs1 H) as (HJend & new & Hnew & Hrecs).
    cbv zeta.
    split; [replace (i + S n)%nat with (S i + n)%nat by lia; exact HJend|].
    exists (rec :: new).
    split; [rewrite Hnew, Hdata, <- app_assoc; reflexivity|].
    assert (Hg : Housing.generalInformation (House_super (this_ s1))
                 = Housing.generalInformation (House_super (this_ s)))
      by apply Hsame.
    assert (Himp : oneTimeImprovements (this_ s1) = oneTimeImprovements (this_ s))
      by apply Hsame.
    intros [|k] record Hk; cbn [nth_error] in Hk.
    + apply Ok_some_inj in Hk. subst record.
      rewrite Hcost', Nat.add_0_r.
      repeat match goal with
             | |- context [Math_pow ?b 0] => change (Math_pow b 0) with 1
             end.
      destruct (i =? 0)%nat; ring.
    + rewrite (Hrecs k record Hk), Hg, Hi1, Hh1, Ht1, Hm1, Himp.
      replace (S i + k)%nat with (i + S k)%nat by lia.
      replace (i + S k =? 0)%nat with false
        by (symmetry; apply Nat.eqb_neq; lia).
      rewrite (Math_pow_S
                 (1 + inflation (Housing.generalInformation
                                   (House_super (this_ s)))) k).
      ring.
Qed.

End HouseYears.

Section MonthlyPortions.

Variables (P r pay : Q) (n : nat).
Hypothesis Hr : 0 < r.
Hypothesis HP : 0 < P.
Hypothesis Hn : (0 < n)%nat.
Hypothesis Hpay :
  pay * (Math_pow (1 + r) n - 1) == P * r * Math_pow (1 + r) n.

(** While the loan runs, the payment exceeds the interest due. *)
Lemma portion_positive (k : nat) (rem : Q) (paid : list Q) :
  (k < n)%nat -> amortized P r n k rem paid -> 0 < pay - rem * r.
Proof.
  intros Hk (Hrem & _).
  pose proof (factor_gt_1 r n Hr Hn) as HA.
  assert (Hq : 0 < Math_pow (1 + r) k) by (apply Math_pow_pos; lra).
  set (A := Math_pow (1 + r) n) in *. set (q := Math_pow (1 + r) k) in *.
  assert (Heq : (pay - rem * r) * (A - 1) == P * r * q).
  { transitivity (pay * (A - 1) - r * (rem * (A - 1))); [ring|].
    rewrite Hpay, Hrem. ring. }
  assert (Hpos : 0 < P * r * q)
    by (repeat apply Qmult_lt_0_compat; assumption).
  apply Qnot_le_lt. intro Hle.
  assert (H1 : 0 <= (- (pay - rem * r)) * (A - 1))
    by (apply Qmult_le_0_compat; lra).
  lra.
Qed.

Lemma monthLoop_portions_positive (m : nat) :
  forall (k : nat) (a : Amortization),
    (k + m <= n)%nat ->
    amortized P r n k (remainingPrincipal a) (principalPortions a) ->
    Forall (fun portion => 0 < portion) (principalPortions a) ->
    Forall (fun portion => 0 < portion)
      (principalPortions (monthLoop m r pay a)).
Proof.
  induction m as [|m IH]; intros k a Hk Ha Hpos.
  - exact Hpos.
  - change (monthLoop (S m) r pay a) with (monthLoop m r pay (monthStep r pay a)).
    apply (IH (S k)); [lia | |].
    + apply (monthStep_amortized P r pay n Hr HP Hn Hpay k a); [lia | exact Ha].
    + cbn [monthStep principalPortions]. apply Forall_app. split; [exact Hpos|].
      constructor; [|constructor].
      apply (portion_positive k (remainingPrincipal a) (principalPortions a));
        [lia | exact Ha].
Qed.

End MonthlyPortions.

Section LoanYears.

Variables (P r pay : Q) (term : nat).
Hypothesis Hr : 0 < r.
Hypothesis HP : 0 < P.
Hypothesis Hterm : (0 < term)%nat.
Hypothesis Hpay :
  pay * (Math_pow (1 + r) (12 * term) - 1)
  == P * r * Math_pow (1 + r) (12 * term).

Lemma loanState_year (i : nat) (rem : Q) (ports : list Q) :
  loanState P r term i rem ports ->
  let flag := (i <? term)%nat && ltb 0 rem in
  paymentPart flag pay == paymentPart (i <? term)%nat pay /\
  loanState P r term (S i)
    (if flag
     then remainingPrincipal (monthLoop 12 r pay (mkAmortization rem 0 0 ports))
     else rem)
    (if flag
     then principalPortions (monthLoop 12 r pay (mkAmortization rem 0 0 ports))
     else ports).
Proof.
  intros [Ham Hpos]. cbv zeta.
  destruct (Nat.ltb_spec i term) as [Hlt|Hge].
  - rewrite Nat.min_l in Ham by lia.
    assert (Hrem : 0 < rem).
    { apply (amortized_owing P r (12 * term) Hr HP ltac:(lia) (12 * i) rem ports);
        [lia | exact Ham]. }
    apply ltb_true in Hrem. rewrite Hrem. cbn [andb].
    split; [reflexivity|]. unfold loanState.
    rewrite Nat.min_l by lia.
    replace (12 * S i)%nat with (12 * i + 12)%nat by lia.
    split.
    + apply (monthLoop_amortized P r pay (12 * term) Hr HP ltac:(lia) Hpay 12
               (12 * i) (mkAmortization rem 0 0 ports)); [lia | exact Ham].
    + apply (monthLoop_portions_positive P r pay (12 * term) Hr HP ltac:(lia)
               Hpay 12 (12 * i) (mkAmortization rem 0 0 ports));
        [lia | exact Ham | exact Hpos].
  - cbn [andb]. split; [reflexivity|]. unfold loanState.
    rewrite Nat.min_r in Ham |- * by lia. now split.
Qed.

End LoanYears.

Lemma noLoan_year (r : Q) (term i : nat) (rem : Q) (ports : list Q) :
  noLoan i rem ports ->
  let flag := (i <? term)%nat && ltb 0 rem in
  paymentPart flag 0 == paymentPart (i <? term)%nat 0 /\
  noLoan (S i)
    (if flag
     then remainingPrincipal (monthLoop 12 r 0 (mkAmortization rem 0 0 ports))
     else rem)
    (if flag
     then principalPortions (monthLoop 12 r 0 (mkAmortization rem 0 0 ports))
     else ports).
Proof.
  intros [Hrem Hports]. cbv zeta.
  assert (Hflag : ltb 0 rem = false) by (now apply ltb_false).
  rewrite Hflag, andb_false_r. split; [|now split].
  unfold paymentPart. destruct (i <? term)%nat; ring.
Qed.

(** The payment of a loan with a positive principal, rate and term. *)
Lemma positive_loan_payment (h : House) :
  0 < mortgage h -> 0 < mortgageRate h -> (0 < mortgageTermYears h)%nat ->
  0 < monthlyRate h /\
  exists pay,
    monthlyMortgagePayment h = Some pay /\
    pay * (Math_pow (1 + monthlyRate h) (12 * mortgageTermYears h) - 1)
    == mortgage h * monthlyRate h
       * Math_pow (1 + monthlyRate h) (12 * mortgageTermYears h).
Proof.
  intros HP Hrate Hterm.
  assert (Hr : 0 < monthlyRate h)
    by (unfold monthlyRate; apply Qlt_shift_div_l; lra).
  split; [exact Hr|].
  assert (HA : 1 < Math_pow (1 + monthlyRate h) (12 * mortgageTermYears h))
    by (apply factor_gt_1; [exact Hr | lia]).
  unfold monthlyMortgagePayment.
  replace (totalPayments h) with (12 * mortgageTermYears h)%nat
    by (unfold totalPayments; lia).
  apply ltb_true in HP. rewrite HP. unfold jsdiv.
  destruct (Qeq_bool _ 0) eqn:E.
  - apply Qeq_bool_iff in E. lra.
  - eexists. split; [reflexivity|]. field. lra.
Qed.

(** A run on a house with a positive principal, rate and term. *)
Lemma House_run_loan (h : House) :
  0 < mortgage h -> 0 < mortgageRate h -> (0 < mortgageTermYears h)%nat ->
  let g := Housing.generalInformation (House_super h) in
  let f := 1 + inflation g in
  exists s pay,
    House_run h = Ok s /\
    monthlyMortgagePayment h = Some pay /\
    loanState (mortgage h) (monthlyRate h) (mortgageTermYears h) (years g)
      (remaining s) (portions s) /\
    exists new,
      House_data (this_ s) = House_data h ++ new /\
      forall k record,
        nth_error new k = Some record ->
        yearlyCosts record
        == (monthlyInsurance (House_super h) * 12
            + monthlyHOA (House_super h) * 12
            + propertyTaxAssessment h) * Math_pow f k
           + paymentPart (k <? mortgageTermYears h)%nat pay
           + (if (k =? 0)%nat then oneTimeImprovements h
              else annualMaintenanceCost h * Math_pow f k).
Proof.
  intros HP Hrate Hterm g f.
  destruct (positive_loan_payment h HP Hrate Hterm) as (Hr & pay & Hpay & Heq).
  destruct (House_calculateData_total h) as (s & Hrun & _);
    [left; rewrite Hpay; discriminate|].
  exists s, pay. split; [exact Hrun|]. split; [exact Hpay|].
  unfold House_run in Hrun. rewrite Hpay in Hrun.
  apply (House_loop_years (monthlyRate h) pay (mortgageTermYears h)
           (loanState (mortgage h) (monthlyRate h) (mortgageTermYears h))
           (loanState_year (mortgage h) (monthlyRate h) pay
              (mortgageTermYears h) Hr HP Hterm Heq)) in Hrun.
  - cbv zeta in Hrun. cbn [this_ Nat.add] in Hrun. exact Hrun.
  - reflexivity.
  - cbn [remaining portions]. unfold loanState, amortized.
    replace (12 * Nat.min 0 (mortgageTermYears h))%nat with 0%nat by lia.
    change (Math_pow (1 + monthlyRate h) 0) with 1.
    split; [|constructor]. split; [ring|].
    split; [unfold sumQ; cbn [fold_right]; ring | reflexivity].
Qed.

(** A run on a house without a mortgage. *)
Lemma House_run_no_loan (h : House) :
  mortgage h <= 0 ->
  let g := Housing.generalInformation (House_super h) in
  let f := 1 + inflation g in
  exists s,
    House_run h = Ok s /\
    monthlyMortgagePayment h = Some 0 /\
    exists new,
      House_data (this_ s) = House_data h ++ new /\
      forall k record,
        nth_error new k = Some record ->
        yearlyCosts record
        == (monthlyInsurance (House_super h) * 12
            + monthlyHOA (House_super h) * 12
            + propertyTaxAssessment h) * Math_pow f k
           + paymentPart (k <? mortgageTermYears h)%nat 0
           + (if (k =? 0)%nat then oneTimeImprovements h
              else annualMaintenanceCost h * Math_pow f k).
Proof.
  intros HP g f.
  assert (Hpay : monthlyMortgagePayment h = Some 0).
  { unfold monthlyMortgagePayment.
    assert (H : ltb 0 (mortgage h) = false) by (now apply ltb_false).
    now rewrite H. }
  destruct (House_calculateData_total h) as (s & Hrun & _);
    [left; rewrite Hpay; discriminate|].
  exists s. split; [exact Hrun|]. split; [exact Hpay|].
  unfold House_run in Hrun. rewrite Hpay in Hrun.
  apply (House_loop_years (monthlyRate h) 0 (mortgageTermYears h) noLoan
           (noLoan_year (monthlyRate h) (mortgageTermYears h))) in Hrun.
  - cbv zeta in Hrun. cbn [this_ Nat.add] in Hrun. apply Hrun.
  - reflexivity.
  - cbn [remaining portions]. now split.
Qed.

(** X11.  On a newly constructed house without a mortgage, or with a
    mortgage of positive rate and term, [calculateData] records for year
    [i] the yearly costs
    [(insurance * 12 + HOA * 12 + propertyTax) * (1 + inflation)^i], plus
    twelve monthly payments while [i < mortgageTermYears], plus the one-time
    improvements in year 0 and [maintenance * (1 + inflation)^i] in every
    later year.  So the costs drop by twelve payments in the year the term
    ends, and the maintenance of year 1 is already inflated once. *)
Theorem House_yearly_costs (h : House) :
  House_data h = [] ->
  mortgage h <= 0 \/ (0 < mortgageRate h /\ (0 < mortgageTermYears h)%nat) ->
  let g := Housing.generalInformation (House_super h) in
  let f := 1 + inflation g in
  exists h',
    House_calculateData h = Ok h' /\
    length (House_data h') = years g /\
    forall i record,
      nth_error (House_data h') i = Some record ->
      yearlyCosts record
      == (monthlyInsurance (House_super h) * 12
          + monthlyHOA (House_super h) * 12
          + propertyTaxAssessment h) * Math_pow f i
         + paymentPart (i <? mortgageTermYears h)%nat (paymentOf h)
         + (if (i =? 0)%nat then oneTimeImprovements h
            else annualMaintenanceCost h * Math_pow f i).
Proof.
  intros Hnew Hloan g f.
  assert (Hcases : exists s pay,
             House_run h = Ok s /\ monthlyMortgagePayment h = Some pay /\
             exists new,
               House_data (this_ s) = House_data h ++ new /\
               forall k record,
                 nth_error new k = Some record ->
                 yearlyCosts record
                 == (monthlyInsurance (House_super h) * 12
                     + monthlyHOA (House_super h) * 12
                     + propertyTaxAssessment h) * Math_pow f k
                    + paymentPart (k <? mortgageTermYears h)%nat pay
                    + (if (k =? 0)%nat then oneTimeImprovements h
                       else annualMaintenanceCost h * Math_pow f k)).
  { destruct (Qlt_le_dec 0 (mortgage h)) as [HP|HP].
    - destruct Hloan as [Hno|[Hrate Hterm]]; [lra|].
      destruct (House_run_loan h HP Hrate Hterm) as (s & pay & H1 & H2 & _ & H3).
      now exists s, pay.
    - destruct (House_run_no_loan h HP) as (s & H1 & H2 & H3).
      now exists s, 0. }
  destruct Hcases as (s & pay & Hrun & Hpay & new & Hdata & Hrecs).
  exists (this_ s). unfold House_calculateData. rewrite Hrun. cbn [bind].
  split; [reflexivity|].
  destruct (House_run_inv h s Hrun) as (_ & new' & Hdata' & Hlen & _).
  rewrite Hnew in Hdata, Hdata'. cbn [app] in Hdata, Hdata'.
  split; [rewrite Hdata'; exact Hlen|].
  unfold paymentOf. rewrite Hpay, Hdata. exact Hrecs.
Qed.

Lemma House_yearly_costs_witness :
  exists h' first second,
    House_calculateData oneYearLoan = Ok h' /\
    nth_error (House_data h') 0 = Some first /\
    nth_error (House_data h') 1 = Some second /\
    yearlyCosts first == 5800 + paymentOf oneYearLoan * 12 + 5000 /\
    yearlyCosts second == (5800 + 2000) * 1.03.
Proof.
  destruct (House_yearly_costs oneYearLoan) as (h' & Hcalc & Hlen & Hrecs).
  - reflexivity.
  - right. split; [reflexivity | cbn; lia].
  - destruct (House_data h') as [|first [|second rest]] eqn:Hdata;
      try discriminate Hlen.
    exists h', first, second. split; [exact Hcalc|].
    split; [now rewrite Hdata|]. split; [now rewrite Hdata|]. split.
    + apply (Qeq_trans _ _ _ (Hrecs 0%nat first eq_refl)).
      cbn [Nat.ltb Nat.leb Nat.eqb paymentPart oneYearLoan].
      generalize (paymentOf oneYearLoan). intro p.
      cbn. change (Math_pow (1 + 0.03) 0) with 1. ring.
    + apply (Qeq_trans _ _ _ (Hrecs 1%nat second eq_refl)).
      vm_compute. reflexivity.
Defined.

(** X12.  On a newly constructed house whose monthly payment is a finite
    number, the cumulative column of the series produced by
    [calculateData] is the running sum of the yearly costs: the total of
    year [i] is the sum of the yearly costs of the years [0] to [i]. *)
Theorem House_total_costs_accumulate (h : House) :
  House_data h = [] ->
  monthlyMortgagePayment h <> None ->
  exists h',
    House_calculateData h = Ok h' /\
    forall i record,
      nth_error (House_data h') i = Some record ->
      totalCosts record
      == sumQ (map yearlyCosts (firstn (S i) (House_data h'))).
Proof.
  intros Hnew Hpay.
  destruct (House_calculateData_total h (or_introl Hpay)) as (s & Hrun & Hcalc).
  exists (this_ s). split; [exact Hcalc|].
  apply runningTotals_sum.
  unfold House_run in Hrun. apply House_loop_fields in Hrun.
  cbv zeta in Hrun. cbn [this_] in Hrun.
  destruct Hrun as (_ & _ & _ & _ & Hrun). apply Hrun.
  - now rewrite Hnew.
  - rewrite Hnew. intros [|i] record Hi; discriminate Hi.
Qed.

Lemma House_total_costs_accumulate_witness :
  exists h' first second,
    House_calculateData smallHouse = Ok h' /\
    House_data h' = [first; second] /\
    totalCosts second == yearlyCosts first + yearlyCosts second.
Proof.
  destruct (House_total_costs_accumulate smallHouse) as (h' & Hcalc & Hsum).
  - reflexivity.
  - vm_compute. discriminate.
  - destruct (House_calculateData_run smallHouse h' Hcalc) as (s & Hrun & ->).
    destruct (House_run_inv smallHouse s Hrun) as (_ & new & Hdata & Hlen & _).
    cbn [app] in Hdata.
    change (House_data smallHouse) with (@nil HousingYear) in Hdata.
    cbn [app] in Hdata. rewrite <- Hdata in Hlen.
    destruct (House_data (this_ s)) as [|first [|second [|third rest]]] eqn:Hd;
      try discriminate Hlen.
    exists (this_ s), first, second. split; [exact Hcalc|].
    split; [exact Hd|].
    rewrite (Hsum 1%nat second eq_refl). cbn [firstn map].
    rewrite !sumQ_cons. unfold sumQ. cbn [fold_right]. ring.
Defined.



(** X14.  For a loan with a positive principal, rate and term,
    [calculateData] makes twelve monthly payments in each year of the
    horizon that lies within the term: [12 * min(years, term)] principal
    portions in all, which add up to what is no longer owed.  When the term
    ends within the horizon nothing remains; when the horizon ends first,
    the amortization stops there and a positive principal remains. *)
Theorem House_amortization_progress (h : House) :
  0 < mortgage h ->
  0 < mortgageRate h ->
  (0 < mortgageTermYears h)%nat ->
  let n := years (Housing.generalInformation (House_super h)) in
  exists s,
    House_run h = Ok s /\
    length (portions s) = (12 * Nat.min n (mortgageTermYears h))%nat /\
    sumQ (portions s) == mortgage h - remaining s /\
    (if (mortgageTermYears h <=? n)%nat
     then remaining s == 0
     else 0 < remaining s).
Proof.
  intros HP Hrate Hterm n.
  destruct (House_run_loan h HP Hrate Hterm) as (s & pay & Hrun & _ & Hstate & _).
  cbv zeta in Hstate. fold n in Hstate.
  destruct Hstate as [Ham _].
  destruct (positive_loan_payment h HP Hrate Hterm) as (Hr & _).
  exists s. split; [exact Hrun|].
  pose proof Ham as (_ & Hsum & Hlen).
  split; [exact Hlen|]. split; [exact Hsum|].
  destruct (Nat.leb_spec (mortgageTermYears h) n) as [Hle|Hlt].
  - rewrite Nat.min_r in Ham by lia.
    now apply (amortized_paid_off (mortgage h) (monthlyRate h)
                 (12 * mortgageTermYears h) Hr ltac:(lia)) in Ham.
  - rewrite Nat.min_l in Ham by lia.
    apply (amortized_owing (mortgage h) (monthlyRate h)
             (12 * mortgageTermYears h) Hr HP ltac:(lia)
             (12 * n) (remaining s) (portions s)); [lia | exact Ham].
Qed.

Lemma House_amortization_progress_witness :
  exists s,
    House_run shortHorizonHouse = Ok s /\
    length (portions s) = 24%nat /\
    0 < remaining s.
Proof.
  destruct (House_amortization_progress shortHorizonHouse)
    as (s & Hrun & Hlen & _ & Hrem).
  - reflexivity.
  - reflexivity.
  - cbn; lia.
  - exists s. split; [exact Hrun|]. split; [exact Hlen | exact Hrem].
Defined.

Lemma sumQ_positive (l : list Q) :
  Forall (fun x => 0 < x) l -> 0 <= sumQ l.
Proof.
  induction 1 as [|x l Hx _ IH].
  - unfold sumQ. cbn [fold_right]. lra.
  - rewrite sumQ_cons. lra.
Qed.

(** X15.  For a loan with a positive principal, rate and term, every
    monthly payment exceeds the interest due: all principal portions are
    positive.  The remaining principal is never negative and never above
    the original principal. *)
Theorem House_principal_portions_positive (h : House) :
  0 < mortgage h ->
  0 < mortgageRate h ->
  (0 < mortgageTermYears h)%nat ->
  exists s,
    House_run h = Ok s /\
    Forall (fun portion => 0 < portion) (portions s) /\
    0 <= remaining s /\
    remaining s <= mortgage h.
Proof.
  intros HP Hrate Hterm.
  destruct (House_run_loan h HP Hrate Hterm) as (s & pay & Hrun & _ & Hstate & _).
  cbv zeta in Hstate. destruct Hstate as [Ham Hpos].
  destruct (positive_loan_payment h HP Hrate Hterm) as (Hr & _).
  exists s. split; [exact Hrun|]. split; [exact Hpos|].
  pose proof Ham as (Hrem & Hsum & _).
  pose proof (sumQ_positive _ Hpos) as Hnonneg.
  split; [|lra].
  set (n := years (Housing.generalInformation (House_super h))) in *.
  pose proof (factor_gt_1 (monthlyRate h) (12 * mortgageTermYears h) Hr
                ltac:(lia)) as HA.
  assert (Hq : Math_pow (1 + monthlyRate h) (12 * Nat.min n (mortgageTermYears h))
               <= Math_pow (1 + monthlyRate h) (12 * mortgageTermYears h))
    by (apply Math_pow_le; [lra | lia]).
  apply (Qmult_pos_cancel (remaining s)
           (Math_pow (1 + monthlyRate h) (12 * mortgageTermYears h) - 1));
    [lra|].
  rewrite Hrem. apply Qmult_le_0_compat; lra.
Qed.

Lemma House_principal_portions_positive_witness :
  exists s,
    House_run shortHorizonHouse = Ok s /\
    Forall (fun portion => 0 < portion) (portions s) /\
    remaining s <= 320000.
Proof.
  destruct (House_principal_portions_positive shortHorizonHouse)
    as (s & Hrun & Hpos & _ & Hle).
  - reflexivity.
  - reflexivity.
  - cbn; lia.
  - exists s. split; [exact Hrun|]. split; [exact Hpos | exact Hle].
Defined.

(** ** Apartment and living expenses *)

Lemma Apartment_year_record (i : nat) (this this' : Apartment) (rent rent' : Q) :
  Apartment_year i (this, rent) = Ok (this', rent') ->
  let g := Housing.generalInformation (Apartment_super this) in
  exists record,
    Apartment_data this' = Apartment_data this ++ [record] /\
    Housing.value record = 0 /\
    Housing.age record = (startAge g + Z.of_nat i)%Z /\
    yearlyCosts record
    = rent * 12 + monthlyInsurance (Apartment_super this) * 12
      + monthlyHOA (Apartment_super this) * 12 /\
    cumulate (Apartment_data this) i (yearlyCosts record) = Ok (totalCosts record) /\
    rent' = rent * (1 + annualRentIncrease this) /\
    monthlyInsurance (Apartment_super this')
    = monthlyInsurance (Apartment_super this) * (1 + inflation g) /\
    monthlyHOA (Apartment_super this')
    = monthlyHOA (Apartment_super this) * (1 + inflation g) /\
    Housing.generalInformation (Apartment_super this') = g /\
    annualRentIncrease this' = annualRentIncrease this.
Proof.
  unfold Apartment_year, Apartment_data. intro H. cbv zeta.
  match type of H with
  | context [cumulate ?d ?k ?c] => destruct (cumulate d k c) as [t|e] eqn:Et
  end; [|discriminate H].
  cbn [bind] in H. apply Ok_inj in H.
  apply (f_equal fst) in H as H1. apply (f_equal snd) in H as H2.
  cbn [fst snd] in H1, H2. subst this' rent'.
  cbn [Apartment_super housingData monthlyInsurance monthlyHOA
       Housing.generalInformation annualRentIncrease].
  eexists. split; [reflexivity|].
  cbn [Housing.value Housing.age yearlyCosts totalCosts].
  repeat split. exact Et.
Qed.

Lemma Apartment_loop_records (n : nat) :
  forall i this rent s',
    Apartment_loop n i (this, rent) = Ok s' ->
    let g := Housing.generalInformation (Apartment_super this) in
    exists new,
      Apartment_data (fst s') = Apartment_data this ++ new /\
      (forall k record,
          nth_error new k = Some record ->
          Housing.value record = 0 /\
          Housing.age record = (startAge g + Z.of_nat (i + k))%Z /\
          yearlyCosts record
          == rent * Math_pow (1 + annualRentIncrease this) k * 12
             + monthlyInsurance (Apartment_super this)
               * Math_pow (1 + inflation g) k * 12
             + monthlyHOA (Apartment_super this)
               * Math_pow (1 + inflation g) k * 12) /\
      (length (Apartment_data this) = i ->
       runningTotals (Apartment_data this) ->
       runningTotals (Apartment_data (fst s'))).
Proof.
  induction n as [|n IH]; intros i this rent s' H; cbn [Apartment_loop] in H.
  - apply Ok_inj in H. subst s'. cbv zeta. cbn [fst]. exists [].
    split; [now rewrite app_nil_r|].
    split; [intros [|k] record Hk; discriminate Hk | auto].
  - destruct (Apartment_year i (this, rent)) as [[this1 rent1]|e] eqn:E1;
      [|discriminate H].
    cbn [bind] in H. apply Apartment_year_record in E1. cbv zeta in E1.
    destruct E1 as (rec & Hdata & Hval & Hage & Hcost & Hcum & Hrent & Hins
                    & Hhoa & Hg & Hinc).
    apply IH in H. cbv zeta in H. destruct H as (new & Hnew & Hrecs & Hrun).
    cbv zeta. exists (rec :: new).
    split; [rewrite Hnew, Hdata, <- app_assoc; reflexivity|].
    split.
    + intros [|k] record Hk; cbn [nth_error] in Hk.
      * apply Ok_some_inj in Hk. subst record.
        rewrite Nat.add_0_r. split; [exact Hval|]. split; [exact Hage|].
        rewrite Hcost.
        repeat match goal with
               | |- context [Math_pow ?b 0] => change (Math_pow b 0) with 1
               end.
        ring.
      * destruct (Hrecs k record Hk) as (Hv & Ha & Hc).
        split; [exact Hv|].
        split; [rewrite Ha, Hg; f_equal; lia|].
        rewrite Hc, Hg, Hrent, Hins, Hhoa, Hinc.
        rewrite (Math_pow_S (1 + annualRentIncrease this) k).
        rewrite (Math_pow_S
                   (1 + inflation (Housing.generalInformation
                                     (Apartment_super this))) k).
        ring.
    + intros Hlen Htot. apply Hrun.
      * rewrite Hdata, length_app. cbn [length]. lia.
      * rewrite Hdata. apply runningTotals_push; [exact Htot|].
        rewrite Hlen. exact Hcum.
Qed.

(** X16.  [Apartment.calculateData] on a newly constructed apartment
    always ends normally with one record per year of the horizon.  The
    record of year [i] has the age [startAge + i], no equity, the yearly
    costs [rent * (1 + rentIncrease)^i * 12 + insurance * (1 + inflation)^i
    * 12 + HOA * (1 + inflation)^i * 12], and as total costs the sum of the
    yearly costs up to that year. *)
Theorem Apartment_yearly_costs (a : Apartment) :
  Apartment_data a = [] ->
  let g := Housing.generalInformation (Apartment_super a) in
  exists a',
    Apartment_calculateData a = Ok a' /\
    length (Apartment_data a') = years g /\
    forall i record,
      nth_error (Apartment_data a') i = Some record ->
      Housing.value record = 0 /\
      Housing.age record = (startAge g + Z.of_nat i)%Z /\
      yearlyCosts record
      == monthlyRent a * Math_pow (1 + annualRentIncrease a) i * 12
         + monthlyInsurance (Apartment_super a) * Math_pow (1 + inflation g) i * 12
         + monthlyHOA (Apartment_super a) * Math_pow (1 + inflation g) i * 12 /\
      totalCosts record
      == sumQ (map yearlyCosts (firstn (S i) (Apartment_data a'))).
Proof.
  intros Hnew g.
  destruct (Apartment_calculateData_appends a) as (a' & new & Hcalc & Hdata & Hlen & _).
  exists a'. split; [exact Hcalc|].
  rewrite Hnew in Hdata. cbn [app] in Hdata.
  split; [rewrite Hdata; exact Hlen|].
  unfold Apartment_calculateData in Hcalc.
  destruct (Apartment_loop (years (Housing.generalInformation (Apartment_super a)))
              0 (a, monthlyRent a)) as [s'|e] eqn:Hloop; [|discriminate Hcalc].
  cbn [bind] in Hcalc. apply Ok_inj in Hcalc. subst a'.
  apply Apartment_loop_records in Hloop. cbv zeta in Hloop.
  destruct Hloop as (new' & Hnew' & Hrecs & Hrun).
  rewrite Hnew in Hnew'. cbn [app] in Hnew'.
  intros i record Hi.
  assert (Htot : runningTotals (Apartment_data (fst s'))).
  { apply Hrun; [now rewrite Hnew|].
    rewrite Hnew. intros [|k] y Hk; discriminate Hk. }
  pose proof (runningTotals_sum _ Htot i record Hi) as Hsum.
  rewrite Hnew' in Hi. destruct (Hrecs i record Hi) as (Hv & Ha & Hc).
  cbn [Nat.add] in Ha. now repeat split.
Qed.

Lemma Apartment_yearly_costs_witness :
  exists a' record,
    Apartment_calculateData flat = Ok a' /\
    nth_error (Apartment_data a') 2 = Some record /\
    Housing.value record = 0 /\
    yearlyCosts record == 1500 * (1.05 * 1.05) * 12 + 20 * (1.03 * 1.03) * 12.
Proof.
  destruct (Apartment_yearly_costs flat) as (a' & Hcalc & Hlen & Hrecs).
  - reflexivity.
  - destruct (nth_error (Apartment_data a') 2) as [record|] eqn:Hrec.
    + destruct (Hrecs 2%nat record Hrec) as (Hv & _ & Hc & _).
      exists a', record. split; [exact Hcalc|]. split; [exact Hrec|].
      split; [exact Hv|]. apply (Qeq_trans _ _ _ Hc). vm_compute. reflexivity.
    + apply nth_error_None in Hrec. rewrite Hlen in Hrec.
      vm_compute in Hrec. lia.
Defined.

Lemma index_map {A B : Type} (f : A -> B) (l : list A) (i : nat) :
  index (map f l) i
  = match index l i with
    | Ok a => Ok (f a)
    | Err e => Err e
    end.
Proof.
  unfold index. rewrite nth_error_map. now destruct (nth_error l i).
Qed.

Lemma Living_year_record (i : nat) (this this' : Living.LivingExpenses)
    (spend retire spend' retire' : Q) :
  Living.year i (this, spend, retire) = Ok (this', spend', retire') ->
  let g := Living.generalInformation this in
  exists record,
    Living.expensesData this' = Living.expensesData this ++ [record] /\
    Living.age record = (startAge g + Z.of_nat i)%Z /\
    Living.yearlySpending record = (if preRetirement g i then spend else retire) /\
    cumulate (map asHousingYear (Living.expensesData this)) i
      (Living.yearlySpending record) = Ok (Living.totalCosts record) /\
    spend' = spend * (1 + inflation g) /\
    retire' = retire * (1 + inflation g) /\
    Living.generalInformation this' = g.
Proof.
  unfold Living.year. intro H. cbv zeta.
  unfold cumulate. rewrite index_map.
  destruct (i =? 0)%nat.
  - cbn [bind] in H. apply Ok_inj in H.
    injection H as <- <- <-.
    cbn [Living.expensesData Living.generalInformation].
    eexists. split; [reflexivity|].
    cbn [Living.age Living.yearlySpending Living.totalCosts]. now repeat split.
  - destruct (index (Living.expensesData this) (i - 1)) as [prev|e];
      [|discriminate H].
    cbn [bind] in H. apply Ok_inj in H.
    injection H as <- <- <-.
    cbn [Living.expensesData Living.generalInformation].
    eexists. split; [reflexivity|].
    cbn [Living.age Living.yearlySpending Living.totalCosts bind
         asHousingYear totalCosts].
    now repeat split.
Qed.

Lemma Living_loop_records (n : nat) :
  forall i this spend retire,
    (i <= length (Living.expensesData this))%nat ->
    let g := Living.generalInformation this in
    exists this' spend' retire' new,
      Living.loop n i (this, spend, retire) = Ok (this', spend', retire') /\
      Living.expensesData this' = Living.expensesData this ++ new /\
      length new = n /\
      (forall k record,
          nth_error new k = Some record ->
          Living.age record = (startAge g + Z.of_nat (i + k))%Z /\
          Living.yearlySpending record
          == (if preRetirement g (i + k) then spend else retire)
             * Math_pow (1 + inflation g) k) /\
      (length (Living.expensesData this) = i ->
       runningTotals (map asHousingYear (Living.expensesData this)) ->
       runningTotals (map asHousingYear (Living.expensesData this'))).
Proof.
  induction n as [|n IH]; intros i this spend retire Hlen; cbv zeta.
  - exists this, spend, retire, []. cbn [Living.loop].
    split; [reflexivity|]. split; [now rewrite app_nil_r|].
    split; [reflexivity|].
    split; [intros [|k] record Hk; discriminate Hk | auto].
  - cbn [Living.loop].
    assert (Hyear : exists s1, Living.year i (this, spend, retire) = Ok s1).
    { unfold Living.year. destruct (i =? 0)%nat eqn:E.
      - cbn [bind]. now eexists.
      - apply Nat.eqb_neq in E.
        destruct (index_lt (Living.expensesData this) (i - 1)) as [p Hp]; [lia|].
        rewrite Hp. cbn [bind]. now eexists. }
    destruct Hyear as ([[this1 spend1] retire1] & E1). rewrite E1. cbn [bind].
    apply Living_year_record in E1. cbv zeta in E1.
    destruct E1 as (rec & Hdata & Hage & Hsp & Hcum & Hs1 & Hr1 & Hg).
    destruct (IH (S i) this1 spend1 retire1)
      as (this' & spend' & retire' & new & Hloop & Hnew & Hlen' & Hrecs & Hrun).
    { rewrite Hdata, length_app. cbn [length]. lia. }
    cbv zeta in Hrecs. rewrite Hg in Hrecs.
    exists this', spend', retire', (rec :: new).
    split; [exact Hloop|].
    split; [rewrite Hnew, Hdata, <- app_assoc; reflexivity|].
    split; [cbn [length]; now rewrite Hlen'|].
    split.
    + intros [|k] record Hk; cbn [nth_error] in Hk.
      * apply Ok_some_inj in Hk. subst record. rewrite Nat.add_0_r.
        split; [exact Hage|]. rewrite Hsp.
        change (Math_pow (1 + inflation (Living.generalInformation this)) 0)
          with 1.
        ring.
      * destruct (Hrecs k record Hk) as (Ha & Hc).
        replace (i + S k)%nat with (S i + k)%nat by lia.
        split; [exact Ha|]. rewrite Hc, Hs1, Hr1.
        rewrite (Math_pow_S (1 + inflation (Living.generalInformation this)) k).
        destruct (preRetirement (Living.generalInformation this) (S i + k));
          ring.
    + intros Hl Htot. apply Hrun.
      * rewrite Hdata, length_app. cbn [length]. lia.
      * rewrite Hdata, map_app. cbn [map].
        apply runningTotals_push; [exact Htot|].
        rewrite length_map, Hl. exact Hcum.
Qed.

(** X17.  [LivingExpenses.calculateData] on a newly constructed object
    always ends normally with one record per year of the horizon.  The
    record of year [i] holds the pre-retirement spending
    [monthlySpending * 12] while [startAge + i < retirementAge] and the
    retirement spending [retirementMonthlySpending * 12] afterwards, in
    both cases inflated by [(1 + inflation)^i]: the retirement spending is
    inflated from the start of the simulation, not from retirement.  The
    total costs are the running sum of the yearly spending. *)
Theorem LivingExpenses_yearly_spending (g : GeneralInformation) :
  exists l,
    Living.calculateData (Living.new g) = Ok l /\
    length (Living.expensesData l) = years g /\
    forall i record,
      nth_error (Living.expensesData l) i = Some record ->
      Living.age record = (startAge g + Z.of_nat i)%Z /\
      Living.yearlySpending record
      == (if (startAge g + Z.of_nat i <? retirementAge g)%Z
          then monthlySpending g * 12
          else retirementMonthlySpending g * 12)
         * Math_pow (1 + inflation g) i /\
      Living.totalCosts record
      == sumQ (map Living.yearlySpending (firstn (S i) (Living.expensesData l))).
Proof.
  destruct (Living_loop_records (years g) 0 (Living.new g)
              (monthlySpending g * 12) (retirementMonthlySpending g * 12))
    as (l & spend' & retire' & new & Hloop & Hdata & Hlen & Hrecs & Hrun);
    [cbn; lia|].
  cbv zeta in Hrecs. cbn [Living.new Living.generalInformation Living.expensesData app]
    in Hdata, Hrecs, Hrun.
  exists l. unfold Living.calculateData.
  cbn [Living.new Living.generalInformation]. rewrite Hloop. cbn [bind fst].
  split; [reflexivity|]. split; [rewrite Hdata; exact Hlen|].
  intros i record Hi.
  assert (Htot : runningTotals (map asHousingYear (Living.expensesData l))).
  { apply Hrun; [reflexivity|]. intros [|k] y Hk; discriminate Hk. }
  assert (Hi' : nth_error (map asHousingYear (Living.expensesData l)) i
                = Some (asHousingYear record))
    by (rewrite nth_error_map, Hi; reflexivity).
  pose proof (runningTotals_sum _ Htot i (asHousingYear record) Hi') as Hsum.
  cbn [asHousingYear totalCosts] in Hsum.
  rewrite firstn_map, map_map in Hsum.
  cbn [asHousingYear yearlyCosts] in Hsum.
  rewrite Hdata in Hi. destruct (Hrecs i record Hi) as (Ha & Hc).
  cbn [Nat.add] in Ha, Hc.
  split; [exact Ha|]. split; [|exact Hsum].
  rewrite Hc. unfold preRetirement.
  replace (Z.of_nat i <? retirementAge g - startAge g)%Z
    with (startAge g + Z.of_nat i <? retirementAge g)%Z; [reflexivity|].
  destruct (Z.ltb_spec (startAge g + Z.of_nat i) (retirementAge g));
    symmetry; [apply Z.ltb_lt | apply Z.ltb_ge]; lia.
Qed.

(** ** Investments: missing inputs *)

Lemma yearLoop_split (w : Q -> Q) (hc : nat -> result (option Q))
    (hs : list Housing.GenericHousing) (le : Living.LivingExpenses) (n m : nat) :
  forall i this,
    yearLoop w hc hs le (n + m) i this
    = match yearLoop w hc hs le n i this with
      | (this1, Completed) => yearLoop w hc hs le m (i + n) this1
      | stopped => stopped
      end.
Proof.
  induction n as [|n IH]; intros i this.
  - cbn [Nat.add yearLoop]. now rewrite Nat.add_0_r.
  - cbn [Nat.add yearLoop].
    destruct (bind (hc i) _) as [values|e]; [|reflexivity].
    rewrite IH. now replace (S i + n)%nat with (i + S n)%nat by lia.
Qed.

(** Before retirement a year needs no record of any housing or living
    series. *)
Lemma scenarioLoop_accumulation (w : Q -> Q) (c : option Q)
    (this : GenericInvestment) (le : Living.LivingExpenses) (i : nat)
    (hs : list Housing.GenericHousing) :
  length (investmentData this) = i ->
  preRetirement (generalInformation this) i = true ->
  forall j0,
    (forall record, In record (investmentData this) ->
                    (j0 + length hs <= length (value record))%nat) ->
    exists values, scenarioLoop w c this hs le i j0 = Ok values.
Proof.
  intros Hlen Hpre. induction hs as [|housing rest IH]; intros j0 Hwide.
  - now eexists.
  - cbn [scenarioLoop].
    destruct (previousValue_total this i j0 Hlen) as [prev Hprev].
    { intros record Hin. specialize (Hwide record Hin).
      cbn [length] in Hwide. lia. }
    unfold currentValue. rewrite Hpre, Hprev. cbn [bind].
    destruct (IH (S j0)) as [vs Hvs].
    { intros record Hin. specialize (Hwide record Hin).
      cbn [length] in Hwide. lia. }
    rewrite Hvs. cbn [bind]. now eexists.
Qed.

Lemma yearLoop_accumulation_years (w : Q -> Q) (hc : nat -> result (option Q))
    (hs : list Housing.GenericHousing) (le : Living.LivingExpenses) (n : nat) :
  forall i this,
    length (investmentData this) = i ->
    fullWidth this (length hs) ->
    (forall k, (k < i + n)%nat -> exists c, hc k = Ok c) ->
    (forall k, (k < i + n)%nat -> preRetirement (generalInformation this) k = true) ->
    exists this',
      yearLoop w hc hs le n i this = (this', Completed) /\
      length (investmentData this') = (i + n)%nat /\
      fullWidth this' (length hs) /\
      generalInformation this' = generalInformation this.
Proof.
  induction n as [|n IH]; intros i this Hlen Hwide Hhc Hpre.
  - exists this. cbn [yearLoop]. rewrite Nat.add_0_r. now repeat split.
  - cbn [yearLoop]. destruct (Hhc i) as [c Hc]; [lia|]. rewrite Hc. cbn [bind].
    destruct (scenarioLoop_accumulation w c this le i hs Hlen (Hpre i ltac:(lia)) 0)
      as [values Hvalues].
    { intros record Hin. rewrite (Hwide record Hin). cbn. lia. }
    rewrite Hvalues.
    destruct (IH (S i)
                (push this
                   (mkInvestmentYear
                      (startAge (generalInformation this) + Z.of_nat i) values)))
      as (this' & Hloop & Hlen' & Hwide' & Hg).
    + cbn [push investmentData]. rewrite length_app. cbn [length]. lia.
    + intros record Hin. cbn [push investmentData] in Hin.
      apply in_app_or in Hin. destruct Hin as [Hin|[<-|[]]].
      * now apply Hwide.
      * cbn [value]. now apply (scenarioLoop_inv w c this le i hs 0 values).
    + intros k Hk. apply Hhc. lia.
    + intros k Hk. cbn [push generalInformation]. apply Hpre. lia.
    + exists this'. split; [exact Hloop|].
      split; [rewrite Hlen'; lia|]. split; [exact Hwide' | exact Hg].
Qed.

(** A drawdown year throws when the living series has no record for it. *)
Lemma scenarioLoop_missing_record (w : Q -> Q) (c : option Q)
    (this : GenericInvestment) (le : Living.LivingExpenses) (i : nat)
    (housing : Housing.GenericHousing) (rest : list Housing.GenericHousing) :
  preRetirement (generalInformation this) i = false ->
  nth_error (Living.expensesData le) i = None ->
  scenarioLoop w c this (housing :: rest) le i 0 = Err TypeError.
Proof.
  intros Hpre Hle. cbn [scenarioLoop]. unfold currentValue. rewrite Hpre.
  unfold uncoveredLivingCosts, index. rewrite Hle.
  now destruct (nth_error (Housing.housingData housing) i).
Qed.

(** X18.  [NonTaxableInvestment.calculateData] reads series that must have
    been computed before.  With a healthcare object that has no records
    (its [calculateData] was not called) the call throws a [TypeError] in
    year 0 and leaves the account as it was.  With a living-expenses object
    that has no records and at least one housing scenario, a newly
    constructed account goes through the years before retirement, which
    read no series, and throws in the retirement year: it is left with one
    record per accumulation year. *)
Theorem NonTaxable_calculateData_missing_series :
  (forall (this : NonTaxableInvestment)
          (housingCosts : list Housing.GenericHousing)
          (livingExpenses : Living.LivingExpenses)
          (healthcare : Healthcare.HealthcareCosts),
      Healthcare.healthcareData healthcare = [] ->
      (0 < years (generalInformation this))%nat ->
      NonTaxable_calculateData this housingCosts livingExpenses (Some healthcare)
      = (this, Stopped TypeError)) /\
  (forall (this : NonTaxableInvestment)
          (housingCosts : list Housing.GenericHousing)
          (livingExpenses : Living.LivingExpenses),
      investmentData this = [] ->
      housingCosts <> [] ->
      Living.expensesData livingExpenses = [] ->
      (startAge (generalInformation this)
       <= retirementAge (generalInformation this))%Z ->
      (retirementYear (generalInformation this)
       < years (generalInformation this))%nat ->
      exists this',
        NonTaxable_calculateData this housingCosts livingExpenses None
        = (this', Stopped TypeError) /\
        length (investmentData this')
        = retirementYear (generalInformation this)).
Proof.
  split.
  - intros this hs le hc Hdata Hyears. unfold NonTaxable_calculateData.
    destruct (years (generalInformation this)) as [|n]; [lia|].
    cbn [yearLoop]. unfold healthcareCostOf, index. rewrite Hdata.
    reflexivity.
  - intros this hs le Hfresh Hhs Hle Hages Hret.
    unfold NonTaxable_calculateData.
    set (g := generalInformation this) in *.
    set (r := retirementYear g) in *.
    replace (years g) with (r + S (years g - r - 1))%nat by lia.
    rewrite yearLoop_split.
    destruct (yearLoop_accumulation_years NonTaxable_withdrawals
                (healthcareCostOf None) hs le r 0 this)
      as (this1 & Hloop & Hlen & _ & Hg).
    + now rewrite Hfresh.
    + intros record Hin. rewrite Hfresh in Hin. destruct Hin.
    + intros k _. now eexists.
    + intros k Hk. fold g. unfold preRetirement. apply Z.ltb_lt.
      unfold r, retirementYear in Hk. lia.
    + rewrite Hloop. cbn [Nat.add yearLoop healthcareCostOf bind].
      destruct hs as [|housing rest]; [congruence|].
      rewrite scenarioLoop_missing_record.
      * exists this1. split; [reflexivity | exact Hlen].
      * rewrite Hg. fold g. unfold preRetirement. apply Z.ltb_ge.
        unfold r, retirementYear. lia.
      * rewrite Hle. now destruct r.
Qed.

Lemma NonTaxable_calculateData_missing_series_witness :
  exists this',
    NonTaxable_calculateData rothAccount [rentScenario; houseScenario]
      (Living.new twoYears) None = (this', Stopped TypeError) /\
    length (investmentData this') = 1%nat.
Proof.
  destruct NonTaxable_calculateData_missing_series as [_ H].
  destruct (H rothAccount [rentScenario; houseScenario] (Living.new twoYears))
    as (this' & Hrun & Hlen).
  - reflexivity.
  - discriminate.
  - reflexivity.
  - vm_compute. discriminate.
  - vm_compute. lia.
  - exists this'. split; [exact Hrun | exact Hlen].
Defined.

(** ** Investments: the two variants *)

Lemma geometricSum_S (b : Q) (n : nat) :
  geometricSum b (S n) == geometricSum b n + Math_pow b (S n).
Proof.
  unfold geometricSum. rewrite seq_S, map_app, sumQ_app_list. cbn [map Nat.add].
  rewrite sumQ_cons. change (sumQ []) with 0. ring.
Qed.

Lemma geometricSum_closed (b : Q) (n : nat) :
  geometricSum b n * (b - 1) == Math_pow b (S n) - b.
Proof.
  induction n as [|n IH].
  - unfold geometricSum, sumQ. cbn [seq map fold_right].
    rewrite Math_pow_S. change (Math_pow b 0) with 1. ring.
  - rewrite geometricSum_S, (Math_pow_S b (S n)).
    transitivity (geometricSum b n * (b - 1) + Math_pow b (S n) * (b - 1));
      [ring|].
    rewrite IH. ring.
Qed.

Lemma accumulation_closed (this : GenericInvestment) (i : nat) :
  accumulation this i
  == amount this * Math_pow (1 + annualRate this) (S i)
     + monthlyContribution this * 12 * geometricSum (1 + annualRate this) (S i).
Proof.
  induction i as [|i IH].
  - cbn [accumulation]. unfold geometricSum, sumQ. cbn [seq map fold_right].
    rewrite Math_pow_S. change (Math_pow (1 + annualRate this) 0) with 1. ring.
  - change (accumulation this (S i))
      with ((accumulation this i + monthlyContribution this * 12)
            * (1 + annualRate this)).
    rewrite IH, (geometricSum_S _ (S i)), (Math_pow_S _ (S i)).
    pose proof (geometricSum_closed (1 + annualRate this) (S i)) as Hg.
    rewrite (Math_pow_S _ (S i)) in Hg.
    set (G := geometricSum (1 + annualRate this) (S i)) in *.
    set (p := Math_pow (1 + annualRate this) (S i)) in *.
    assert (HG : G * (1 + annualRate this)
                 == G + p * (1 + annualRate this) - (1 + annualRate this))
      by (transitivity (G * (1 + annualRate this - 1) + G); [ring|];
          rewrite Hg; ring).
    transitivity (amount this * (p * (1 + annualRate this))
                  + monthlyContribution this * 12 * (G * (1 + annualRate this))
                  + monthlyContribution this * 12 * (1 + annualRate this));
      [ring|].
    rewrite HG. ring.
Qed.

Lemma Taxable_calculateData_loop (this this' : TaxableInvestment)
    (hs : list Housing.GenericHousing) (le : Living.LivingExpenses)
    (c : completion) :
  Taxable_calculateData this hs le = (this', c) ->
  yearLoop (Taxable_withdrawals (taxRate this)) (fun _ => Ok None) hs le
    (years (generalInformation (super this))) 0 (super this)
  = (super this', c).
Proof.
  unfold Taxable_calculateData.
  destruct (yearLoop _ _ hs le _ 0 (super this)) as [s0 c0].
  intro H. injection H as <- <-. reflexivity.
Qed.

(** X19.  Before retirement the balance depends on the account alone: in
    a run of either variant on a newly constructed account, every balance
    recorded for a year [i] with [startAge + i < retirementAge] is
    [amount * (1 + rate)^(i+1)
     + monthlyContribution * 12 * ((1 + rate) + ... + (1 + rate)^(i+1))],
    whatever the scenario, the tax rate and the series passed in. *)
Theorem accumulation_balance_closed_form :
  (forall (this this' : TaxableInvestment)
          (housingCosts : list Housing.GenericHousing)
          (livingExpenses : Living.LivingExpenses)
          (c : completion) (i j : nat) (record : InvestmentYear) (v : Q),
      investmentData (super this) = [] ->
      Taxable_calculateData this housingCosts livingExpenses = (this', c) ->
      nth_error (investmentData (super this')) i = Some record ->
      nth_error (value record) j = Some v ->
      (startAge (generalInformation (super this)) + Z.of_nat i
       < retirementAge (generalInformation (super this)))%Z ->
      v == amount (super this) * Math_pow (1 + annualRate (super this)) (S i)
           + monthlyContribution (super this) * 12
             * geometricSum (1 + annualRate (super this)) (S i)) /\
  (forall (this this' : NonTaxableInvestment)
          (housingCosts : list Housing.GenericHousing)
          (livingExpenses : Living.LivingExpenses)
          (healthcare : option Healthcare.HealthcareCosts)
          (c : completion) (i j : nat) (record : InvestmentYear) (v : Q),
      investmentData this = [] ->
      NonTaxable_calculateData this housingCosts livingExpenses healthcare
      = (this', c) ->
      nth_error (investmentData this') i = Some record ->
      nth_error (value record) j = Some v ->
      (startAge (generalInformation this) + Z.of_nat i
       < retirementAge (generalInformation this))%Z ->
      v == amount this * Math_pow (1 + annualRate this) (S i)
           + monthlyContribution this * 12
             * geometricSum (1 + annualRate this) (S i)).
Proof.
  split.
  - intros this this' hs le c i j record v Hfresh Hrun Hi Hj Hage.
    apply Taxable_calculateData_loop in Hrun.
    rewrite (accumulation_phase _ _ _ _ _ _ _ _ Hfresh Hrun i record j v Hi
               ltac:(unfold preRetirement; apply Z.ltb_lt; lia) Hj).
    apply accumulation_closed.
  - intros this this' hs le hc c i j record v Hfresh Hrun Hi Hj Hage.
    unfold NonTaxable_calculateData in Hrun.
    rewrite (accumulation_phase _ _ _ _ _ _ _ _ Hfresh Hrun i record j v Hi
               ltac:(unfold preRetirement; apply Z.ltb_lt; lia) Hj).
    apply accumulation_closed.
Qed.

Lemma accumulation_balance_closed_form_witness :
  exists this' record v,
    Taxable_calculateData brokerageAccount [rentScenario; houseScenario]
      twoYearsLiving = (this', Completed) /\
    nth_error (investmentData (super this')) 0 = Some record /\
    nth_error (value record) 1 = Some v /\
    v == 50000 * 1.07 + 500 * 12 * 1.07.
Proof.
  destruct accumulation_balance_closed_form as [Htaxable _].
  destruct (Taxable_calculateData brokerageAccount
              [rentScenario; houseScenario] twoYearsLiving)
    as [this' c] eqn:Hrun.
  pose proof Hrun as Heval. vm_compute in Heval.
  injection Heval as Hthis Hc.
  destruct (nth_error (investmentData (super this')) 0) as [record|] eqn:Hrec;
    [|rewrite <- Hthis in Hrec; discriminate Hrec].
  destruct (nth_error (value record) 1) as [v|] eqn:Hv;
    [|rewrite <- Hthis in Hrec; injection Hrec as <-; discriminate Hv].
  pose proof (Htaxable brokerageAccount this' _ _ c 0%nat 1%nat record v
                eq_refl Hrun Hrec Hv ltac:(vm_compute; reflexivity)) as Heq.
  exists this', record, v. rewrite <- Hc.
  split; [reflexivity|]. split; [exact Hrec|]. split; [exact Hv|].
  apply (Qeq_trans _ _ _ Heq). vm_compute. reflexivity.
Defined.

Lemma withdrawals_compare (taxRate u u' : Q) :
  0 <= taxRate -> u == u' ->
  Taxable_withdrawals taxRate u <= NonTaxable_withdrawals u'.
Proof.
  intros Ht Hu. unfold Taxable_withdrawals, NonTaxable_withdrawals.
  rewrite (ltb_compat 0 0 u u' ltac:(reflexivity) Hu).
  destruct (ltb 0 u') eqn:E; [|apply Qle_refl].
  apply ltb_true in E.
  assert (H : 0 <= u * taxRate) by (apply Qmult_le_0_compat; lra).
  setoid_replace (- u * (1 + taxRate)) with (- u - u * taxRate) by ring.
  lra.
Qed.

(** X20.  For a tax rate that is not negative and a return of at least
    -100%, the taxable variant never records a higher balance than the
    non-taxable variant run on the same account parameters, scenarios and
    living expenses (without healthcare costs): year by year and scenario by
    scenario its balance is at most the other. *)
Theorem Taxable_balance_at_most_NonTaxable
    (this this' : TaxableInvestment) (roth : NonTaxableInvestment)
    (housingCosts : list Housing.GenericHousing)
    (livingExpenses : Living.LivingExpenses) (c c' : completion) :
  investmentData (super this) = [] ->
  0 <= taxRate this ->
  0 <= 1 + annualRate (super this) ->
  Taxable_calculateData this housingCosts livingExpenses = (this', c) ->
  NonTaxable_calculateData (super this) housingCosts livingExpenses None
  = (roth, c') ->
  forall i j taxed free v v',
    nth_error (investmentData (super this')) i = Some taxed ->
    nth_error (investmentData roth) i = Some free ->
    nth_error (value taxed) j = Some v ->
    nth_error (value free) j = Some v' ->
    v <= v'.
Proof.
  intros Hfresh Htax Hrate Hrun Hrun'.
  apply Taxable_calculateData_loop in Hrun.
  unfold NonTaxable_calculateData in Hrun'.
  destruct (yearLoop_fresh _ _ _ _ _ _ _ _ Hfresh Hrun)
    as (Hg & Ha & Hr & Hm & _ & Hrec).
  destruct (yearLoop_fresh _ _ _ _ _ _ _ _ Hfresh Hrun')
    as (Hg' & Ha' & Hr' & Hm' & _ & Hrec').
  induction i as [|i IH]; intros j taxed free v v' Hi Hi' Hj Hj'.
  - destruct (Hrec 0%nat taxed Hi) as (_ & _ & cost & Hcost & Hvals).
    destruct (Hrec' 0%nat free Hi') as (_ & _ & cost' & Hcost' & Hvals').
    apply Ok_inj in Hcost. apply Ok_inj in Hcost'. subst cost cost'.
    destruct (Hvals j v Hj) as (housing & Hh & Hcv).
    destruct (Hvals' j v' Hj') as (housing' & Hh' & Hcv').
    rewrite Hh in Hh'. apply Ok_some_inj in Hh'. subst housing'.
    destruct (preRetirement (generalInformation (super this)) 0) eqn:Hpre.
    + apply currentValue_accumulation in Hcv; [|now rewrite Hg].
      apply currentValue_accumulation in Hcv'; [|now rewrite Hg'].
      destruct Hcv as (prev & Hprev & ->). destruct Hcv' as (prev' & Hprev' & ->).
      unfold previousValue in Hprev, Hprev'. cbn [Nat.eqb] in Hprev, Hprev'.
      apply Ok_inj in Hprev. apply Ok_inj in Hprev'. subst prev prev'.
      rewrite Ha, Hr, Hm, Ha', Hr', Hm'. apply Qle_refl.
    + apply currentValue_drawdown in Hcv; [|now rewrite Hg].
      apply currentValue_drawdown in Hcv'; [|now rewrite Hg'].
      destruct Hcv as (prev & h & l & Hprev & Hhd & Hl & ->).
      destruct Hcv' as (prev' & h' & l' & Hprev' & Hhd' & Hl' & ->).
      rewrite Hhd in Hhd'. apply Ok_some_inj in Hhd'. subst h'.
      rewrite Hl in Hl'. apply Ok_some_inj in Hl'. subst l'.
      unfold previousValue in Hprev, Hprev'. cbn [Nat.eqb] in Hprev, Hprev'.
      apply Ok_inj in Hprev. apply Ok_inj in Hprev'. subst prev prev'.
      rewrite Ha, Hr, Hg, Ha', Hr', Hg'.
      apply Qmult_le_compat_r; [|exact Hrate].
      apply Qplus_le_compat; [apply Qle_refl|].
      apply withdrawals_compare; [exact Htax | ring].
  - destruct (Hrec (S i) taxed Hi) as (_ & _ & cost & Hcost & Hvals).
    destruct (Hrec' (S i) free Hi') as (_ & _ & cost' & Hcost' & Hvals').
    apply Ok_inj in Hcost. apply Ok_inj in Hcost'. subst cost cost'.
    destruct (Hvals j v Hj) as (housing & Hh & Hcv).
    destruct (Hvals' j v' Hj') as (housing' & Hh' & Hcv').
    rewrite Hh in Hh'. apply Ok_some_inj in Hh'. subst housing'.
    assert (Hprevs : forall prev prev',
               previousValue (super this') (S i) j = Ok prev ->
               previousValue roth (S i) j = Ok prev' ->
               prev <= prev').
    { intros prev prev' Hprev Hprev'.
      unfold previousValue in Hprev, Hprev'. cbn [Nat.eqb] in Hprev, Hprev'.
      replace (S i - 1)%nat with i in Hprev, Hprev' by lia.
      apply bind_Ok in Hprev. destruct Hprev as (before & Hb & Hprev).
      apply bind_Ok in Hprev'. destruct Hprev' as (before' & Hb' & Hprev').
      apply index_Ok in Hb. apply index_Ok in Hb'.
      destruct (nth_error (value before) j) as [p|] eqn:Ep; [|discriminate Hprev].
      destruct (nth_error (value before') j) as [p'|] eqn:Ep';
        [|discriminate Hprev'].
      apply Ok_inj in Hprev. apply Ok_inj in Hprev'. subst p p'.
      exact (IH j before before' prev prev' Hb Hb' Ep Ep'). }
    destruct (preRetirement (generalInformation (super this)) (S i)) eqn:Hpre.
    + apply currentValue_accumulation in Hcv; [|now rewrite Hg].
      apply currentValue_accumulation in Hcv'; [|now rewrite Hg'].
      destruct Hcv as (prev & Hprev & ->). destruct Hcv' as (prev' & Hprev' & ->).
      specialize (Hprevs prev prev' Hprev Hprev').
      rewrite Hr, Hm, Hr', Hm'.
      apply Qmult_le_compat_r; [lra | exact Hrate].
    + apply currentValue_drawdown in Hcv; [|now rewrite Hg].
      apply currentValue_drawdown in Hcv'; [|now rewrite Hg'].
      destruct Hcv as (prev & h & l & Hprev & Hhd & Hl & ->).
      destruct Hcv' as (prev' & h' & l' & Hprev' & Hhd' & Hl' & ->).
      rewrite Hhd in Hhd'. apply Ok_some_inj in Hhd'. subst h'.
      rewrite Hl in Hl'. apply Ok_some_inj in Hl'. subst l'.
      specialize (Hprevs prev prev' Hprev Hprev').
      rewrite Hr, Hg, Hr', Hg'.
      apply Qmult_le_compat_r; [|exact Hrate].
      apply Qplus_le_compat; [exact Hprevs|].
      apply withdrawals_compare; [exact Htax | ring].
Qed.

Lemma Taxable_balance_at_most_NonTaxable_witness :
  exists this' roth taxed free v v',
    Taxable_calculateData brokerageAccount [rentScenario; houseScenario]
      twoYearsLiving = (this', Completed) /\
    NonTaxable_calculateData (super brokerageAccount)
      [rentScenario; houseScenario] twoYearsLiving None = (roth, Completed) /\
    nth_error (investmentData (super this')) 1 = Some taxed /\
    nth_error (investmentData roth) 1 = Some free /\
    nth_error (value taxed) 0 = Some v /\
    nth_error (value free) 0 = Some v' /\
    v <= v'.
Proof.
  destruct (Taxable_calculateData brokerageAccount
              [rentScenario; houseScenario] twoYearsLiving)
    as [this' c] eqn:Hrun.
  destruct (NonTaxable_calculateData (super brokerageAccount)
              [rentScenario; houseScenario] twoYearsLiving None)
    as [roth c'] eqn:Hrun'.
  pose proof Hrun as Heval. vm_compute in Heval. injection Heval as Hthis Hc.
  pose proof Hrun' as Heval'. vm_compute in Heval'. injection Heval' as Hroth Hc'.
  destruct (nth_error (investmentData (super this')) 1) as [taxed|] eqn:Ht;
    [|rewrite <- Hthis in Ht; discriminate Ht].
  destruct (nth_error (investmentData roth) 1) as [free|] eqn:Hf;
    [|rewrite <- Hroth in Hf; discriminate Hf].
  destruct (nth_error (value taxed) 0) as [v|] eqn:Hv;
    [|rewrite <- Hthis in Ht; injection Ht as <-; discriminate Hv].
  destruct (nth_error (value free) 0) as [v'|] eqn:Hv';
    [|rewrite <- Hroth in Hf; injection Hf as <-; discriminate Hv'].
  exists this', roth, taxed, free, v, v'. rewrite <- Hc, <- Hc'.
  repeat (split; [reflexivity || assumption|]).
  apply (Taxable_balance_at_most_NonTaxable brokerageAccount this' roth
           [rentScenario; houseScenario] twoYearsLiving c c'
           eq_refl ltac:(vm_compute; discriminate)
           ltac:(vm_compute; discriminate) Hrun Hrun' 1%nat 0%nat
           taxed free v v' Ht Hf Hv Hv').
Defined.

Lemma yearLoop_fresh_completes (w : Q -> Q) (hc : nat -> result (option Q))
    (hs : list Housing.GenericHousing) (le : Living.LivingExpenses) (n : nat)
    (this : GenericInvestment) :
  investmentData this = [] ->
  (forall k, (k < n)%nat -> exists c, hc k = Ok c) ->
  (n <= length (Living.expensesData le))%nat ->
  (forall housing, In housing hs ->
                   (n <= length (Housing.housingData housing))%nat) ->
  exists this',
    yearLoop w hc hs le n 0 this = (this', Completed) /\
    length (investmentData this') = n /\
    forall i record,
      nth_error (investmentData this') i = Some record ->
      age record = (startAge (generalInformation this) + Z.of_nat i)%Z /\
      length (value record) = length hs.
Proof.
  intros Hfresh Hhc Hle Hhs.
  destruct (yearLoop w hc hs le n 0 this) as [this' c] eqn:Hrun.
  assert (Hc : c = Completed).
  { change c with (snd (this', c)). rewrite <- Hrun.
    apply yearLoop_completes; try assumption.
    - now rewrite Hfresh.
    - rewrite Hfresh. intros record []. }
  subst c. exists this'. split; [reflexivity|].
  destruct (yearLoop_fresh _ _ _ _ _ _ _ _ Hfresh Hrun)
    as (_ & _ & _ & _ & Hlen & Hrec).
  split; [now apply Hlen|].
  intros i record Hi. destruct (Hrec i record Hi) as (Ha & Hw & _).
  now split.
Qed.

(** X21.  When every housing series and the living-expenses series hold a
    record for every year of the horizon, a run of the taxable variant on a
    newly constructed account completes without an exception, and so does a
    run of the non-taxable variant, without healthcare or with a healthcare
    series that covers the horizon too.  The account then holds one record
    per year, with the age [startAge + i] and one balance per scenario. *)
Theorem calculateData_completes_on_full_series :
  (forall (this : TaxableInvestment)
          (housingCosts : list Housing.GenericHousing)
          (livingExpenses : Living.LivingExpenses),
      let g := generalInformation (super this) in
      investmentData (super this) = [] ->
      (forall housing, In housing housingCosts ->
                       (years g <= length (Housing.housingData housing))%nat) ->
      (years g <= length (Living.expensesData livingExpenses))%nat ->
      exists this',
        Taxable_calculateData this housingCosts livingExpenses
        = (this', Completed) /\
        length (investmentData (super this')) = years g /\
        forall i record,
          nth_error (investmentData (super this')) i = Some record ->
          age record = (startAge g + Z.of_nat i)%Z /\
          length (value record) = length housingCosts) /\
  (forall (this : NonTaxableInvestment)
          (housingCosts : list Housing.GenericHousing)
          (livingExpenses : Living.LivingExpenses)
          (healthcare : option Healthcare.HealthcareCosts),
      let g := generalInformation this in
      investmentData this = [] ->
      (forall housing, In housing housingCosts ->
                       (years g <= length (Housing.housingData housing))%nat) ->
      (years g <= length (Living.expensesData livingExpenses))%nat ->
      (forall hc, healthcare = Some hc ->
                  (years g <= length (Healthcare.healthcareData hc))%nat) ->
      exists this',
        NonTaxable_calculateData this housingCosts livingExpenses healthcare
        = (this', Completed) /\
        length (investmentData this') = years g /\
        forall i record,
          nth_error (investmentData this') i = Some record ->
          age record = (startAge g + Z.of_nat i)%Z /\
          length (value record) = length housingCosts).
Proof.
  split.
  - intros this hs le g Hfresh Hhs Hle.
    destruct (yearLoop_fresh_completes (Taxable_withdrawals (taxRate this))
                (fun _ => Ok None) hs le (years g) (super this) Hfresh)
      as (s & Hrun & Hlen & Hrec); try assumption.
    { intros k _. now eexists. }
    exists (mkTaxableInvestment s (taxRate this)).
    unfold Taxable_calculateData. fold g. rewrite Hrun.
    split; [reflexivity|]. cbn [super]. split; [exact Hlen | exact Hrec].
  - intros this hs le healthcare g Hfresh Hhs Hle Hhc.
    destruct (yearLoop_fresh_completes NonTaxable_withdrawals
                (healthcareCostOf healthcare) hs le (years g) this Hfresh)
      as (s & Hrun & Hlen & Hrec); try assumption.
    { intros k Hk. unfold healthcareCostOf.
      destruct healthcare as [hc|]; [|now eexists].
      destruct (index_lt (Healthcare.healthcareData hc) k) as [y Hy].
      { specialize (Hhc hc eq_refl). lia. }
      rewrite Hy. cbn [bind]. now eexists. }
    exists s. unfold NonTaxable_calculateData. fold g.
    split; [exact Hrun|]. split; [exact Hlen | exact Hrec].
Qed.

Lemma calculateData_completes_on_full_series_witness :
  exists this',
    Taxable_calculateData brokerageAccount [rentScenario; houseScenario]
      twoYearsLiving = (this', Completed) /\
    length (investmentData (super this')) = 2%nat.
Proof.
  destruct calculateData_completes_on_full_series as [H _].
  destruct (H brokerageAccount [rentScenario; houseScenario] twoYearsLiving)
    as (this' & Hrun & Hlen & _).
  - reflexivity.
  - intros housing [<-|[<-|[]]]; vm_compute; lia.
  - vm_compute. lia.
  - exists this'. split; [exact Hrun | exact Hlen].
Defined.

(** ** Aggregation *)

Lemma pushLoop_inv {A : Type} (body : nat -> result A) (n : nat) :
  forall i l,
    Utilities.pushLoop n i body = Ok l ->
    length l = n /\
    forall k a, nth_error l k = Some a -> body (i + k)%nat = Ok a.
Proof.
  induction n as [|n IH]; intros i l H; cbn [Utilities.pushLoop] in H.
  - apply Ok_inj in H. subst l. split; [reflexivity|].
    intros [|k] a Hk; discriminate Hk.
  - apply bind_Ok in H. destruct H as (a0 & Ha0 & H).
    apply bind_Ok in H. destruct H as (rest & Hrest & H).
    apply Ok_inj in H. subst l.
    destruct (IH (S i) rest Hrest) as [Hlen Hnth].
    split; [cbn [length]; now rewrite Hlen|].
    intros [|k] a Hk; cbn [nth_error] in Hk.
    + apply Ok_some_inj in Hk. subst a. now rewrite Nat.add_0_r.
    + replace (i + S k)%nat with (S i + k)%nat by lia. now apply Hnth.
Qed.

Lemma pushLoop_total {A : Type} (body : nat -> result A) (n : nat) :
  forall i,
    (forall k, (k < n)%nat -> exists a, body (i + k)%nat = Ok a) ->
    exists l, Utilities.pushLoop n i body = Ok l.
Proof.
  induction n as [|n IH]; intros i H; cbn [Utilities.pushLoop].
  - now eexists.
  - destruct (H 0%nat ltac:(lia)) as [a Ha]. rewrite Nat.add_0_r in Ha.
    rewrite Ha. cbn [bind].
    destruct (IH (S i)) as [rest Hrest].
    { intros k Hk. replace (S i + k)%nat with (i + S k)%nat by lia.
      apply H. lia. }
    rewrite Hrest. cbn [bind]. now eexists.
Qed.

Lemma pushLoop_each {A : Type} (body : nat -> result A) (n i : nat) (l : list A) :
  Utilities.pushLoop n i body = Ok l ->
  forall k, (k < n)%nat -> exists a, nth_error l k = Some a /\ body (i + k)%nat = Ok a.
Proof.
  intros H k Hk. destruct (pushLoop_inv body n i l H) as [Hlen Hnth].
  destruct (nth_error l k) as [a|] eqn:E.
  - exists a. split; [reflexivity | now apply Hnth].
  - apply nth_error_None in E. lia.
Qed.

(** The only exception of a loop whose body can only throw a
    [TypeError]. *)
Lemma pushLoop_error {A : Type} (body : nat -> result A) (n : nat) :
  (forall k e, body k = Err e -> e = TypeError) ->
  forall i e, Utilities.pushLoop n i body = Err e -> e = TypeError.
Proof.
  intro Hbody. induction n as [|n IH]; intros i e H; cbn [Utilities.pushLoop] in H.
  - discriminate H.
  - destruct (body i) as [a|e0] eqn:Ea; cbn [bind] in H.
    + destruct (Utilities.pushLoop n (S i) body) as [rest|e1] eqn:Er;
        cbn [bind] in H; [discriminate H|].
      injection H as <-. now apply (IH (S i)).
    + injection H as <-. now apply (Hbody i).
Qed.

(** One cell of the total-costs table. *)
Lemma totalCosts_cell (housing : list Housing.GenericHousing)
    (le : Living.LivingExpenses) (rows : list Utilities.Row)
    (i j : nat) (row : Utilities.Row) (t : Q) :
  Utilities.calculateTotalCosts housing le = Ok rows ->
  nth_error rows i = Some row ->
  nth_error (snd row) j = Some t ->
  exists h hy ly,
    nth_error housing j = Some h /\
    nth_error (Housing.housingData h) i = Some hy /\
    nth_error (Living.expensesData le) i = Some ly /\
    t = Housing.totalCosts hy + Living.totalCosts ly.
Proof.
  unfold Utilities.calculateTotalCosts. intros H Hi Hj.
  apply bind_Ok in H. destruct H as (first & _ & H).
  destruct (pushLoop_inv _ _ _ _ H) as [_ Hrows].
  specialize (Hrows i row Hi). cbn [Nat.add] in Hrows.
  apply bind_Ok in Hrows. destruct Hrows as (values & Hvalues & Hrow).
  apply bind_Ok in Hrow. destruct Hrow as (fy & _ & Hrow).
  apply Ok_inj in Hrow. subst row. cbn [snd] in Hj.
  destruct (pushLoop_inv _ _ _ _ Hvalues) as [_ Hcells].
  specialize (Hcells j t Hj). cbn [Nat.add] in Hcells.
  apply bind_Ok in Hcells. destruct Hcells as (h & Hh & Hcells).
  apply bind_Ok in Hcells. destruct Hcells as (hy & Hhy & Hcells).
  apply bind_Ok in Hcells. destruct Hcells as (ly & Hly & Hcells).
  apply Ok_inj in Hcells. apply index_Ok in Hh, Hhy, Hly.
  now exists h, hy, ly.
Qed.

(** One cell of the net-positions table. *)
Lemma netPositions_cell (assets : list Utilities.Row)
    (housing : list Housing.GenericHousing) (le : Living.LivingExpenses)
    (rows : list Utilities.Row) (i j : nat) (row : Utilities.Row) (n : Q) :
  Utilities.calculateNetPositions assets housing le = Ok rows ->
  nth_error rows i = Some row ->
  nth_error (snd row) j = Some n ->
  exists arow a h hy ly,
    nth_error assets i = Some arow /\
    fst row = fst arow /\
    length (snd row) = length (snd arow) /\
    nth_error (snd arow) j = Some a /\
    nth_error housing j = Some h /\
    nth_error (Housing.housingData h) i = Some hy /\
    nth_error (Living.expensesData le) i = Some ly /\
    n = a - Housing.totalCosts hy - Living.totalCosts ly.
Proof.
  unfold Utilities.calculateNetPositions. intros H Hi Hj.
  destruct (pushLoop_inv _ _ _ _ H) as [_ Hrows].
  specialize (Hrows i row Hi). cbn [Nat.add] in Hrows.
  apply bind_Ok in Hrows. destruct Hrows as (arow & Harow & Hrow).
  apply bind_Ok in Hrow. destruct Hrow as (values & Hvalues & Hrow).
  apply Ok_inj in Hrow. subst row. cbn [fst snd] in Hj |- *.
  destruct (pushLoop_inv _ _ _ _ Hvalues) as [Hlen Hcells].
  specialize (Hcells j n Hj). cbn [Nat.add] in Hcells.
  apply bind_Ok in Hcells. destruct Hcells as (a & Ha & Hcells).
  apply bind_Ok in Hcells. destruct Hcells as (h & Hh & Hcells).
  apply bind_Ok in Hcells. destruct Hcells as (hy & Hhy & Hcells).
  apply bind_Ok in Hcells. destruct Hcells as (ly & Hly & Hcells).
  apply Ok_inj in Hcells. apply index_Ok in Harow, Ha, Hh, Hhy, Hly.
  exists arow, a, h, hy, ly. now repeat split.
Qed.

(** X22.  The three tables fit together: every net position computed by
    [calculateNetPositions] from the table of cumulative assets is the
    asset value of the same year and scenario minus the total costs that
    [calculateTotalCosts] reports there, under the age of the asset row. *)
Theorem net_position_is_assets_minus_total_costs
    (investments : list Investment.GenericInvestment)
    (housing : list Housing.GenericHousing)
    (livingExpenses : Living.LivingExpenses)
    (totalCosts assetValues netValues : list Utilities.Row) :
  Utilities.calculateTotalCosts housing livingExpenses = Ok totalCosts ->
  Utilities.calculateCumulativeAssets investments housing = Ok assetValues ->
  Utilities.calculateNetPositions assetValues housing livingExpenses
  = Ok netValues ->
  length netValues = length assetValues /\
  forall i j row n,
    nth_error netValues i = Some row ->
    nth_error (snd row) j = Some n ->
    exists assetRow a,
      nth_error assetValues i = Some assetRow /\
      fst row = fst assetRow /\
      nth_error (snd assetRow) j = Some a /\
      forall costRow t,
        nth_error totalCosts i = Some costRow ->
        nth_error (snd costRow) j = Some t ->
        n == a - t.
Proof.
  intros Htc _ Hnp. split.
  - unfold Utilities.calculateNetPositions in Hnp.
    now apply pushLoop_inv in Hnp.
  - intros i j row n Hi Hj.
    destruct (netPositions_cell _ _ _ _ i j row n Hnp Hi Hj)
      as (arow & a & h & hy & ly & Harow & Hage & _ & Ha & Hh & Hhy & Hly & ->).
    exists arow, a. repeat (split; [assumption|]).
    intros costRow t Hci Hcj.
    destruct (totalCosts_cell _ _ _ i j costRow t Htc Hci Hcj)
      as (h' & hy' & ly' & Hh' & Hhy' & Hly' & ->).
    rewrite Hh in Hh'. apply Ok_some_inj in Hh'. subst h'.
    rewrite Hhy in Hhy'. apply Ok_some_inj in Hhy'. subst hy'.
    rewrite Hly in Hly'. apply Ok_some_inj in Hly'. subst ly'.
    ring.
Qed.

Lemma net_position_is_assets_minus_total_costs_witness :
  let housing := [rentScenario; houseScenario] in
  let account :=
    fst (Investment.NonTaxable_calculateData rothAccount housing
           twoYearsLiving None) in
  exists totalCosts assetValues netValues,
    Utilities.calculateTotalCosts housing twoYearsLiving = Ok totalCosts /\
    Utilities.calculateCumulativeAssets [account] housing = Ok assetValues /\
    Utilities.calculateNetPositions assetValues housing twoYearsLiving
    = Ok netValues /\
    length netValues = length assetValues /\
    forall i j row n,
      nth_error netValues i = Some row ->
      nth_error (snd row) j = Some n ->
      exists assetRow a,
        nth_error assetValues i = Some assetRow /\
        fst row = fst assetRow /\
        nth_error (snd assetRow) j = Some a /\
        forall costRow t,
          nth_error totalCosts i = Some costRow ->
          nth_error (snd costRow) j = Some t ->
          n == a - t.
Proof.
  intros housing account.
  destruct (Utilities.calculateTotalCosts housing twoYearsLiving)
    as [totalCosts|] eqn:Htc; [|vm_compute in Htc; discriminate Htc].
  destruct (Utilities.calculateCumulativeAssets [account] housing)
    as [assetValues|] eqn:Hca; [|vm_compute in Hca; discriminate Hca].
  destruct (Utilities.calculateNetPositions assetValues housing twoYearsLiving)
    as [netValues|] eqn:Hnp.
  - exists totalCosts, assetValues, netValues.
    split; [reflexivity|]. split; [reflexivity|]. split; [exact Hnp|].
    exact (net_position_is_assets_minus_total_costs [account] housing
             twoYearsLiving totalCosts assetValues netValues Htc Hca Hnp).
  - vm_compute in Hca. apply Ok_inj in Hca. subst assetValues.
    vm_compute in Hnp. discriminate Hnp.
Defined.

Lemma index_error {A : Type} (arr : list A) (i : nat) (e : error) :
  index arr i = Err e -> e = TypeError.
Proof.
  unfold index. destruct (nth_error arr i); intro H; [discriminate H|].
  now injection H.
Qed.

Lemma bind_Err {A B : Type} (r : result A) (k : A -> result B) (e : error) :
  bind r k = Err e -> r = Err e \/ exists a, r = Ok a /\ k a = Err e.
Proof.
  destruct r as [a|e0]; cbn [bind]; intro H.
  - right. now exists a.
  - left. injection H as <-. reflexivity.
Qed.

(** Shape of the total-costs table. *)
Lemma totalCosts_rows (housing : list Housing.GenericHousing)
    (le : Living.LivingExpenses) (rows : list Utilities.Row) :
  Utilities.calculateTotalCosts housing le = Ok rows ->
  exists first,
    nth_error housing 0 = Some first /\
    length rows = length (Housing.housingData first) /\
    forall i row,
      nth_error rows i = Some row ->
      length (snd row) = length housing /\
      exists fy, nth_error (Housing.housingData first) i = Some fy /\
                 fst row = Housing.age fy.
Proof.
  unfold Utilities.calculateTotalCosts. intro H.
  apply bind_Ok in H. destruct H as (first & Hfirst & H).
  apply index_Ok in Hfirst. exists first. split; [exact Hfirst|].
  destruct (pushLoop_inv _ _ _ _ H) as [Hlen Hrows].
  split; [exact Hlen|].
  intros i row Hi. specialize (Hrows i row Hi). cbn [Nat.add] in Hrows.
  apply bind_Ok in Hrows. destruct Hrows as (values & Hvalues & Hrow).
  apply bind_Ok in Hrow. destruct Hrow as (fy & Hfy & Hrow).
  apply Ok_inj in Hrow. subst row. cbn [fst snd].
  apply pushLoop_inv in Hvalues. destruct Hvalues as [Hw _].
  split; [exact Hw|]. exists fy. apply index_Ok in Hfy. now split.
Qed.

(** When the total-costs table is computed without an exception. *)
Lemma totalCosts_total (housing : list Housing.GenericHousing)
    (le : Living.LivingExpenses) (first : Housing.GenericHousing) :
  nth_error housing 0 = Some first ->
  (forall h, In h housing ->
     (length (Housing.housingData first) <= length (Housing.housingData h))%nat) ->
  (length (Housing.housingData first) <= length (Living.expensesData le))%nat ->
  exists rows, Utilities.calculateTotalCosts housing le = Ok rows.
Proof.
  intros Hfirst Hall Hle. unfold Utilities.calculateTotalCosts.
  apply index_Ok in Hfirst. rewrite Hfirst. cbn [bind].
  apply pushLoop_total. intros i Hi. cbn [Nat.add].
  destruct (pushLoop_total
              (fun j =>
                 h <- index housing j ;;
                 hy <- index (Housing.housingData h) i ;;
                 ly <- index (Living.expensesData le) i ;;
                 Ok (Housing.totalCosts hy + Living.totalCosts ly))
              (length housing) 0) as [values Hvalues].
  { intros j Hj. cbn [Nat.add].
    destruct (index_lt housing j Hj) as [h Hh]. rewrite Hh. cbn [bind].
    assert (Hin : In h housing).
    { apply index_Ok in Hh. now apply nth_error_In in Hh. }
    destruct (index_lt (Housing.housingData h) i) as [hy Hhy].
    { specialize (Hall h Hin). lia. }
    rewrite Hhy. cbn [bind].
    destruct (index_lt (Living.expensesData le) i) as [ly Hly]; [lia|].
    rewrite Hly. cbn [bind]. now eexists. }
  rewrite Hvalues. cbn [bind].
  destruct (index_lt (Housing.housingData first) i Hi) as [fy Hfy].
  rewrite Hfy. cbn [bind]. now eexists.
Qed.

(** The only exception of [calculateTotalCosts] is a [TypeError]. *)
Lemma totalCosts_error (housing : list Housing.GenericHousing)
    (le : Living.LivingExpenses) (e : error) :
  Utilities.calculateTotalCosts housing le = Err e -> e = TypeError.
Proof.
  unfold Utilities.calculateTotalCosts. intro H.
  apply bind_Err in H. destruct H as [H | (first & _ & H)].
  { now apply index_error in H. }
  revert H. apply pushLoop_error. clear e. intros i e H.
  apply bind_Err in H. destruct H as [H | (values & _ & H)].
  - revert H. apply pushLoop_error. clear e. intros j e H.
    apply bind_Err in H. destruct H as [H | (h & _ & H)].
    { now apply index_error in H. }
    apply bind_Err in H. destruct H as [H | (hy & _ & H)].
    { now apply index_error in H. }
    apply bind_Err in H. destruct H as [H | (ly & _ & H)].
    { now apply index_error in H. }
    discriminate H.
  - apply bind_Err in H. destruct H as [H | (fy & _ & H)].
    { now apply index_error in H. }
    discriminate H.
Qed.

(** X23.  [calculateTotalCosts] returns a table exactly when there is a
    first scenario and, unless that scenario has no year at all, every
    scenario and the living expenses have at least as many years as the
    first scenario; in every other case it throws a [TypeError] (reading a
    field of [undefined]).  The table has one row per year of the first
    scenario, under that scenario's ages, and one value per scenario. *)
Theorem calculateTotalCosts_defined_iff
    (housing : list Housing.GenericHousing)
    (livingExpenses : Living.LivingExpenses) :
  ((exists rows, Utilities.calculateTotalCosts housing livingExpenses = Ok rows)
   <->
   exists first,
     nth_error housing 0 = Some first /\
     (length (Housing.housingData first) = 0%nat \/
      (Forall (fun h => (length (Housing.housingData first)
                         <= length (Housing.housingData h))%nat) housing /\
       (length (Housing.housingData first)
        <= length (Living.expensesData livingExpenses))%nat))) /\
  (forall e, Utilities.calculateTotalCosts housing livingExpenses = Err e ->
             e = TypeError) /\
  (forall rows,
      Utilities.calculateTotalCosts housing livingExpenses = Ok rows ->
      exists first,
        nth_error housing 0 = Some first /\
        length rows = length (Housing.housingData first) /\
        forall i row,
          nth_error rows i = Some row ->
          length (snd row) = length housing /\
          exists fy, nth_error (Housing.housingData first) i = Some fy /\
                     fst row = Housing.age fy).
Proof.
  split; [split|split].
  - intros [rows H].
    destruct (totalCosts_rows _ _ _ H) as (first & Hfirst & Hlen & _).
    exists first. split; [exact Hfirst|].
    destruct (length (Housing.housingData first)) as [|m] eqn:Hm; [now left|].
    right.
    unfold Utilities.calculateTotalCosts in H.
    apply index_Ok in Hfirst. rewrite Hfirst in H. cbn [bind] in H.
    rewrite Hm in H.
    destruct (pushLoop_each _ _ _ _ H m ltac:(lia)) as (row & _ & Hrow).
    cbn [Nat.add] in Hrow.
    apply bind_Ok in Hrow. destruct Hrow as (values & Hvalues & _).
    assert (Hcell : forall j, (j < length housing)%nat ->
              exists h hy ly,
                nth_error housing j = Some h /\
                nth_error (Housing.housingData h) m = Some hy /\
                nth_error (Living.expensesData livingExpenses) m = Some ly).
    { intros j Hj.
      destruct (pushLoop_each _ _ _ _ Hvalues j Hj) as (t & _ & Ht).
      cbn [Nat.add] in Ht.
      apply bind_Ok in Ht. destruct Ht as (h & Hh & Ht).
      apply bind_Ok in Ht. destruct Ht as (hy & Hhy & Ht).
      apply bind_Ok in Ht. destruct Ht as (ly & Hly & _).
      apply index_Ok in Hh, Hhy, Hly. now exists h, hy, ly. }
    split.
    + apply Forall_forall. intros h Hin.
      apply In_nth_error in Hin. destruct Hin as [j Hj].
      assert (Hlt : (j < length housing)%nat).
      { apply nth_error_Some. now rewrite Hj. }
      destruct (Hcell j Hlt) as (h' & hy & _ & Hh' & Hhy & _).
      rewrite Hj in Hh'. apply Ok_some_inj in Hh'. subst h'.
      assert ((m < length (Housing.housingData h))%nat).
      { apply nth_error_Some. now rewrite Hhy. }
      lia.
    + assert (Hlt : (0 < length housing)%nat).
      { apply index_Ok in Hfirst. apply nth_error_Some. now rewrite Hfirst. }
      destruct (Hcell 0%nat Hlt) as (_ & _ & ly & _ & _ & Hly).
      assert ((m < length (Living.expensesData livingExpenses))%nat).
      { apply nth_error_Some. now rewrite Hly. }
      lia.
  - intros (first & Hfirst & [Hzero | [Hall Hle]]).
    + unfold Utilities.calculateTotalCosts.
      apply index_Ok in Hfirst. rewrite Hfirst. cbn [bind].
      rewrite Hzero. cbn [Utilities.pushLoop]. now eexists.
    + apply (totalCosts_total housing livingExpenses first Hfirst).
      * intros h Hin. rewrite Forall_forall in Hall. now apply Hall.
      * exact Hle.
  - intros e. apply totalCosts_error.
  - intros rows. apply totalCosts_rows.
Qed.

Lemma calculateTotalCosts_defined_iff_witness :
  exists rows,
    Utilities.calculateTotalCosts [rentScenario; houseScenario] twoYearsLiving
    = Ok rows.
Proof.
  apply (proj1 (calculateTotalCosts_defined_iff
                  [rentScenario; houseScenario] twoYearsLiving)).
  exists rentScenario. split; [reflexivity|]. right. split.
  - repeat constructor.
  - cbn. lia.
Defined.

(** The balance of every account in year [i] and scenario [j]. *)
Lemma sumLoop_inv (investments : list Investment.GenericInvestment) (i j : nat) :
  forall sum r,
    Utilities.sumLoop investments i j sum = Ok r ->
    exists balances,
      Forall2 (fun investment v =>
                 exists y, nth_error (Investment.investmentData investment) i = Some y /\
                           nth_error (Investment.value y) j = Some v)
              investments balances /\
      r == sum + sumQ balances.
Proof.
  induction investments as [|investment rest IH]; intros sum r H;
    cbn [Utilities.sumLoop] in H.
  - apply Ok_inj in H. subst r. exists []. split; [constructor|].
    cbn [sumQ fold_right]. ring.
  - apply bind_Ok in H. destruct H as (y & Hy & H). apply index_Ok in Hy.
    destruct (nth_error (Investment.value y) j) as [v|] eqn:Hv; [|discriminate H].
    destruct (IH _ _ H) as (balances & Hall & Hr).
    exists (v :: balances). split.
    + constructor; [now exists y | exact Hall].
    + rewrite Hr. rewrite sumQ_cons. ring.
Qed.

Lemma sumLoop_total (investments : list Investment.GenericInvestment) (i j : nat) :
  (forall investment, In investment investments ->
     exists y v, nth_error (Investment.investmentData investment) i = Some y /\
                 nth_error (Investment.value y) j = Some v) ->
  forall sum, exists r, Utilities.sumLoop investments i j sum = Ok r.
Proof.
  induction investments as [|investment rest IH]; intros Hall sum;
    cbn [Utilities.sumLoop].
  - now eexists.
  - destruct (Hall investment (or_introl eq_refl)) as (y & v & Hy & Hv).
    apply index_Ok in Hy. rewrite Hy. cbn [bind]. rewrite Hv.
    apply IH. intros inv Hin. apply Hall. now right.
Qed.

(** Shape of the table of cumulative assets. *)
Lemma assets_rows (investments : list Investment.GenericInvestment)
    (housing : list Housing.GenericHousing) (rows : list Utilities.Row) :
  Utilities.calculateCumulativeAssets investments housing = Ok rows ->
  exists first,
    nth_error investments 0 = Some first /\
    length rows = length (Investment.investmentData first) /\
    forall i row,
      nth_error rows i = Some row ->
      exists fy, nth_error (Investment.investmentData first) i = Some fy /\
                 fst row = Investment.age fy /\
                 length (snd row) = length (Investment.value fy).
Proof.
  unfold Utilities.calculateCumulativeAssets. intro H.
  apply bind_Ok in H. destruct H as (first & Hfirst & H).
  apply index_Ok in Hfirst. exists first. split; [exact Hfirst|].
  destruct (pushLoop_inv _ _ _ _ H) as [Hlen Hrows].
  split; [exact Hlen|].
  intros i row Hi. specialize (Hrows i row Hi). cbn [Nat.add] in Hrows.
  apply bind_Ok in Hrows. destruct Hrows as (fy & Hfy & Hrow).
  apply bind_Ok in Hrow. destruct Hrow as (values & Hvalues & Hrow).
  apply Ok_inj in Hrow. subst row. cbn [fst snd].
  apply pushLoop_inv in Hvalues. destruct Hvalues as [Hw _].
  exists fy. apply index_Ok in Hfy. now repeat split.
Qed.

(** One cell of the table of cumulative assets. *)
Lemma assets_cell (investments : list Investment.GenericInvestment)
    (housing : list Housing.GenericHousing) (rows : list Utilities.Row)
    (i j : nat) (row : Utilities.Row) (a : Q) :
  Utilities.calculateCumulativeAssets investments housing = Ok rows ->
  nth_error rows i = Some row ->
  nth_error (snd row) j = Some a ->
  exists balances h hy,
    Forall2 (fun investment v =>
               exists y, nth_error (Investment.investmentData investment) i = Some y /\
                         nth_error (Investment.value y) j = Some v)
            investments balances /\
    nth_error housing j = Some h /\
    nth_error (Housing.housingData h) i = Some hy /\
    a == sumQ balances + Housing.value hy.
Proof.
  unfold Utilities.calculateCumulativeAssets. intros H Hi Hj.
  apply bind_Ok in H. destruct H as (first & _ & H).
  destruct (pushLoop_inv _ _ _ _ H) as [_ Hrows].
  specialize (Hrows i row Hi). cbn [Nat.add] in Hrows.
  apply bind_Ok in Hrows. destruct Hrows as (fy & _ & Hrow).
  apply bind_Ok in Hrow. destruct Hrow as (values & Hvalues & Hrow).
  apply Ok_inj in Hrow. subst row. cbn [snd] in Hj.
  destruct (pushLoop_inv _ _ _ _ Hvalues) as [_ Hcells].
  specialize (Hcells j a Hj). cbn [Nat.add] in Hcells.
  apply bind_Ok in Hcells. destruct Hcells as (sum & Hsum & Hcells).
  apply bind_Ok in Hcells. destruct Hcells as (h & Hh & Hcells).
  apply bind_Ok in Hcells. destruct Hcells as (hy & Hhy & Hcells).
  apply Ok_inj in Hcells. apply index_Ok in Hh, Hhy.
  destruct (sumLoop_inv _ _ _ _ _ Hsum) as (balances & Hall & Hr).
  exists balances, h, hy. repeat (split; [assumption|]).
  subst a. rewrite Hr. ring.
Qed.

(** When the table of cumulative assets is computed without an exception:
    every account has a record for each year of the first account, every
    record holds [width] balances, and [width] scenarios have their years. *)
Lemma assets_total (investments : list Investment.GenericInvestment)
    (housing : list Housing.GenericHousing)
    (first : Investment.GenericInvestment) (width : nat) :
  nth_error investments 0 = Some first ->
  (forall investment, In investment investments ->
     (length (Investment.investmentData first)
      <= length (Investment.investmentData investment))%nat /\
     fullWidth investment width) ->
  (width <= length housing)%nat ->
  (forall h, In h housing ->
     (length (Investment.investmentData first)
      <= length (Housing.housingData h))%nat) ->
  exists rows, Utilities.calculateCumulativeAssets investments housing = Ok rows.
Proof.
  intros Hfirst Hall Hw Hh. unfold Utilities.calculateCumulativeAssets.
  assert (Hin : In first investments) by now apply nth_error_In in Hfirst.
  apply index_Ok in Hfirst. rewrite Hfirst. cbn [bind].
  apply pushLoop_total. intros i Hi. cbn [Nat.add].
  destruct (index_lt (Investment.investmentData first) i Hi) as [fy Hfy].
  rewrite Hfy. cbn [bind].
  assert (Hwfy : length (Investment.value fy) = width).
  { apply (proj2 (Hall first Hin)). apply index_Ok in Hfy.
    now apply nth_error_In in Hfy. }
  destruct (pushLoop_total
              (fun j =>
                 sum <- Utilities.sumLoop investments i j 0 ;;
                 h <- index housing j ;;
                 hy <- index (Housing.housingData h) i ;;
                 Ok (sum + Housing.value hy))
              (length (Investment.value fy)) 0) as [values Hvalues].
  { intros j Hj. cbn [Nat.add].
    destruct (sumLoop_total investments i j) with (sum := 0) as [r Hr].
    { intros inv Hinv. destruct (Hall inv Hinv) as [Hlen Hwidth].
      destruct (nth_error (Investment.investmentData inv) i) as [y|] eqn:Hy.
      - assert (Hwy : length (Investment.value y) = width).
        { apply Hwidth. now apply nth_error_In in Hy. }
        destruct (nth_error (Investment.value y) j) as [v|] eqn:Hv.
        + now exists y, v.
        + apply nth_error_None in Hv. lia.
      - apply nth_error_None in Hy. lia. }
    rewrite Hr. cbn [bind].
    destruct (index_lt housing j) as [h Hhj]; [lia|].
    rewrite Hhj. cbn [bind].
    assert (Hinh : In h housing).
    { apply index_Ok in Hhj. now apply nth_error_In in Hhj. }
    destruct (index_lt (Housing.housingData h) i) as [hy Hhy].
    { specialize (Hh h Hinh). lia. }
    rewrite Hhy. cbn [bind]. now eexists. }
  rewrite Hvalues. cbn [bind]. now eexists.
Qed.

(** Shape of the table of net positions. *)
Lemma netPositions_rows (assets : list Utilities.Row)
    (housing : list Housing.GenericHousing) (le : Living.LivingExpenses)
    (rows : list Utilities.Row) :
  Utilities.calculateNetPositions assets housing le = Ok rows ->
  length rows = length assets /\
  forall i row,
    nth_error rows i = Some row ->
    exists arow, nth_error assets i = Some arow /\
                 fst row = fst arow /\
                 length (snd row) = length (snd arow).
Proof.
  unfold Utilities.calculateNetPositions. intro H.
  destruct (pushLoop_inv _ _ _ _ H) as [Hlen Hrows].
  split; [exact Hlen|].
  intros i row Hi. specialize (Hrows i row Hi). cbn [Nat.add] in Hrows.
  apply bind_Ok in Hrows. destruct Hrows as (arow & Harow & Hrow).
  apply bind_Ok in Hrow. destruct Hrow as (values & Hvalues & Hrow).
  apply Ok_inj in Hrow. subst row. cbn [fst snd].
  apply pushLoop_inv in Hvalues. destruct Hvalues as [Hw _].
  exists arow. apply index_Ok in Harow. now repeat split.
Qed.

Lemma netPositions_total (assets : list Utilities.Row)
    (housing : list Housing.GenericHousing) (le : Living.LivingExpenses) :
  (forall row, In row assets -> (length (snd row) <= length housing)%nat) ->
  (forall h, In h housing ->
     (length assets <= length (Housing.housingData h))%nat) ->
  (length assets <= length (Living.expensesData le))%nat ->
  exists rows, Utilities.calculateNetPositions assets housing le = Ok rows.
Proof.
  intros Hw Hh Hle. unfold Utilities.calculateNetPositions.
  apply pushLoop_total. intros i Hi. cbn [Nat.add].
  destruct (index_lt assets i Hi) as [row Hrow]. rewrite Hrow. cbn [bind].
  assert (Hin : In row assets).
  { apply index_Ok in Hrow. now apply nth_error_In in Hrow. }
  destruct (pushLoop_total
              (fun j =>
                 asset <- index (snd row) j ;;
                 h <- index housing j ;;
                 hy <- index (Housing.housingData h) i ;;
                 ly <- index (Living.expensesData le) i ;;
                 Ok (asset - Housing.totalCosts hy - Living.totalCosts ly))
              (length (snd row)) 0) as [values Hvalues].
  { intros j Hj. cbn [Nat.add].
    destruct (index_lt (snd row) j Hj) as [a Ha]. rewrite Ha. cbn [bind].
    destruct (index_lt housing j) as [h Hhj].
    { specialize (Hw row Hin). lia. }
    rewrite Hhj. cbn [bind].
    assert (Hinh : In h housing).
    { apply index_Ok in Hhj. now apply nth_error_In in Hhj. }
    destruct (index_lt (Housing.housingData h) i) as [hy Hhy].
    { specialize (Hh h Hinh). lia. }
    rewrite Hhy. cbn [bind].
    destruct (index_lt (Living.expensesData le) i) as [ly Hly]; [lia|].
    rewrite Hly. cbn [bind]. now eexists. }
  rewrite Hvalues. cbn [bind]. now eexists.
Qed.

(** X24.  Every value of the table of cumulative assets is the sum, over
    all accounts, of the balance of that year and scenario, plus the home
    value that the scenario records for that year.  The table has one row
    per record of the first account, under that record's age, with as many
    values as the record has balances. *)
Theorem calculateCumulativeAssets_adds_balances_and_equity
    (investments : list Investment.GenericInvestment)
    (housing : list Housing.GenericHousing) (rows : list Utilities.Row) :
  Utilities.calculateCumulativeAssets investments housing = Ok rows ->
  exists first,
    nth_error investments 0 = Some first /\
    length rows = length (Investment.investmentData first) /\
    forall i row,
      nth_error rows i = Some row ->
      (exists fy, nth_error (Investment.investmentData first) i = Some fy /\
                  fst row = Investment.age fy /\
                  length (snd row) = length (Investment.value fy)) /\
      forall j a,
        nth_error (snd row) j = Some a ->
        exists balances h hy,
          Forall2 (fun investment v =>
                     exists y,
                       nth_error (Investment.investmentData investment) i = Some y /\
                       nth_error (Investment.value y) j = Some v)
                  investments balances /\
          nth_error housing j = Some h /\
          nth_error (Housing.housingData h) i = Some hy /\
          a == sumQ balances + Housing.value hy.
Proof.
  intro H. destruct (assets_rows _ _ _ H) as (first & Hfirst & Hlen & Hrows).
  exists first. repeat (split; [assumption|]).
  intros i row Hi. split; [now apply Hrows|].
  intros j a Hj. exact (assets_cell _ _ _ i j row a H Hi Hj).
Qed.

Lemma calculateCumulativeAssets_adds_balances_and_equity_witness :
  let housing := [rentScenario; houseScenario] in
  let account :=
    fst (Investment.NonTaxable_calculateData rothAccount housing
           twoYearsLiving None) in
  exists rows first,
    Utilities.calculateCumulativeAssets [account; account] housing = Ok rows /\
    nth_error [account; account] 0 = Some first /\
    length rows = length (Investment.investmentData first) /\
    forall i row,
      nth_error rows i = Some row ->
      (exists fy, nth_error (Investment.investmentData first) i = Some fy /\
                  fst row = Investment.age fy /\
                  length (snd row) = length (Investment.value fy)) /\
      forall j a,
        nth_error (snd row) j = Some a ->
        exists balances h hy,
          Forall2 (fun investment v =>
                     exists y,
                       nth_error (Investment.investmentData investment) i = Some y /\
                       nth_error (Investment.value y) j = Some v)
                  [account; account] balances /\
          nth_error housing j = Some h /\
          nth_error (Housing.housingData h) i = Some hy /\
          a == sumQ balances + Housing.value hy.
Proof.
  intros housing account.
  destruct (Utilities.calculateCumulativeAssets [account; account] housing)
    as [rows|] eqn:H; [|vm_compute in H; discriminate H].
  exists rows.
  destruct (calculateCumulativeAssets_adds_balances_and_equity
              [account; account] housing rows H) as (first & H1 & H2 & H3).
  exists first. split; [reflexivity|].
  split; [exact H1|]. split; [exact H2|]. exact H3.
Defined.

(** ** The calculation as a whole *)

Lemma calc_unfold (form : Utilities.FormInformation) :
  Main.calc form
  = (rental <- Housing.Apartment_calculateData (formApartment form) ;;
     house15 <- Housing.House_calculateData (formHouse form 15) ;;
     house30 <- Housing.House_calculateData (formHouse form 30) ;;
     livingExpenses <-
       Living.calculateData (Living.new (Utilities.generalInformation form)) ;;
     let housing :=
       [Housing.Apartment_super rental; Housing.House_super house15;
        Housing.House_super house30] in
     match
       Investment.NonTaxable_calculateData (formAccount form) housing
         livingExpenses None
     with
     | (investments, Investment.Completed) =>
         totalCosts <- Utilities.calculateTotalCosts housing livingExpenses ;;
         assetValues <-
           Utilities.calculateCumulativeAssets [investments] housing ;;
         netValues <-
           Utilities.calculateNetPositions assetValues housing livingExpenses ;;
         Ok (Main.mkCalculationResults totalCosts assetValues netValues
               investments rental house15 house30 livingExpenses)
     | (_, Investment.Stopped e) => Err e
     end).
Proof. reflexivity. Qed.

(** The steps behind a result of [calc]. *)
Lemma calc_Ok_inv (form : Utilities.FormInformation)
    (res : Main.CalculationResults) :
  Main.calc form = Ok res ->
  Housing.Apartment_calculateData (formApartment form) = Ok (Main.rental res) /\
  Housing.House_calculateData (formHouse form 15) = Ok (Main.house15 res) /\
  Housing.House_calculateData (formHouse form 30) = Ok (Main.house30 res) /\
  Living.calculateData (Living.new (Utilities.generalInformation form))
  = Ok (Main.livingExpenses res) /\
  Investment.NonTaxable_calculateData (formAccount form) (scenarios res)
    (Main.livingExpenses res) None
  = (Main.investments res, Investment.Completed) /\
  Utilities.calculateTotalCosts (scenarios res) (Main.livingExpenses res)
  = Ok (Main.totalCosts res) /\
  Utilities.calculateCumulativeAssets [Main.investments res] (scenarios res)
  = Ok (Main.assetValues res) /\
  Utilities.calculateNetPositions (Main.assetValues res) (scenarios res)
    (Main.livingExpenses res)
  = Ok (Main.netValues res).
Proof.
  rewrite calc_unfold. intro H.
  apply bind_Ok in H. destruct H as (rental & Hrental & H).
  apply bind_Ok in H. destruct H as (h15 & H15 & H).
  apply bind_Ok in H. destruct H as (h30 & H30 & H).
  apply bind_Ok in H. destruct H as (le & Hle & H).
  cbv zeta in H.
  destruct (Investment.NonTaxable_calculateData (formAccount form)
              [Housing.Apartment_super rental; Housing.House_super h15;
               Housing.House_super h30] le None) as [inv c] eqn:Hinv.
  destruct c as [|e]; [|discriminate H].
  apply bind_Ok in H. destruct H as (tc & Htc & H).
  apply bind_Ok in H. destruct H as (av & Hav & H).
  apply bind_Ok in H. destruct H as (nv & Hnv & H).
  apply Ok_inj in H. subst res. unfold scenarios. cbn [Main.rental Main.house15
    Main.house30 Main.livingExpenses Main.investments Main.totalCosts
    Main.assetValues Main.netValues].
  repeat (split; [assumption|]). assumption.
Qed.

(** The rent series of [calc]: one record per year, without equity. *)
Lemma formApartment_series (form : Utilities.FormInformation)
    (rental : Housing.Apartment) :
  Housing.Apartment_calculateData (formApartment form) = Ok rental ->
  length (Apartment_data rental) = years (Utilities.generalInformation form) /\
  forall i record, nth_error (Apartment_data rental) i = Some record ->
                   Housing.value record = 0.
Proof.
  intro H.
  destruct (Apartment_calculateData_appends (formApartment form))
    as (a' & new & Ha' & Hdata & Hlen & _).
  rewrite Ha' in H. apply Ok_inj in H. subst a'.
  split.
  - rewrite Hdata. cbn [formApartment Apartment_data Housing.new_Apartment
      Housing.Apartment_super Housing.housingData app]. exact Hlen.
  - unfold Housing.Apartment_calculateData in Ha'.
    apply bind_Ok in Ha'. destruct Ha' as (s' & Hloop & Hs').
    apply Ok_inj in Hs'. subst rental.
    destruct (Apartment_loop_records _ _ _ _ _ Hloop) as (new' & Hdata' & Hrec & _).
    intros i record Hi. rewrite Hdata' in Hi.
    cbn [formApartment Apartment_data Housing.new_Apartment
      Housing.Apartment_super Housing.housingData app] in Hi.
    now destruct (Hrec i record Hi).
Qed.

(** A house series of [calc]: one record per year, whose value is the home
    value after [i + 1] years of appreciation. *)
Lemma formHouse_series (form : Utilities.FormInformation) (term : nat)
    (house : Housing.House) :
  Housing.House_calculateData (formHouse form term) = Ok house ->
  length (House_data house) = years (Utilities.generalInformation form) /\
  forall i record,
    nth_error (House_data house) i = Some record ->
    Housing.value record
    == (Utilities.mortgageDownPayment (Utilities.buyingInformation form)
        + Utilities.mortgage (Utilities.buyingInformation form))
       * Math_pow (1 + Utilities.annualHomeValueAppreciation
                         (Utilities.buyingInformation form)) (S i).
Proof.
  intro H. apply House_calculateData_run in H. destruct H as (s & Hrun & ->).
  destruct (House_run_inv _ _ Hrun) as (_ & new & Hdata & Hlen & Hrec).
  cbn [formHouse House_data Housing.new_House Housing.House_super
    Housing.housingData Housing.generalInformation app Housing.downPayment
    Housing.mortgage Housing.homeAppreciationRate] in Hdata, Hlen, Hrec.
  unfold House_data in *. rewrite Hdata. split; [exact Hlen|].
  intros i record Hi. now destruct (Hrec i record Hi).
Qed.

Lemma formLiving_series (g : GeneralInformation) (le : Living.LivingExpenses) :
  Living.calculateData (Living.new g) = Ok le ->
  length (Living.expensesData le) = years g.
Proof.
  unfold Living.calculateData. intro H.
  destruct (Living_loop_records (years g) 0 (Living.new g)
              (monthlySpending g * 12) (retirementMonthlySpending g * 12))
    as (this' & spend' & retire' & new & Hloop & Hdata & Hlen & _).
  { cbn. lia. }
  cbn [Living.new Living.generalInformation] in H.
  cbn [Living.new Living.generalInformation Living.expensesData app] in Hloop, Hdata.
  rewrite Hloop in H. cbn [bind fst] in H. apply Ok_inj in H. subst le.
  now rewrite Hdata.
Qed.

Lemma formLiving_total (g : GeneralInformation) :
  exists le, Living.calculateData (Living.new g) = Ok le.
Proof.
  unfold Living.calculateData.
  destruct (Living_loop_records (years g) 0 (Living.new g)
              (monthlySpending g * 12) (retirementMonthlySpending g * 12))
    as (this' & spend' & retire' & new & Hloop & _).
  { cbn. lia. }
  cbn [Living.new Living.generalInformation] in Hloop |- *.
  rewrite Hloop. cbn [bind fst]. now eexists.
Qed.

(** The payment of a house of [calc] is a finite number when the form has
    no mortgage or a positive rate. *)
Lemma formHouse_payment (form : Utilities.FormInformation) (term : nat) :
  Utilities.mortgage (Utilities.buyingInformation form) <= 0 \/
  0 < Utilities.mortgageRate (Utilities.buyingInformation form) ->
  (0 < term)%nat ->
  Housing.monthlyMortgagePayment (formHouse form term) <> None.
Proof.
  intros Hform Hterm.
  destruct (Qlt_le_dec 0 (Utilities.mortgage (Utilities.buyingInformation form)))
    as [Hpos | Hnone].
  - destruct Hform as [Hle | Hrate]; [lra|].
    destruct (positive_loan_payment (formHouse form term)) as (_ & pay & Hpay & _);
      [exact Hpos | exact Hrate | exact Hterm |].
    rewrite Hpay. discriminate.
  - unfold Housing.monthlyMortgagePayment.
    cbn [formHouse Housing.new_House Housing.mortgage].
    rewrite (proj2 (ltb_false _ _) Hnone). discriminate.
Qed.

(** The account of [calc] after its run over the three scenarios. *)
Lemma formAccount_run (form : Utilities.FormInformation)
    (hs : list Housing.GenericHousing) (le : Living.LivingExpenses) :
  let g := Utilities.generalInformation form in
  (forall h, In h hs -> (years g <= length (Housing.housingData h))%nat) ->
  (years g <= length (Living.expensesData le))%nat ->
  exists account,
    Investment.NonTaxable_calculateData (formAccount form) hs le None
    = (account, Investment.Completed) /\
    length (Investment.investmentData account) = years g /\
    forall i record,
      nth_error (Investment.investmentData account) i = Some record ->
      Investment.age record = (startAge g + Z.of_nat i)%Z /\
      length (Investment.value record) = length hs.
Proof.
  intros g Hhs Hle. unfold Investment.NonTaxable_calculateData.
  apply (yearLoop_fresh_completes Investment.NonTaxable_withdrawals
           (Investment.healthcareCostOf None) hs le (years g) (formAccount form)).
  - reflexivity.
  - intros k _. now eexists.
  - exact Hle.
  - exact Hhs.
Qed.

(** Shape of the series and tables of a result of [calc]. *)
Lemma calc_shape (form : Utilities.FormInformation)
    (res : Main.CalculationResults) :
  Main.calc form = Ok res ->
  let g := Utilities.generalInformation form in
  (forall h, In h (scenarios res) ->
             length (Housing.housingData h) = years g) /\
  length (Living.expensesData (Main.livingExpenses res)) = years g /\
  length (Investment.investmentData (Main.investments res)) = years g /\
  forall i record,
    nth_error (Investment.investmentData (Main.investments res)) i = Some record ->
    Investment.age record = (startAge g + Z.of_nat i)%Z /\
    length (Investment.value record) = 3%nat.
Proof.
  intros H g. apply calc_Ok_inv in H.
  destruct H as (Hrental & H15 & H30 & Hle & Hinv & _).
  apply formApartment_series in Hrental. destruct Hrental as [Hrental _].
  apply formHouse_series in H15. destruct H15 as [H15 _].
  apply formHouse_series in H30. destruct H30 as [H30 _].
  apply formLiving_series in Hle.
  assert (Hhs : forall h, In h (scenarios res) ->
                          length (Housing.housingData h) = years g).
  { intros h [<- | [<- | [<- | []]]]; assumption. }
  split; [exact Hhs|]. split; [exact Hle|].
  destruct (formAccount_run form (scenarios res) (Main.livingExpenses res))
    as (account & Hrun & Hlen & Hrec).
  { intros h Hin. rewrite (Hhs h Hin). apply Nat.le_refl. }
  { fold g. rewrite Hle. apply Nat.le_refl. }
  rewrite Hrun in Hinv. injection Hinv as <-.
  split; [exact Hlen|]. exact Hrec.
Qed.

Lemma calc_total (form : Utilities.FormInformation) :
  Utilities.mortgage (Utilities.buyingInformation form) <= 0 \/
  0 < Utilities.mortgageRate (Utilities.buyingInformation form) ->
  exists res, Main.calc form = Ok res.
Proof.
  intro Hform. rewrite calc_unfold.
  set (g := Utilities.generalInformation form).
  destruct (Apartment_calculateData_appends (formApartment form))
    as (rental & new & Hrental & _).
  rewrite Hrental. cbn [bind].
  destruct (House_calculateData_total (formHouse form 15)) as (s15 & _ & H15).
  { left. apply formHouse_payment; [exact Hform | lia]. }
  rewrite H15. cbn [bind].
  destruct (House_calculateData_total (formHouse form 30)) as (s30 & _ & H30).
  { left. apply formHouse_payment; [exact Hform | lia]. }
  rewrite H30. cbn [bind].
  destruct (formLiving_total g) as [le Hle]. rewrite Hle. cbn [bind]. cbv zeta.
  apply formApartment_series in Hrental. destruct Hrental as [Hrental _].
  apply formHouse_series in H15. destruct H15 as [H15 _].
  apply formHouse_series in H30. destruct H30 as [H30 _].
  apply formLiving_series in Hle.
  set (housing := [Housing.Apartment_super rental; Housing.House_super (this_ s15);
                   Housing.House_super (this_ s30)]).
  assert (Hhs : forall h, In h housing -> length (Housing.housingData h) = years g).
  { intros h [<- | [<- | [<- | []]]]; assumption. }
  destruct (formAccount_run form housing le) as (account & Hrun & Hlen & Hrec).
  { intros h Hin. rewrite (Hhs h Hin). apply Nat.le_refl. }
  { fold g. rewrite Hle. apply Nat.le_refl. }
  rewrite Hrun.
  destruct (totalCosts_total housing le (Housing.Apartment_super rental))
    as [tc Htc].
  { reflexivity. }
  { intros h Hin. rewrite (Hhs h Hin). fold (Apartment_data rental).
    rewrite Hrental. apply Nat.le_refl. }
  { fold (Apartment_data rental). rewrite Hrental, Hle. apply Nat.le_refl. }
  rewrite Htc. cbn [bind].
  destruct (assets_total [account] housing account 3) as [av Hav].
  { reflexivity. }
  { intros inv [<- | []]. split; [apply Nat.le_refl|].
    intros record Hin. apply In_nth_error in Hin. destruct Hin as [i Hi].
    now destruct (Hrec i record Hi). }
  { cbn. lia. }
  { intros h Hin. rewrite (Hhs h Hin), Hlen. apply Nat.le_refl. }
  rewrite Hav. cbn [bind].
  destruct (assets_rows _ _ _ Hav) as (first & Hfirst & Havlen & Havrows).
  cbn [nth_error] in Hfirst. apply Ok_some_inj in Hfirst. subst first.
  destruct (netPositions_total av housing le) as [nv Hnv].
  { intros row Hin. apply In_nth_error in Hin. destruct Hin as [i Hi].
    destruct (Havrows i row Hi) as (fy & Hfy & _ & Hw).
    rewrite Hw. destruct (Hrec i fy Hfy) as [_ ->]. cbn. lia. }
  { intros h Hin. rewrite (Hhs h Hin), Havlen, Hlen. apply Nat.le_refl. }
  { rewrite Havlen, Hlen, Hle. apply Nat.le_refl. }
  rewrite Hnv. cbn [bind]. now eexists.
Qed.

(** Shape of the three tables of a result of [calc]. *)
Lemma calc_tables (form : Utilities.FormInformation)
    (res : Main.CalculationResults) :
  Main.calc form = Ok res ->
  let g := Utilities.generalInformation form in
  length (Main.totalCosts res) = years g /\
  length (Main.assetValues res) = years g /\
  length (Main.netValues res) = years g /\
  forall i row,
    nth_error (Main.totalCosts res) i = Some row \/
    nth_error (Main.assetValues res) i = Some row \/
    nth_error (Main.netValues res) i = Some row ->
    fst row = (startAge g + Z.of_nat i)%Z /\ length (snd row) = 3%nat.
Proof.
  intros H g.
  destruct (calc_shape form res H) as (Hhs & Hle & Hlen & Hrec). fold g in Hhs, Hle, Hlen, Hrec.
  pose proof (calc_Ok_inv form res H)
    as (Hrental & _ & _ & _ & _ & Htc & Hav & Hnv).
  destruct (totalCosts_rows _ _ _ Htc) as (first & Hfirst & Htclen & Htcrows).
  cbn [scenarios nth_error] in Hfirst. apply Ok_some_inj in Hfirst. subst first.
  destruct (assets_rows _ _ _ Hav) as (first & Hfirst & Havlen & Havrows).
  cbn [nth_error] in Hfirst. apply Ok_some_inj in Hfirst. subst first.
  destruct (netPositions_rows _ _ _ _ Hnv) as (Hnvlen & Hnvrows).
  assert (Hrent : length (Housing.housingData
                            (Housing.Apartment_super (Main.rental res)))
                  = years g).
  { apply Hhs. now left. }
  assert (Hassets : forall i row,
             nth_error (Main.assetValues res) i = Some row ->
             fst row = (startAge g + Z.of_nat i)%Z /\ length (snd row) = 3%nat).
  { intros i row Hi. destruct (Havrows i row Hi) as (fy & Hfy & Hage & Hw).
    destruct (Hrec i fy Hfy) as [Hage' Hw']. split; congruence. }
  split; [congruence|]. split; [congruence|]. split; [congruence|].
  intros i row [Hi | [Hi | Hi]].
  - destruct (Htcrows i row Hi) as (Hw & fy & Hfy & Hage). split; [|exact Hw].
    rewrite Hage.
    destruct (Apartment_calculateData_appends (formApartment form))
      as (a' & new & Ha' & _).
    rewrite Ha' in Hrental. apply Ok_inj in Hrental. subst a'.
    unfold Housing.Apartment_calculateData in Ha'.
    apply bind_Ok in Ha'. destruct Ha' as (s' & Hloop & Hs').
    apply Ok_inj in Hs'.
    destruct (Apartment_loop_records _ _ _ _ _ Hloop) as (new' & Hdata' & Hrec' & _).
    rewrite Hs' in Hdata'. unfold Apartment_data in Hdata'. rewrite Hdata' in Hfy.
    cbn [formApartment Housing.new_Apartment Housing.Apartment_super
      Housing.housingData app] in Hfy.
    destruct (Hrec' i fy Hfy) as (_ & Hage' & _). exact Hage'.
  - now apply Hassets.
  - destruct (Hnvrows i row Hi) as (arow & Harow & Hage & Hw).
    destruct (Hassets i arow Harow) as [Hage' Hw']. split; congruence.
Qed.

(** X25.  When the form has no mortgage or a positive mortgage rate,
    [calc] runs to its end without an exception, and each of its three
    tables (total costs, cumulative assets, net positions) has one row per
    year from the current age to the age of death, the row of year [i] under
    the age [startAge + i], with one value for each of the three scenarios. *)
Theorem calc_completes_with_full_tables (form : Utilities.FormInformation) :
  Utilities.mortgage (Utilities.buyingInformation form) <= 0 \/
  0 < Utilities.mortgageRate (Utilities.buyingInformation form) ->
  let g := Utilities.generalInformation form in
  exists res,
    Main.calc form = Ok res /\
    length (Main.totalCosts res) = years g /\
    length (Main.assetValues res) = years g /\
    length (Main.netValues res) = years g /\
    forall i row,
      nth_error (Main.totalCosts res) i = Some row \/
      nth_error (Main.assetValues res) i = Some row \/
      nth_error (Main.netValues res) i = Some row ->
      fst row = (startAge g + Z.of_nat i)%Z /\ length (snd row) = 3%nat.
Proof.
  intros Hform g. destruct (calc_total form Hform) as [res Hres].
  exists res. split; [exact Hres|]. exact (calc_tables form res Hres).
Qed.

Lemma calc_completes_with_full_tables_witness :
  exists res,
    Main.calc cashBuyerForm = Ok res /\
    length (Main.totalCosts res) = 3%nat /\
    length (Main.assetValues res) = 3%nat /\
    length (Main.netValues res) = 3%nat /\
    forall i row,
      nth_error (Main.totalCosts res) i = Some row \/
      nth_error (Main.assetValues res) i = Some row \/
      nth_error (Main.netValues res) i = Some row ->
      fst row = (40 + Z.of_nat i)%Z /\ length (snd row) = 3%nat.
Proof.
  apply (calc_completes_with_full_tables cashBuyerForm).
  left. cbn. lra.
Defined.



(** ** Saved scenarios *)

Section ScenarioManagerProperties.

Context {FormData : Type}.
Variable trim : string -> string.

Lemma find_filter_id (i i' : string) (l : list (Scenarios.Scenario FormData)) :
  find (fun s => (Scenarios.id s =? i')%string)
       (filter (fun s => negb (Scenarios.id s =? i)%string) l)
  = if (i' =? i)%string then None
    else find (fun s => (Scenarios.id s =? i')%string) l.
Proof.
  induction l as [|s l IH]; cbn [filter find].
  - now destruct (i' =? i)%string.
  - destruct (Scenarios.id s =? i)%string eqn:Ei; cbn [negb].
    + rewrite IH. destruct (i' =? i)%string eqn:Ei'; [reflexivity|].
      destruct (Scenarios.id s =? i')%string eqn:Es; [|reflexivity].
      apply String.eqb_eq in Ei, Es. apply String.eqb_neq in Ei'. congruence.
    + cbn [find]. rewrite IH.
      destruct (Scenarios.id s =? i')%string eqn:Es; [|reflexivity].
      destruct (i' =? i)%string eqn:Ei'; [|reflexivity].
      apply String.eqb_eq in Ei', Es. apply String.eqb_neq in Ei. congruence.
Qed.

Lemma filter_length_le {A : Type} (p : A -> bool) (l : list A) :
  (length (filter p l) <= length l)%nat.
Proof.
  induction l as [|a l IH]; cbn [filter length]; [lia|].
  destruct (p a); cbn [length]; lia.
Qed.

Lemma filter_same_length {A : Type} (p : A -> bool) (l : list A) :
  length (filter p l) = length l <-> forall a, In a l -> p a = true.
Proof.
  induction l as [|a l IH]; cbn [filter length].
  - split; [intros _ x []| reflexivity].
  - pose proof (filter_length_le p l) as Hle.
    destruct (p a) eqn:Ea; cbn [length]; split.
    + intros H x [<- | Hin]; [exact Ea|]. apply IH; [lia | exact Hin].
    + intros H. f_equal. apply IH. intros x Hin. apply H. now right.
    + intro H. lia.
    + intro H. specialize (H a (or_introl eq_refl)). congruence.
Qed.

(** X28.  [deleteScenario(id)] returns [true] exactly when a stored
    scenario has that id; when it returns [false] the storage is untouched;
    and afterwards [getScenarioById] finds nothing under the deleted id and,
    under every other id, what it found before. *)
Theorem deleteScenario_removes_exactly_that_id (storage : Scenarios.Storage FormData) (i : string) :
  (fst (Scenarios.deleteScenario storage i) = true <->
   exists s, In s (Scenarios.getAllScenarios storage) /\ Scenarios.id s = i) /\
  (fst (Scenarios.deleteScenario storage i) = false ->
   snd (Scenarios.deleteScenario storage i) = storage) /\
  forall i',
    Scenarios.getScenarioById (snd (Scenarios.deleteScenario storage i)) i'
    = if (i' =? i)%string then None
      else Scenarios.getScenarioById storage i'.
Proof.
  unfold Scenarios.deleteScenario, Scenarios.getScenarioById.
  set (l := Scenarios.getAllScenarios storage).
  set (p := fun s : Scenarios.Scenario FormData => negb (Scenarios.id s =? i)%string).
  pose proof (filter_same_length p l) as Hsame.
  destruct (length (filter p l) =? length l)%nat eqn:E; cbn [fst snd].
  - apply Nat.eqb_eq in E. pose proof (proj1 Hsame E) as Hall.
    split; [|split].
    + split; [discriminate|]. intros (s & Hin & Hs).
      specialize (Hall s Hin). unfold p in Hall.
      apply String.eqb_eq in Hs. rewrite Hs in Hall. discriminate Hall.
    + reflexivity.
    + intro i'. fold l. destruct (i' =? i)%string eqn:Ei; [|reflexivity].
      apply String.eqb_eq in Ei. subst i'.
      destruct (find (fun s => (Scenarios.id s =? i)%string) l) as [s|] eqn:Ef;
        [|reflexivity].
      apply find_some in Ef. destruct Ef as [Hin Hs].
      specialize (Hall s Hin). unfold p in Hall. rewrite Hs in Hall.
      discriminate Hall.
  - apply Nat.eqb_neq in E.
    split; [|split].
    + split; [intros _|reflexivity].
      destruct (existsb (fun s => (Scenarios.id s =? i)%string) l) eqn:Ex.
      * apply existsb_exists in Ex. destruct Ex as (s & Hin & Hs).
        apply String.eqb_eq in Hs. now exists s.
      * exfalso. apply E. apply Hsame. intros s Hin. unfold p.
        destruct (Scenarios.id s =? i)%string eqn:Hs; [|reflexivity].
        assert (existsb (fun s => (Scenarios.id s =? i)%string) l = true).
        { apply existsb_exists. now exists s. }
        congruence.
    + discriminate.
    + intro i'. cbn [Scenarios.getAllScenarios]. apply find_filter_id.
Qed.

Lemma findIndex_find (e : string) (l : list (Scenarios.Scenario FormData)) :
  match Scenarios.findIndex e l with
  | Some index =>
      exists old, find (fun s => (Scenarios.id s =? e)%string) l = Some old /\
                  nth_error l index = Some old
  | None => find (fun s => (Scenarios.id s =? e)%string) l = None
  end.
Proof.
  induction l as [|s l IH]; cbn [Scenarios.findIndex find]; [reflexivity|].
  destruct (Scenarios.id s =? e)%string.
  - now exists s.
  - destruct (Scenarios.findIndex e l) as [index|]; [|exact IH].
    destruct IH as (old & Hfind & Hnth). now exists old.
Qed.

Lemma assign_first (e : string) (l : list (Scenarios.Scenario FormData)) :
  forall index old name notes fd date,
    Scenarios.findIndex e l = Some index ->
    nth_error l index = Some old ->
    let updated :=
      Scenarios.mkScenario (Scenarios.id old) name notes fd
        (Scenarios.createdAt old) date in
    let l' := Scenarios.assign l index name notes fd date in
    nth_error l' index = Some updated /\
    length l' = length l /\
    Scenarios.id old = e /\
    forall i',
      find (fun s => (Scenarios.id s =? i')%string) l'
      = if (i' =? e)%string then Some updated
        else find (fun s => (Scenarios.id s =? i')%string) l.
Proof.
  induction l as [|s l IH]; intros index old name notes fd date Hidx Hnth;
    cbn [Scenarios.findIndex] in Hidx; [discriminate Hidx|].
  destruct (Scenarios.id s =? e)%string eqn:Es.
  - apply Ok_some_inj in Hidx. subst index. cbn [nth_error] in Hnth.
    apply Ok_some_inj in Hnth. subst old.
    cbn [Scenarios.assign nth_error length find Scenarios.id].
    apply String.eqb_eq in Es. repeat split; [exact Es|].
    intro i'. rewrite Es. rewrite (String.eqb_sym e i').
    now destruct (i' =? e)%string.
  - destruct (Scenarios.findIndex e l) as [index'|] eqn:Ei; [|discriminate Hidx].
    apply Ok_some_inj in Hidx. subst index. cbn [nth_error] in Hnth.
    destruct (IH index' old name notes fd date eq_refl Hnth)
      as (H1 & H2 & H3 & H4).
    cbn [Scenarios.assign nth_error length find].
    split; [exact H1|]. split; [now rewrite H2|]. split; [exact H3|].
    intro i'. rewrite H4.
    destruct (Scenarios.id s =? i')%string eqn:Es'; [|reflexivity].
    destruct (i' =? e)%string eqn:Ei'; [|reflexivity].
    apply String.eqb_eq in Es', Ei'. apply String.eqb_neq in Es. congruence.
Qed.

Lemma find_app_new (i' : string) (l : list (Scenarios.Scenario FormData))
    (s : Scenarios.Scenario FormData) :
  find (fun x => (Scenarios.id x =? i')%string) (l ++ [s])
  = match find (fun x => (Scenarios.id x =? i')%string) l with
    | Some old => Some old
    | None => if (Scenarios.id s =? i')%string then Some s else None
    end.
Proof.
  induction l as [|x l IH]; cbn [app find]; [reflexivity|].
  now destruct (Scenarios.id x =? i')%string.
Qed.

(** X29.  A call of [saveScenario] that returns a scenario stores the
    given name, notes and form data in it and leaves what is found under
    every other id as it was.  When an id is given and a stored scenario
    has it, the first such scenario is updated in place: it keeps its id and
    creation date, the number of stored scenarios does not change, and the
    update is what is found under that id.  Otherwise, also when the given
    id is unknown, a new scenario with a generated id is appended, and it is
    found under that id provided no stored scenario had the id already. *)
Theorem saveScenario_stores_the_scenario (storage storage' : Scenarios.Storage FormData)
    (env : Scenarios.Environment) (name notes : string) (fd : FormData)
    (existingId : option string) (saved : Scenarios.Scenario FormData) :
  Scenarios.saveScenario trim storage env name notes fd existingId
  = (inr saved, storage') ->
  Scenarios.name saved = name /\
  Scenarios.notes saved = notes /\
  Scenarios.formData saved = fd /\
  (forall i', i' <> Scenarios.id saved ->
     Scenarios.getScenarioById storage' i'
     = Scenarios.getScenarioById storage i') /\
  match toUpdate storage existingId with
  | Some old =>
      Scenarios.id saved = Scenarios.id old /\
      Scenarios.createdAt saved = Scenarios.createdAt old /\
      Scenarios.updatedAt saved = Scenarios.firstDate env /\
      length (Scenarios.getAllScenarios storage')
      = length (Scenarios.getAllScenarios storage) /\
      Scenarios.getScenarioById storage' (Scenarios.id saved) = Some saved
  | None =>
      Scenarios.id saved = Scenarios.generatedId env /\
      Scenarios.createdAt saved = Scenarios.firstDate env /\
      Scenarios.updatedAt saved = Scenarios.secondDate env /\
      Scenarios.getAllScenarios storage'
      = Scenarios.getAllScenarios storage ++ [saved] /\
      (Scenarios.getScenarioById storage (Scenarios.id saved) = None ->
       Scenarios.getScenarioById storage' (Scenarios.id saved) = Some saved)
  end.
Proof.
  unfold Scenarios.saveScenario, toUpdate, Scenarios.getScenarioById.
  set (l := Scenarios.getAllScenarios storage).
  destruct ((name =? "") || (trim name =? ""))%string; [discriminate|].
  cbv zeta.
  assert (Hcreate :
    forall old : option (Scenarios.Scenario FormData),
      (@inr Scenarios.exception _ (Scenarios.mkScenario (Scenarios.generatedId env) name notes fd
              (Scenarios.firstDate env) (Scenarios.secondDate env)),
       Some (l ++ [Scenarios.mkScenario (Scenarios.generatedId env) name notes fd
                     (Scenarios.firstDate env) (Scenarios.secondDate env)]))
      = (inr saved, storage') ->
      old = None ->
      Scenarios.name saved = name /\
      Scenarios.notes saved = notes /\
      Scenarios.formData saved = fd /\
      (forall i', i' <> Scenarios.id saved ->
         find (fun s => (Scenarios.id s =? i')%string)
              (Scenarios.getAllScenarios storage')
         = find (fun s => (Scenarios.id s =? i')%string) l) /\
      match old with
      | Some old =>
          Scenarios.id saved = Scenarios.id old /\
          Scenarios.createdAt saved = Scenarios.createdAt old /\
          Scenarios.updatedAt saved = Scenarios.firstDate env /\
          length (Scenarios.getAllScenarios storage') = length l /\
          find (fun s => (Scenarios.id s =? Scenarios.id saved)%string)
               (Scenarios.getAllScenarios storage') = Some saved
      | None =>
          Scenarios.id saved = Scenarios.generatedId env /\
          Scenarios.createdAt saved = Scenarios.firstDate env /\
          Scenarios.updatedAt saved = Scenarios.secondDate env /\
          Scenarios.getAllScenarios storage' = l ++ [saved] /\
          (find (fun s => (Scenarios.id s =? Scenarios.id saved)%string) l = None ->
           find (fun s => (Scenarios.id s =? Scenarios.id saved)%string)
                (Scenarios.getAllScenarios storage') = Some saved)
      end).
  { intros old H ->. injection H as <- <-.
    cbn [Scenarios.name Scenarios.notes Scenarios.formData Scenarios.id
         Scenarios.createdAt Scenarios.updatedAt Scenarios.getAllScenarios].
    repeat (split; [reflexivity|]). split; [|repeat (split; [reflexivity|])].
    - intros i' Hi'. rewrite find_app_new.
      destruct (find (fun x => (Scenarios.id x =? i')%string) l); [reflexivity|].
      cbn [Scenarios.id].
      destruct (Scenarios.generatedId env =? i')%string eqn:E; [|reflexivity].
      apply String.eqb_eq in E. congruence.
    - intro Hnone. rewrite find_app_new, Hnone. cbn [Scenarios.id].
      now rewrite String.eqb_refl. }
  destruct (Scenarios.given existingId) as [e|];
    [|intro H; exact (Hcreate None H eq_refl)].
  pose proof (findIndex_find e l) as Hfind.
  destruct (Scenarios.findIndex e l) as [index|] eqn:Hidx;
    [|rewrite Hfind; intro H; exact (Hcreate None H eq_refl)].
  destruct Hfind as (old & Hold & Hnth). rewrite Hold.
  destruct (assign_first e l index old name notes fd (Scenarios.firstDate env)
              Hidx Hnth) as (Hupd & Hlen & Hid & Hget).
  rewrite Hupd. intro H. injection H as <- <-.
  cbn [Scenarios.name Scenarios.notes Scenarios.formData Scenarios.id
       Scenarios.createdAt Scenarios.updatedAt Scenarios.getAllScenarios].
  repeat (split; [reflexivity|]). split; [|repeat (split; [reflexivity|])].
  - intros i' Hi'. rewrite Hget.
    destruct (i' =? e)%string eqn:E; [|reflexivity].
    apply String.eqb_eq in E. congruence.
  - split; [exact Hlen|]. rewrite Hget, Hid. now rewrite String.eqb_refl.
Qed.

Lemma importOne_find (i' : string) (acc : list (Scenarios.Scenario FormData))
    (imported : Scenarios.Scenario FormData) :
  find (fun s => (Scenarios.id s =? i')%string) (Scenarios.importOne acc imported)
  = match find (fun s => (Scenarios.id s =? i')%string) acc with
    | Some s => Some s
    | None => if (Scenarios.id imported =? i')%string then Some imported else None
    end.
Proof.
  unfold Scenarios.importOne.
  destruct (existsb (fun s => (Scenarios.id s =? Scenarios.id imported)%string) acc)
    eqn:Ex.
  - destruct (find (fun s => (Scenarios.id s =? i')%string) acc) eqn:Ef;
      [reflexivity|].
    destruct (Scenarios.id imported =? i')%string eqn:E; [|reflexivity].
    apply String.eqb_eq in E. rewrite E in Ex.
    apply existsb_exists in Ex. destruct Ex as (s & Hin & Hs).
    now rewrite (find_none _ _ Ef s Hin) in Hs.
  - apply find_app_new.
Qed.

Lemma import_fold (imported : list (Scenarios.Scenario FormData)) :
  forall acc,
    (forall i',
        find (fun s => (Scenarios.id s =? i')%string)
             (fold_left Scenarios.importOne imported acc)
        = match find (fun s => (Scenarios.id s =? i')%string) acc with
          | Some s => Some s
          | None => find (fun s => (Scenarios.id s =? i')%string) imported
          end) /\
    (exists added,
        fold_left Scenarios.importOne imported acc = acc ++ added /\
        (length added <= length imported)%nat /\
        forall s, In s added -> In s imported) /\
    (NoDup (map Scenarios.id acc) ->
     NoDup (map Scenarios.id (fold_left Scenarios.importOne imported acc))).
Proof.
  induction imported as [|imp imported IH]; intro acc; cbn [fold_left].
  - split; [|split].
    + intro i'. cbn [find].
      now destruct (find (fun s => (Scenarios.id s =? i')%string) acc).
    + exists []. rewrite app_nil_r. split; [reflexivity|].
      split; [cbn; lia | intros s []].
    + tauto.
  - destruct (IH (Scenarios.importOne acc imp)) as (Hfind & (added & Hadd & Hlen & Hin) & Hdup).
    split; [|split].
    + intro i'. rewrite Hfind, importOne_find. cbn [find].
      destruct (find (fun s => (Scenarios.id s =? i')%string) acc); [reflexivity|].
      now destruct (Scenarios.id imp =? i')%string.
    + assert (Hone : Scenarios.importOne acc imp
                     = if existsb (fun s => (Scenarios.id s =? Scenarios.id imp)%string) acc
                       then acc else acc ++ [imp]) by reflexivity.
      destruct (existsb (fun s => (Scenarios.id s =? Scenarios.id imp)%string) acc);
        rewrite Hone in Hadd |- *.
      * exists added. split; [exact Hadd|]. split; [cbn [length]; lia|].
        intros s Hs. right. now apply Hin.
      * exists (imp :: added). rewrite Hadd, <- app_assoc. split; [reflexivity|].
        split; [cbn [length]; lia|].
        intros s [<- | Hs]; [now left | right; now apply Hin].
    + intro Hnd. apply Hdup. unfold Scenarios.importOne.
      destruct (existsb (fun s => (Scenarios.id s =? Scenarios.id imp)%string) acc)
        eqn:Ex; [exact Hnd|].
      rewrite map_app. cbn [map].
      apply NoDup_app; [exact Hnd | constructor; [intros [] | constructor] |].
      intros x Hx [<- | []].
      apply in_map_iff in Hx. destruct Hx as (s & Hs & Hin').
      assert (existsb (fun s => (Scenarios.id s =? Scenarios.id imp)%string) acc
              = true).
      { apply existsb_exists. exists s. split; [exact Hin'|].
        now apply String.eqb_eq. }
      congruence.
Qed.

(** X30.  [importScenarios] returns the length of the imported array,
    also when it skips entries.  It keeps the scenarios it starts from (the
    stored ones when merging, none otherwise) in place and appends imported
    entries only; afterwards an id leads to the scenario that had it before,
    else to the first imported entry with that id; and ids that were
    pairwise distinct before are pairwise distinct afterwards, even when the
    imported array repeats an id. *)
Theorem importScenarios_skips_known_ids (storage : Scenarios.Storage FormData)
    (imported : list (Scenarios.Scenario FormData)) (merge : bool) :
  let before := if merge then Scenarios.getAllScenarios storage else [] in
  let after :=
    Scenarios.getAllScenarios
      (snd (Scenarios.importScenarios storage imported merge)) in
  fst (Scenarios.importScenarios storage imported merge) = length imported /\
  (exists added,
      after = before ++ added /\
      (length added <= length imported)%nat /\
      forall s, In s added -> In s imported) /\
  (forall i,
      Scenarios.getScenarioById
        (snd (Scenarios.importScenarios storage imported merge)) i
      = match find (fun s => (Scenarios.id s =? i)%string) before with
        | Some s => Some s
        | None => find (fun s => (Scenarios.id s =? i)%string) imported
        end) /\
  (NoDup (map Scenarios.id before) -> NoDup (map Scenarios.id after)).
Proof.
  intros before after. subst after.
  unfold Scenarios.importScenarios, Scenarios.getScenarioById.
  cbn [fst snd Scenarios.getAllScenarios]. fold before.
  destruct (import_fold imported before) as (Hfind & Hadded & Hdup).
  split; [reflexivity|]. split; [exact Hadded|]. split; [exact Hfind|exact Hdup].
Qed.

End ScenarioManagerProperties.

Lemma saveScenario_stores_the_scenario_witness :
  exists saved storage',
    Scenarios.saveScenario (fun s => s) twoSaved laterSave
      "Buy later" "30 years" "new form"%string (Some "scenario_2_b"%string)
    = (inr saved, storage') /\
    Scenarios.id saved = "scenario_2_b"%string /\
    Scenarios.createdAt saved = 200%Z /\
    Scenarios.updatedAt saved = 300%Z /\
    Scenarios.name saved = "Buy later"%string /\
    length (Scenarios.getAllScenarios storage') = 2%nat /\
    Scenarios.getScenarioById storage' "scenario_2_b" = Some saved.
Proof.
  destruct (Scenarios.saveScenario (fun s => s) twoSaved laterSave
              "Buy later" "30 years" "new form"%string (Some "scenario_2_b"%string))
    as [[e|saved] storage'] eqn:H; [vm_compute in H; discriminate H|].
  exists saved, storage'. split; [reflexivity|].
  destruct (saveScenario_stores_the_scenario (fun s => s) twoSaved storage'
              laterSave "Buy later" "30 years" "new form"%string (Some "scenario_2_b"%string)
              saved H) as (Hname & _ & _ & _ & Hupdate).
  change (toUpdate twoSaved (Some "scenario_2_b"%string))
    with (Some (Scenarios.mkScenario "scenario_2_b"%string "Buy"%string "15 years"%string
                  "buy form"%string 200 250)) in Hupdate.
  destruct Hupdate as (Hid & Hcreated & Hupdated & Hlen & Hget).
  cbn [Scenarios.id] in Hid. rewrite Hid in Hget.
  repeat (split; [assumption|]). exact Hget.
Defined.
